(** * OLAF neighbourhood protocol: a shallow embedding of the Python sources

    The development follows the layout of the repository:
    - [Py]            the fragment of the Python runtime the code relies on
                      (exceptions, insertion-ordered dictionaries, JSON values);
    - [Base64]        [base64.b64encode] / [base64.b64decode];
    - [Crypto]        [src/utils/crypto.py] over an abstract RSA/AES provider;
    - [Message]       [message.py];
    - [Client]        [client.py];
    - [Neighbourhood] [src/server_as_client.py] (the object [server.py] keeps in
                      [self.neighbourhood]);
    - [Server]        [server.py];
    - [Spec]          the predicates of the specification the properties are
                      stated with;
    - [Fixture]       a provider and worlds on which the code can be run.

    Python [str] values are represented by their UTF-8 byte sequence (Rocq's
    [string]), so that [s.encode("utf-8")] is the conversion from [string] to
    [list byte]. *)

From stdpp Require Import base option list strings gmap pretty.
From Stdlib Require Import ZArith NArith Lia.
From Stdlib.Strings Require Import Byte.

Set Warnings "-register-all".
Open Scope string_scope.

(* ===================================================================== *)
(** ** The Python runtime fragment                                        *)
(* ===================================================================== *)

Module Py.

  (** Exceptions that the modelled code can raise or catch. All of them are
      subclasses of [Exception]. *)
Inductive exn :=
  | KeyError | TypeError | AttributeError | ValueError | RuntimeError
  | JSONDecodeError | UnicodeDecodeError | RecursionError | ConnectionClosed
  | BinasciiError | InvalidTag | OSError.

#[global] Instance exn_eq_dec : EqDecision exn.
Proof. solve_decision. Defined.

  (** The ways [json.loads] fails: on text that is no JSON, on the bytes
      of a binary frame that are no UTF-8, UTF-16 or UTF-32 text, and on
      JSON nested deeper than the interpreter's recursion limit. *)
Inductive loads_error := NotJSON | NotText | TooDeep.

Definition loads_exn (e : loads_error) : exn :=
    match e with
    | NotJSON => JSONDecodeError
    | NotText => UnicodeDecodeError
    | TooDeep => RecursionError
    end.

  (** The result of running a piece of Python code. *)
Inductive outcome (A : Type) :=
  | Returned (a : A)
  | Raised (e : exn).
Arguments Returned {A} a.
Arguments Raised {A} e.

#[global] Instance outcome_ret : MRet outcome := @Returned.
#[global] Instance outcome_bind : MBind outcome := λ A B f m,
    match m with
    | Returned a => f a
    | Raised e => Raised e
    end.

  (** Code with side effects on a state [S]: an exception leaves the mutations
      made so far in place, as in Python. *)
Definition M (S A : Type) : Type := S → outcome A * S.

Section monad.
Context {S : Type}.

#[global] Instance M_ret : MRet (M S) := λ A a s, (Returned a, s).
#[global] Instance M_bind : MBind (M S) := λ A B f m s,
      match m s with
      | (Returned a, s') => f a s'
      | (Raised e, s') => (Raised e, s')
      end.

Definition raise {A} (e : exn) : M S A := λ s, (Raised e, s).
Definition get_state : M S S := λ s, (Returned s, s).
Definition modify (f : S → S) : M S unit := λ s, (Returned tt, f s).
Definition lift {A} (o : outcome A) : M S A := λ s, (o, s).

    (** [try: body except <classes>: handler]. *)
Definition try_except {A} (body : M S A) (caught : exn → bool)
        (handler : exn → M S A) : M S A := λ s,
      match body s with
      | (Returned a, s') => (Returned a, s')
      | (Raised e, s') => if caught e then handler e s' else (Raised e, s')
      end.
End monad.

  (** [except Exception]. *)
Definition any_exception (e : exn) : bool := true.

  (** *** Dictionaries

      A [dict] keeps its keys in insertion order; assigning to an existing key
      keeps its position, [pop] removes the entry. *)
Section dict.
Context {K V : Type} `{EqDecision K}.

Fixpoint dict_get (d : list (K * V)) (k : K) : option V :=
      match d with
      | [] => None
      | (k', v) :: d' => if decide (k = k') then Some v else dict_get d' k
      end.

Fixpoint dict_set (d : list (K * V)) (k : K) (v : V) : list (K * V) :=
      match d with
      | [] => [(k, v)]
      | (k', v') :: d' =>
          if decide (k = k') then (k', v) :: d' else (k', v') :: dict_set d' k v
      end.

Fixpoint dict_pop (d : list (K * V)) (k : K) : list (K * V) :=
      match d with
      | [] => []
      | (k', v') :: d' =>
          if decide (k = k') then d' else (k', v') :: dict_pop d' k
      end.

Definition dict_contains (d : list (K * V)) (k : K) : bool :=
      bool_decide (is_Some (dict_get d k)).

Definition dict_keys (d : list (K * V)) : list K := d.*1.
Definition dict_values (d : list (K * V)) : list V := d.*2.

    (** [d[k]]. *)
Definition dict_getitem (d : list (K * V)) (k : K) : outcome V :=
      match dict_get d k with
      | Some v => Returned v
      | None => Raised KeyError
      end.
End dict.

  (** *** JSON values, as produced by [json.loads]

      [JNull] is Python's [None]. Numbers are integers. *)
Inductive json :=
  | JNull
  | JBool (b : bool)
  | JInt (z : Z)
  | JStr (s : string)
  | JList (l : list json)
  | JObj (kvs : list (string * json)).

  (** [v.get(key, None)]: only a [dict] has [get]. *)
Definition py_get (v : json) (key : string) : outcome json :=
    match v with
    | JObj kvs => Returned (default JNull (dict_get kvs key))
    | _ => Raised AttributeError
    end.

  (** [v[key]] for a string key. *)
Definition py_getitem (v : json) (key : string) : outcome json :=
    match v with
    | JObj kvs => dict_getitem kvs key
    | _ => Raised TypeError
    end.

  (** [v == "literal"]. *)
Definition is_str (v : json) (s : string) : bool :=
    match v with
    | JStr s' => bool_decide (s' = s)
    | _ => false
    end.

Definition is_none (v : json) : bool :=
    match v with JNull => true | _ => false end.

#[global] Instance byte_eq_dec : EqDecision byte := Byte.byte_eq_dec.

  (** [s.encode("utf-8")] and [b.decode("utf-8")] on the byte representation. *)
Definition encode (s : string) : list byte := String.list_byte_of_string s.
Definition decode (b : list byte) : string := String.string_of_list_byte b.

  (** [str(n)] for an [int]. *)
Definition str_of_int (n : Z) : string := pretty n.

End Py.
Export Py.

(* ===================================================================== *)
(** ** [base64]                                                           *)
(* ===================================================================== *)

Module Base64.

Definition alphabet : list byte :=
    String.list_byte_of_string
      "ABCDEFGHIJKLMNOPQRSTUVWXYZabcdefghijklmnopqrstuvwxyz0123456789+/".

Definition BASE64_PAD : byte := "="%byte.

  (** The character of a six-bit value. *)
Definition b2a (n : N) : byte := nth (N.to_nat n) alphabet BASE64_PAD.

  (** [table_a2b_base64]: the six-bit value of a character of the alphabet. *)
Definition a2b (ch : byte) : option N :=
    N.of_nat <$> (fst <$> list_find (λ c, c = ch) alphabet).

Definition byte_of_N (n : N) : byte :=
    default "000"%byte (Byte.of_N (n mod 256)).

  (** [binascii.b2a_base64(s, newline=False)]: three bytes give four
      characters, and the last group is padded with [=]. *)
Fixpoint b2a_base64 (s : list byte) : list byte :=
    match s with
    | [] => []
    | [a] =>
        let a := Byte.to_N a in
        [b2a (N.shiftr a 2); b2a (N.shiftl (N.land a 3) 4);
         BASE64_PAD; BASE64_PAD]
    | [a; b] =>
        let a := Byte.to_N a in
        let b := Byte.to_N b in
        [b2a (N.shiftr a 2);
         b2a (N.lor (N.shiftl (N.land a 3) 4) (N.shiftr b 4));
         b2a (N.shiftl (N.land b 15) 2);
         BASE64_PAD]
    | a :: b :: c :: rest =>
        let a := Byte.to_N a in
        let b := Byte.to_N b in
        let c := Byte.to_N c in
        b2a (N.shiftr a 2)
        :: b2a (N.lor (N.shiftl (N.land a 3) 4) (N.shiftr b 4))
        :: b2a (N.lor (N.shiftl (N.land b 15) 2) (N.shiftr c 6))
        :: b2a (N.land c 63)
        :: b2a_base64 rest
    end.

  (** [binascii.a2b_base64(s)] in its default, non-strict mode: the loop over
      the input with its variables [quad_pos], [leftchar] and [pads]; [out] is
      the output written so far. Characters outside the alphabet are skipped, a
      completed pad sequence ends the parse, and input that stops inside a
      group of four raises [binascii.Error]. *)
Fixpoint a2b_loop (s : list byte) (quad_pos leftchar pads : N)
      (out : list byte) : outcome (list byte) :=
    match s with
    | [] => if (quad_pos =? 0)%N then Returned out else Raised BinasciiError
    | this_ch :: rest =>
        if decide (this_ch = BASE64_PAD) then
          if (2 <=? quad_pos)%N then
            if (4 <=? quad_pos + (pads + 1))%N then Returned out
            else a2b_loop rest quad_pos leftchar (pads + 1)%N out
          else a2b_loop rest quad_pos leftchar pads out
        else
          match a2b this_ch with
          | None => a2b_loop rest quad_pos leftchar pads out
          | Some v =>
              match quad_pos with
              | 0%N => a2b_loop rest 1%N v 0%N out
              | 1%N =>
                  a2b_loop rest 2%N (N.land v 15) 0%N
                    (out ++ [byte_of_N (N.lor (N.shiftl leftchar 2) (N.shiftr v 4))])
              | 2%N =>
                  a2b_loop rest 3%N (N.land v 3) 0%N
                    (out ++ [byte_of_N (N.lor (N.shiftl leftchar 4) (N.shiftr v 2))])
              | _ =>
                  a2b_loop rest 0%N 0%N 0%N
                    (out ++ [byte_of_N (N.lor (N.shiftl leftchar 6) v)])
              end
          end
    end.

Definition a2b_base64 (s : list byte) : outcome (list byte) :=
    a2b_loop s 0 0 0 [].

Definition is_ascii (b : byte) : bool := (Byte.to_N b <? 128)%N.

  (** [base64.b64encode(s)]. *)
Definition b64encode (s : list byte) : list byte := b2a_base64 s.

  (** [base64.b64decode(s)] for a [str] argument: the string is first encoded
      as ASCII ([ValueError] when it is not), then handed to
      [binascii.a2b_base64]. *)
Definition b64decode (s : string) : outcome (list byte) :=
    let raw := String.list_byte_of_string s in
    if forallb is_ascii raw then a2b_base64 raw else Raised ValueError.

End Base64.

(* ===================================================================== *)
(** ** The cryptographic provider                                         *)
(* ===================================================================== *)

(** The [cryptography] package is taken as an interface: RSA-PSS
    (MGF1-SHA256, maximal salt), RSA-OAEP (MGF1-SHA256, SHA-256, no label),
    AES-GCM and the PEM serialisation. The random salt and seed that the
    package draws are explicit arguments. The laws are the functional
    correctness of the schemes. *)
Class Provider := {
  RSAPrivateKey : Type;
  RSAPublicKey : Type;
  public_of : RSAPrivateKey → RSAPublicKey;
  (** [sk.sign(message, PSS, SHA256)] with the drawn salt. *)
  pss_sign : RSAPrivateKey → list byte → list byte → list byte;
  (** [pk.verify(signature, message, PSS, SHA256)]: [false] stands for
      [InvalidSignature]. *)
  pss_verify : RSAPublicKey → list byte → list byte → bool;
  pss_correct : ∀ sk salt m,
    pss_verify (public_of sk) (pss_sign sk salt m) m = true;
  (** [pk.encrypt(m, OAEP)] with the drawn seed; [None] is the [ValueError]
      of a message too long for the modulus. *)
  oaep_encrypt : RSAPublicKey → list byte → list byte → option (list byte);
  (** [sk.decrypt(c, OAEP)]; [None] is the [ValueError] of a failed
      decryption. *)
  oaep_decrypt : RSAPrivateKey → list byte → option (list byte);
  oaep_correct : ∀ sk seed m c,
    oaep_encrypt (public_of sk) seed m = Some c → oaep_decrypt sk c = Some m;
  (** AES-GCM as a stream: the ciphertext the encryptor's [update] returns,
      the plaintext the decryptor's [update] returns, and the tag that
      [finalize] computes on the encryptor. *)
  gcm_encrypt : list byte → list byte → list byte → list byte;
  gcm_decrypt : list byte → list byte → list byte → list byte;
  gcm_tag : list byte → list byte → list byte → list byte;
  gcm_correct : ∀ key iv p, gcm_decrypt key iv (gcm_encrypt key iv p) = p;
  (** [public_bytes(PEM, SubjectPublicKeyInfo)]. *)
  public_bytes : RSAPublicKey → list byte;
  (** [hashlib.sha256(b).hexdigest()]. *)
  sha256_hexdigest : list byte → string;
}.

(* ===================================================================== *)
(** ** [src/utils/crypto.py]                                              *)
(* ===================================================================== *)

Module Crypto.
Section crypto.
Context `{Provider}.

Definition generate_fingerprint (pk : RSAPublicKey) : string :=
      sha256_hexdigest (public_bytes pk).

Definition export_public_key (pk : RSAPublicKey) : string :=
      decode (public_bytes pk).

    (** The bytes that are signed and verified: [message.encode("utf-8") +
        str(counter).encode("utf-8")]. *)
Definition message_bytes (message : string) (counter : Z) : list byte :=
      encode message ++ encode (str_of_int counter).

Definition sign_message (salt : list byte) (message : string) (counter : Z)
        (sk : RSAPrivateKey) : string :=
      let signature := pss_sign sk salt (message_bytes message counter) in
      decode (Base64.b64encode signature).

    (** [InvalidSignature] is the only exception caught; an error of
        [b64decode] propagates. *)
Definition verify_signature (pk : RSAPublicKey) (signature : string)
        (message : string) (counter : Z) : outcome bool :=
      let message_bytes := message_bytes message counter in
      raw ← Base64.b64decode signature;
      if pss_verify pk raw message_bytes then mret true else mret false.
End crypto.
End Crypto.

(* ===================================================================== *)
(** ** Links and the environment                                          *)
(* ===================================================================== *)

(** A websocket object. The server tells the two classes apart with
    [isinstance]: [ServerConnection] is a link accepted by the listening
    socket, [ClientProtocol] a link the server dialled itself. *)
Inductive websocket :=
| ServerConnection (id : nat)
| ClientProtocol (id : nat).

#[global] Instance websocket_eq_dec : EqDecision websocket.
Proof. solve_decision. Defined.

#[global] Instance websocket_countable : Countable websocket :=
  inj_countable'
    (λ w, match w with ServerConnection n => inl n | ClientProtocol n => inr n end)
    (λ x, match x with inl n => ServerConnection n | inr n => ClientProtocol n end)
    (λ w, match w with ServerConnection _ | ClientProtocol _ => eq_refl end).

Definition is_ServerConnection (w : websocket) : bool :=
  match w with ServerConnection _ => true | ClientProtocol _ => false end.

(** What the code obtains from outside: the [json] module, the state of the
    links and the random bytes drawn while signing. A handler is run
    without another task in between, against a fixed state of the links;
    the one place where the source lets other tasks run between a test and
    the write that rests on it, the [await] of [websockets.connect] in
    [connect_to_neighbour], is modelled in two halves. *)
Class World := {
  json_dumps : json → string;
  (** [None] when [json.loads] raises, and then [json_loads_error] says
      which error. A frame is the text of a text frame or the bytes of a
      binary one. *)
  json_loads : string → option json;
  json_loads_error : string → loads_error;
  (** Whether [websocket.send] succeeds on the link; otherwise it raises
      [ConnectionClosed]. *)
  alive : websocket → bool;
  (** [websockets.connect("ws://" + url)], called anew at every attempt:
      the first argument is the number of calls made before this one.
      [None] when it raises. *)
  dial : nat → string → option websocket;
  (** [websocket.recv()] on a link that answers or is closed: [None] when
      it raises [ConnectionClosed]. A peer that stays silent keeps the
      call waiting, without a timeout; such a link is outside the
      model. *)
  recv : websocket → option string;
  (** The PSS salt drawn for the signature with the given counter. *)
  pss_salt : Z → list byte;
}.

(* ===================================================================== *)
(** ** [message.py]                                                       *)
(* ===================================================================== *)

Module Message.

  (** The values the attributes [iv] and [encrypted_content] take. *)
Inductive pyval :=
  | PNone
  | PBytes (b : list byte)
  | PStr (s : string).

Section message.
Context `{Provider} `{World}.

    (** The attributes of a [Message]. [private_key] is read by
        [decrypt_key] but never assigned by the class: [None] stands for
        the missing attribute. *)
Record Message := {
      content : string;
      encrypted_content : pyval;
      participants : list string;
      iv : pyval;
      symm_keys : list string;
      counter : Z;
      message_type : string;
      private_key : option RSAPrivateKey;
    }.

    (** [Message(content)]. *)
Definition init (content : string) : Message :=
      {| content := content; encrypted_content := PNone; participants := [];
         iv := PNone; symm_keys := []; counter := 0; message_type := "chat";
         private_key := None |}.

    (** [algorithms.AES(key)]: the key is 128, 192 or 256 bits long. *)
Definition AES (key : list byte) : outcome (list byte) :=
      if bool_decide (length key ∈ [16; 24; 32]%nat) then Returned key
      else Raised ValueError.

    (** [modes.GCM(iv)]: the initialisation vector is a bytes object of 8 to
        128 bytes. *)
Definition GCM (iv : pyval) : outcome (list byte) :=
      match iv with
      | PBytes b =>
          if bool_decide (8 ≤ length b ≤ 128)%nat then Returned b
          else Raised ValueError
      | _ => Raised TypeError
      end.

    (** [decryptor.finalize()] of a GCM decryptor: without a tag it raises
        [ValueError]; with one it checks it. *)
Definition decryptor_finalize (key iv ciphertext : list byte)
        (tag : option (list byte)) : outcome (list byte) :=
      match tag with
      | None => Raised ValueError
      | Some t =>
          if bool_decide (t = gcm_tag key iv ciphertext) then Returned []
          else Raised InvalidTag
      end.

    (** [x.encode()]: only [str] has the method. *)
Definition py_encode (x : pyval) : outcome (list byte) :=
      match x with
      | PStr s => Returned (encode s)
      | _ => Raised AttributeError
      end.

Definition encrypt_key (receiver_public_key : RSAPublicKey)
        (seed aes_key : list byte) : outcome string :=
      match oaep_encrypt receiver_public_key seed aes_key with
      | Some encrypted_key => Returned (decode (Base64.b64encode encrypted_key))
      | None => Raised ValueError
      end.

    (** [sk.decrypt] takes bytes. *)
Definition decrypt_key (aesKey : pyval) : M Message (list byte) :=
      self ← get_state;
      match private_key self with
      | None => raise AttributeError
      | Some sk =>
          match aesKey with
          | PBytes c =>
              match oaep_decrypt sk c with
              | Some k => mret k
              | None => raise ValueError
              end
          | _ => raise TypeError
          end
      end.

Definition set_iv (v : pyval) (m : Message) : Message :=
      {| content := content m; encrypted_content := encrypted_content m;
         participants := participants m; iv := v; symm_keys := symm_keys m;
         counter := counter m; message_type := message_type m;
         private_key := private_key m |}.

Definition set_encrypted_content (v : pyval) (m : Message) : Message :=
      {| content := content m; encrypted_content := v;
         participants := participants m; iv := iv m; symm_keys := symm_keys m;
         counter := counter m; message_type := message_type m;
         private_key := private_key m |}.

Definition append_symm_key (k : string) (m : Message) : Message :=
      {| content := content m; encrypted_content := encrypted_content m;
         participants := participants m; iv := iv m;
         symm_keys := symm_keys m ++ [k];
         counter := counter m; message_type := message_type m;
         private_key := private_key m |}.

Fixpoint wrap_for (receivers : list (RSAPublicKey * list byte))
        (aes_key : list byte) : M Message unit :=
      match receivers with
      | [] => mret tt
      | (public_key, seed) :: rest =>
          encrypted_aes_key ← lift (encrypt_key public_key seed aes_key);
          modify (append_symm_key encrypted_aes_key);;
          wrap_for rest aes_key
      end.

    (** [urandom16] and [urandom32] are the results of [os.urandom(16)] and
        [os.urandom(32)]; every receiver key comes with the seed OAEP draws
        for it. The tag of the encryptor is not read. *)
Definition encrypt_chat_message (urandom16 urandom32 : list byte)
        (receiver_public_keys : list (RSAPublicKey * list byte)) : M Message unit :=
      modify (set_iv (PBytes urandom16));;
      let aes_key := urandom32 in
      self ← get_state;
      let chat_data :=
        JObj [("participants", JList (JStr <$> participants self));
              ("message", JStr (content self))] in
      let chat_data_json := encode (json_dumps chat_data) in
      key ← lift (AES aes_key);
      nonce ← lift (GCM (iv self));
      modify (set_encrypted_content
                (PBytes (gcm_encrypt key nonce chat_data_json ++ [])));;
      wrap_for receiver_public_keys aes_key.

Definition decrypt_chat_message (key : list byte) : M Message string :=
      self ← get_state;
      key ← lift (AES key);
      nonce ← lift (GCM (iv self));
      data ← lift (py_encode (encrypted_content self));
      let head := gcm_decrypt key nonce data in
      tail ← lift (decryptor_finalize key nonce data None);
      mret (decode (head ++ tail)).
End message.
End Message.

(* ===================================================================== *)
(** ** [client.py]                                                        *)
(* ===================================================================== *)

Module Client.
Section client.
Context `{Provider} `{World}.

Record Client := {
      counter : Z;
      server_url : string;
      private_key : RSAPrivateKey;
      public_key : RSAPublicKey;
      fingerprint : string;
      (** [self.signature], assigned by [sign_message]. *)
      signature : option string;
    }.

Definition generate_fingerprint (public_key : RSAPublicKey) : string :=
      sha256_hexdigest (public_bytes public_key).

    (** [Client(server_url)], with the generated key. *)
Definition init (server_url : string) (generated : RSAPrivateKey) : Client :=
      {| counter := 0; server_url := server_url; private_key := generated;
         public_key := public_of generated;
         fingerprint := generate_fingerprint (public_of generated);
         signature := None |}.

Definition export_public_key (self : Client) : list byte :=
      public_bytes (public_key self).

Definition set_signature (sig : string) (c : Client) : Client :=
      {| counter := counter c; server_url := server_url c;
         private_key := private_key c; public_key := public_key c;
         fingerprint := fingerprint c; signature := Some sig |}.

    (** [sign_message(self, message)] signs the bytes it is given. *)
Definition sign_message (salt : list byte) (message : list byte)
        : M Client string :=
      self ← get_state;
      let signature := pss_sign (private_key self) salt message in
      let encoded := decode (Base64.b64encode signature) in
      modify (set_signature encoded);;
      mret encoded.

    (** [send_message]: the result is the object passed to
        [websocket.send(json.dumps(...))], [None] when nothing is sent.
        [prepare_chat_message] has no parameter [chat_type], so the two
        calls that pass it raise [TypeError]. *)
Definition send_message (salt : list byte) (message_content : string)
        (chat_type : string) : M Client (option json) :=
      self ← get_state;
      message_data ←
        (if bool_decide (chat_type = "hello") then
           mret (Some (JObj [("type", JStr "hello");
                             ("public_key", JStr (decode (export_public_key self)))]))
         else if bool_decide (chat_type = "chat") then raise TypeError
         else if bool_decide (chat_type = "group_chat") then raise TypeError
         else if bool_decide (chat_type = "public_chat") then
           mret (Some (JObj [("type", JStr "public_chat");
                             ("sender", JStr (fingerprint self));
                             ("message", JStr message_content)]))
         else mret None);
      match message_data with
      | None => mret None
      | Some message_data =>
          let chat_message_bytes := encode (json_dumps message_data) in
          signature ← sign_message salt chat_message_bytes;
          mret (Some (JObj [("type", JStr "signed_data");
                            ("data", message_data);
                            ("counter", JInt (counter self));
                            ("signature", JStr signature)]))
      end.
End client.

Section inbox.
Context `{World}.

(** [for item in v]: a list gives its items, a dictionary its keys, a string
    its characters (one item per byte in this representation); other
    values are not iterable. *)
Definition py_iter (v : json) : outcome (list json) :=
  match v with
  | JList l => Returned l
  | JObj kvs => Returned (JStr <$> dict_keys kvs)
  | JStr text =>
      Returned ((λ c, JStr (String c EmptyString)) <$> String.list_ascii_of_string text)
  | _ => Raised TypeError
  end.

(** [len(v)], of which only the error matters to the caller. *)
Definition py_len (v : json) : outcome unit :=
  match v with
  | JList _ | JObj _ | JStr _ => Returned tt
  | _ => Raised TypeError
  end.

(** The keys of [online_users] are strings in the model, as the addresses a
    server lists are. Python raises [TypeError] for an address that is a
    list or a dictionary and stores a number, a boolean or [None] as a
    key; these addresses are outside the model, which stops with
    [TypeError] on all of them. *)
Definition as_address (v : json) : outcome string :=
  match v with
  | JStr address => Returned address
  | _ => Raised TypeError
  end.

(** The loop of [handle_client_list] over the items of [servers]; the state
    is [self.online_users]. The text of the log is left out. *)
Fixpoint store_servers (items : list json) : M (list (string * json)) unit :=
  match items with
  | [] => mret tt
  | item :: rest =>
      server_address ← lift (py_getitem item "address");
      clients ← lift (py_getitem item "clients");
      address ← lift (as_address server_address);
      modify (λ online_users, dict_set online_users address clients);;
      lift (py_len clients);;
      store_servers rest
  end.

Definition handle_client_list (data : json) : M (list (string * json)) unit :=
  servers ← lift (py_get data "servers");
  if is_none servers then mret tt
  else
    items ← lift (py_iter servers);
    store_servers items.

(** [Client.handle_message(data)] on a decoded frame. *)
Definition handle_message (data : json) : M (list (string * json)) unit :=
  message_type ← lift (py_get data "type");
  if is_str message_type "client_list" then handle_client_list data
  else mret tt.

(** [Client.listen]: the frames are handled in order; any exception ends
    the loop and is logged, not raised. *)
Fixpoint listen (frames : list string) : M (list (string * json)) unit :=
  match frames with
  | [] => mret tt
  | message :: rest =>
      handled ←
        try_except
          (match json_loads message with
           | None => raise (loads_exn (json_loads_error message))
           | Some data => handle_message data;; mret true
           end)
          any_exception
          (λ _, mret false);
      if (handled : bool) then listen rest else mret tt
  end.

(** [request_client_list]: the object put on the link. *)
Definition request_client_list : json :=
  JObj [("type", JStr "client_list_request")].
End inbox.
End Client.

(* ===================================================================== *)
(** ** The state of a server                                              *)
(* ===================================================================== *)

Module State.
Section state.
Context `{Provider}.

    (** The attributes of the neighbourhood object. *)
Record Neighbourhood := {
      server_url : string;
      (** [{server_url: clients}] *)
      clients_across_servers : list (string * json);
      (** [{websocket: neighbour URL}] *)
      active_servers : list (websocket * string);
    }.

    (** The attributes of [Server]; [counter] and [private_key] are the two
        attributes of the server that [send_server_hello] reads. *)
Record Server := {
      url : string;
      neighbour_servers : list string;
      neighbour_websockets : gmap websocket string;
      neighbourhood : Neighbourhood;
      (** [{websocket: {"public_key": ..., "fingerprint": ...}}] *)
      clients : list (websocket * list (string * json));
      counter : Z;
      private_key : RSAPrivateKey;
    }.

    (** A server together with what it has put on its links, the pairs of a
        link and the object serialised onto it, oldest first, and the number
        of calls of [websockets.connect] it has made. *)
Record t := {
      self : Server;
      sent : list (websocket * json);
      dials : nat;
    }.

Definition with_neighbourhood (f : Neighbourhood → Neighbourhood)
        (s : Server) : Server :=
      {| url := url s; neighbour_servers := neighbour_servers s;
         neighbour_websockets := neighbour_websockets s;
         neighbourhood := f (neighbourhood s);
         clients := clients s; counter := counter s;
         private_key := private_key s |}.

Definition with_clients_across_servers
        (f : list (string * json) → list (string * json))
        (n : Neighbourhood) : Neighbourhood :=
      {| server_url := server_url n;
         clients_across_servers := f (clients_across_servers n);
         active_servers := active_servers n |}.

Definition with_active_servers
        (f : list (websocket * string) → list (websocket * string))
        (n : Neighbourhood) : Neighbourhood :=
      {| server_url := server_url n;
         clients_across_servers := clients_across_servers n;
         active_servers := f (active_servers n) |}.

Definition with_neighbour_websockets
        (f : gmap websocket string → gmap websocket string)
        (s : Server) : Server :=
      {| url := url s; neighbour_servers := neighbour_servers s;
         neighbour_websockets := f (neighbour_websockets s);
         neighbourhood := neighbourhood s;
         clients := clients s; counter := counter s;
         private_key := private_key s |}.

Definition with_clients
        (f : list (websocket * list (string * json))
             → list (websocket * list (string * json)))
        (s : Server) : Server :=
      {| url := url s; neighbour_servers := neighbour_servers s;
         neighbour_websockets := neighbour_websockets s;
         neighbourhood := neighbourhood s;
         clients := f (clients s); counter := counter s;
         private_key := private_key s |}.

Definition with_neighbour_servers (f : list string → list string)
        (s : Server) : Server :=
      {| url := url s; neighbour_servers := f (neighbour_servers s);
         neighbour_websockets := neighbour_websockets s;
         neighbourhood := neighbourhood s;
         clients := clients s; counter := counter s;
         private_key := private_key s |}.

Definition with_counter (f : Z → Z) (s : Server) : Server :=
      {| url := url s; neighbour_servers := neighbour_servers s;
         neighbour_websockets := neighbour_websockets s;
         neighbourhood := neighbourhood s;
         clients := clients s; counter := f (counter s);
         private_key := private_key s |}.

Definition with_self (f : Server → Server) (st : t) : t :=
      {| self := f (self st); sent := sent st; dials := dials st |}.

Definition record_send (ws : websocket) (payload : json) (st : t) : t :=
      {| self := self st; sent := sent st ++ [(ws, payload)];
         dials := dials st |}.

Definition count_dial (st : t) : t :=
      {| self := self st; sent := sent st; dials := S (dials st) |}.

    (** [await websocket.send(json.dumps(message))]. *)
Definition ws_send `{World} (ws : websocket) (message : json) : M t unit :=
      λ st, if alive ws then (Returned tt, record_send ws message st)
            else (Raised ConnectionClosed, st).
End state.
End State.
Import State.

(* ===================================================================== *)
(** ** [src/server_as_client.py]                                          *)
(* ===================================================================== *)

Module Neighbourhood.
Section neighbourhood.
Context `{Provider} `{World}.

    (** [ServerAsClient(server)], the value of [self.neighbourhood]. *)
Definition init (server_url : string) : State.Neighbourhood :=
      {| server_url := server_url; clients_across_servers := [];
         active_servers := [] |}.

Definition find_active_server (n : State.Neighbourhood)
        (server_url : string) : option websocket :=
      fst <$> (snd <$> list_find (λ item, item.2 = server_url) (active_servers n)).

Definition remove_active_server (server_url : string) : M State.t unit :=
      st ← get_state;
      match find_active_server (neighbourhood (self st)) server_url with
      | None => mret tt
      | Some websocket =>
          modify (with_self (with_neighbourhood
                    (with_active_servers (λ d, dict_pop d websocket))))
      end.

Definition save_clients (server_url : string) (client_list : json)
        : M State.t unit :=
      modify (with_self (with_neighbourhood
                (with_clients_across_servers
                   (λ d, dict_set d server_url client_list)))).

Definition caught_by_send_request (e : exn) : bool :=
      bool_decide (e = ConnectionClosed ∨ e = TypeError).

    (** The result is the response, [JNull] for [None]. *)
Definition send_request (receiver_websocket : websocket) (message : json)
        (wait_for_response : bool) : M State.t json :=
      try_except
        (ws_send receiver_websocket message;;
         if wait_for_response then
           match recv receiver_websocket with
           | None => raise ConnectionClosed
           | Some response =>
               match json_loads response with
               | Some response => mret response
               | None => raise (loads_exn (json_loads_error response))
               end
           end
         else mret JNull)
        caught_by_send_request
        (λ _, mret JNull).

Fixpoint broadcast_loop (websockets : list websocket) (message : json)
        (wait_for_response : bool) (responses : list (websocket * json))
        : M State.t (list (websocket * json)) :=
      match websockets with
      | [] => mret responses
      | websocket :: rest =>
          response ← send_request websocket message wait_for_response;
          broadcast_loop rest message wait_for_response
            (dict_set responses websocket response)
      end.

    (** [send_request] leaves [active_servers] alone, so the loop runs over
        the keys the dictionary has when it starts. *)
Definition broadcast_request (message : json) (wait_for_response : bool)
        : M State.t (list (websocket * json)) :=
      st ← get_state;
      broadcast_loop (dict_keys (active_servers (neighbourhood (self st))))
        message wait_for_response [].

Definition send_server_hello (websocket : websocket) : M State.t unit :=
      st ← get_state;
      let data := JObj [("type", JStr "server_hello");
                        ("sender", JStr (server_url (neighbourhood (self st))))] in
      modify (with_self (with_counter (λ c, c + 1)%Z));;
      st ← get_state;
      let counter := counter (self st) in
      let request :=
        JObj [("type", JStr "signed_data");
              ("data", JStr (json_dumps data));
              ("counter", JInt counter);
              ("signature",
               JStr (Crypto.sign_message (pss_salt counter) (json_dumps data)
                       counter (private_key (self st))))] in
      send_request websocket request false;;
      mret tt.

Definition add_active_server (server_url : string) (websocket : websocket)
        : M State.t unit :=
      modify (with_self (with_neighbourhood
                (with_active_servers (λ d, dict_set d websocket server_url))));;
      send_server_hello websocket.
End neighbourhood.
End Neighbourhood.

(* ===================================================================== *)
(** ** [server.py]                                                        *)
(* ===================================================================== *)

Module Server.
Section server.
Context `{Provider} `{World}.

    (** [Server(url)]; the key and the counter are those of the server
        identity. *)
Definition init (url : string) (sk : RSAPrivateKey) : State.Server :=
      {| url := url; neighbour_servers := []; neighbour_websockets := ∅;
         neighbourhood := Neighbourhood.init url; clients := [];
         counter := 0; private_key := sk |}.

    (** URLs are strings in the model. The source stores whatever value
        the sender of a [server_hello] is; a sender that is no string is
        outside the model, which stops there with [TypeError], and the
        properties of the handlers are stated for the frames that name a
        URL by a string ([names_url]). *)
Definition as_url (v : json) : outcome string :=
      match v with
      | JStr s => Returned s
      | _ => Raised TypeError
      end.

    (** The part of [connect_to_neighbour] that follows the [await] of
        [websockets.connect], given what the call has answered. *)
Definition connect_after_dial (neighbour_url : string)
        (answer : option websocket) : M State.t unit :=
      try_except
        (match answer with
         | None => raise OSError
         | Some websocket => Neighbourhood.add_active_server neighbour_url websocket
         end)
        any_exception
        (λ _, mret tt).

    (** The guard of [connect_to_neighbour]: whether the call returns at
        once. *)
Definition already_active (neighbour_url : string) (st : State.t) : bool :=
      bool_decide
        (neighbour_url ∈ dict_values (active_servers (neighbourhood (self st)))).

    (** [connect_to_neighbour] with no other task between the guard and
        the end of the call. *)
Definition connect_to_neighbour (neighbour_url : string) : M State.t unit :=
      st ← get_state;
      if already_active neighbour_url st then mret tt
      else
        modify count_dial;;
        connect_after_dial neighbour_url (dial (dials st) neighbour_url).

Definition send_response (websocket : websocket) (message : json)
        : M State.t unit :=
      try_except
        (ws_send websocket message)
        any_exception
        (λ _,
           st ← get_state;
           if dict_contains (clients (self st)) websocket then
             modify (with_self (with_clients (λ d, dict_pop d websocket)))
           else
             match neighbour_websockets (self st) !! websocket with
             | Some neighbour_url =>
                 Neighbourhood.remove_active_server neighbour_url
             | None => mret tt
             end).

Definition receive_server_hello (websocket : websocket) (data : json)
        : M State.t unit :=
      sender ← lift (py_getitem data "sender");
      neighbour_url ← lift (as_url sender);
      modify (with_self (with_neighbour_websockets <[websocket := neighbour_url]>));;
      connect_to_neighbour neighbour_url.

Definition receive_chat (websocket : websocket) (message : json)
        : M State.t unit :=
      mret tt.

Fixpoint public_keys_of (records : list (list (string * json)))
        : outcome (list json) :=
      match records with
      | [] => Returned []
      | client :: rest =>
          key ← dict_getitem client "public_key";
          keys ← public_keys_of rest;
          mret (key :: keys)
      end.

Definition send_client_update (websocket : option websocket)
        : M State.t unit :=
      st ← get_state;
      public_keys ← lift (public_keys_of (dict_values (clients (self st))));
      let response := JObj [("type", JStr "client_update");
                            ("clients", JList public_keys)] in
      match websocket with
      | None => Neighbourhood.broadcast_request response false;; mret tt
      | Some websocket =>
          match neighbour_websockets (self st) !! websocket with
          | None => raise KeyError
          | Some neighbour_url => send_response websocket response
          end
      end.

Definition receive_hello (websocket : websocket) (message : json)
        : M State.t unit :=
      client_public_key ← lift (py_getitem message "public_key");
      modify (with_self (with_clients
                (λ d, dict_set d websocket [("public_key", client_public_key)])));;
      send_client_update None.

    (** [for client in self.clients]: the iterator raises [RuntimeError] as
        soon as it is advanced after the dictionary has changed size, which
        is what the [pop] in [send_response] does to it. *)
Fixpoint deliver_loop (remaining : list websocket) (size : nat)
        (websocket : websocket) (request : json) : M State.t unit :=
      st ← get_state;
      if bool_decide (length (clients (self st)) ≠ size) then raise RuntimeError
      else
        match remaining with
        | [] => mret tt
        | client :: rest =>
            (if bool_decide (client = websocket) then mret tt
             else send_response client request);;
            deliver_loop rest size websocket request
        end.

    (** [bool(d)] for a dictionary. *)
Definition truthy {K V} (d : option (list (K * V))) : bool :=
      match d with
      | Some (_ :: _) => true
      | _ => false
      end.

Definition receive_public_chat (websocket : websocket) (request : json)
        : M State.t unit :=
      data ← lift (py_getitem request "data");
      fingerprint ← lift (py_get data "sender");
      message ← lift (py_get data "message");
      if is_none fingerprint || is_none message then mret tt
      else
        st ← get_state;
        let sender := dict_get (clients (self st)) websocket in
        let from_neighbour :=
          bool_decide (is_Some (neighbour_websockets (self st) !! websocket)) in
        match from_neighbour, sender with
        | false, None => mret tt
        | _, _ =>
            (** [sender["fingerprint"] = fingerprint] writes to the record
                held in [self.clients]. *)
            let sender :=
              if from_neighbour then sender
              else (λ record, dict_set record "fingerprint" fingerprint) <$> sender in
            (match from_neighbour, sender with
             | false, Some record =>
                 modify (with_self (with_clients
                           (λ d, dict_set d websocket record)))
             | _, _ => mret tt
             end);;
            st ← get_state;
            deliver_loop (dict_keys (clients (self st)))
              (length (clients (self st))) websocket request;;
            if truthy sender then
              Neighbourhood.broadcast_request request false;; mret tt
            else mret tt
        end.

Definition send_client_list (websocket : websocket) : M State.t unit :=
      st ← get_state;
      let all_clients := clients_across_servers (neighbourhood (self st)) in
      let servers :=
        (λ item, JObj [("address", JStr item.1); ("clients", item.2)])
          <$> all_clients in
      let response := JObj [("type", JStr "client_list");
                            ("servers", JList servers)] in
      send_response websocket response.

Definition receive_client_update (websocket : websocket) (message : json)
        : M State.t unit :=
      clients ← lift (py_getitem message "clients");
      st ← get_state;
      neighbour_url ←
        (if is_ServerConnection websocket then
           match neighbour_websockets (self st) !! websocket with
           | Some neighbour_url => mret neighbour_url
           | None => raise KeyError
           end
         else lift (dict_getitem (active_servers (neighbourhood (self st)))
                      websocket));
      Neighbourhood.save_clients neighbour_url clients.

Fixpoint ingest_responses (responses : list (websocket * json))
        : M State.t unit :=
      match responses with
      | [] => mret tt
      | (websocket, message) :: rest =>
          receive_client_update websocket message;;
          ingest_responses rest
      end.

Definition request_client_update : M State.t unit :=
      let request := JObj [("type", JStr "client_update_request")] in
      responses ← Neighbourhood.broadcast_request request true;
      ingest_responses responses.

    (** [if isinstance(data, str): data = json.loads(data)] under
        [except json.JSONDecodeError]: the data stay a string when they are
        no JSON, and no other error of [json.loads] is caught. *)
Definition parse_data (data : json) : outcome json :=
      match data with
      | JStr text =>
          match json_loads text with
          | Some parsed => Returned parsed
          | None =>
              match json_loads_error text with
              | NotJSON => Returned data
              | error => Raised (loads_exn error)
              end
          end
      | _ => Returned data
      end.

    (** [handle_message(websocket, message)] on a received frame. The
        counter and the signature of a [signed_data] envelope are read and
        not used. *)
Definition handle_message (websocket : websocket) (frame : string)
        : M State.t unit :=
      match json_loads frame with
      | None => raise (loads_exn (json_loads_error frame))
      | Some message =>
          message_type ← lift (py_get message "type");
          if is_str message_type "client_list_request" then
            send_client_list websocket
          else if is_str message_type "client_update_request" then
            send_client_update (Some websocket)
          else if is_str message_type "client_update" then
            receive_client_update websocket message
          else if is_str message_type "signed_data" then
            counter ← lift (py_get message "counter");
            signature ← lift (py_get message "signature");
            data ← lift (py_get message "data");
            if is_none data then mret tt
            else
              data ← lift (parse_data data);
              message_type ← lift (py_get data "type");
              if is_str message_type "chat" then receive_chat websocket message
              else if is_str message_type "hello" then receive_hello websocket data
              else if is_str message_type "public_chat" then
                receive_public_chat websocket message
              else if is_str message_type "server_hello" then
                receive_server_hello websocket data
              else mret tt
          else mret tt
      end.

    (** The loop of [add_neighbour_servers]: a URL is appended unless the
        list holds it already. *)
Fixpoint add_urls (server_urls current : list string) : list string :=
      match server_urls with
      | [] => current
      | url :: rest =>
          add_urls rest
            (if bool_decide (url ∈ current) then current else current ++ [url])
      end.

Definition add_neighbour_servers (server_urls : list string)
        : M State.t unit :=
      modify (with_self (with_neighbour_servers (add_urls server_urls))).

Fixpoint connect_each (urls : list string) : M State.t unit :=
      match urls with
      | [] => mret tt
      | neighbour_url :: rest =>
          connect_to_neighbour neighbour_url;;
          connect_each rest
      end.

    (** [connect_to_neighbour] leaves [neighbour_servers] alone, so the loop
        runs over the list as it is at the start. *)
Definition connect_to_neighbourhood : M State.t unit :=
      st ← get_state;
      connect_each (neighbour_servers (self st)).

    (** [start] after the listening socket is bound and before it waits for
        the socket to close. *)
Definition start : M State.t unit :=
      connect_to_neighbourhood;;
      request_client_update.

    (** [stop], up to the closing of the listening socket. *)
Definition stop : M State.t unit :=
      modify (with_self (with_clients (λ _, [])));;
      request_client_update.

    (** [listen(websocket)] on the frames the link delivers before it
        closes: [recv] then raises [ConnectionClosed] and the loop ends. An
        exception of [handle_message] other than [ConnectionClosed] leaves
        the loop. *)
Fixpoint listen (websocket : websocket) (frames : list string)
        : M State.t unit :=
      match frames with
      | [] => mret tt
      | message :: rest =>
          continue ←
            try_except
              (handle_message websocket message;; mret true)
              (λ e, bool_decide (e = ConnectionClosed))
              (λ _, mret false);
          if (continue : bool) then listen websocket rest else mret tt
      end.
End server.
End Server.

(* ===================================================================== *)
(** ** Predicates of the specification                                    *)
(* ===================================================================== *)

Module Spec.
Section spec.
Context `{Provider}.

    (** The roster of the specification is [clients_across_servers]. *)
Definition roster (st : State.t) : list (string * json) :=
      clients_across_servers (neighbourhood (self st)).

Definition local_clients (st : State.t)
        : list (websocket * list (string * json)) :=
      clients (self st).

Definition active (st : State.t) : list (websocket * string) :=
      active_servers (neighbourhood (self st)).

    (** The peer a link stands for, as [receive_client_update] resolves it. *)
Definition peer_of (st : State.t) (ws : websocket) : option string :=
      if is_ServerConnection ws then neighbour_websockets (self st) !! ws
      else dict_get (active st) ws.

    (** What has been put on link [w] in a trace. *)
Definition sends_to (w : websocket) (trace : list (websocket * json))
        : list json :=
      (filter (λ e, e.1 = w) trace).*2.

    (** The state after [roster[P] = client_list]. *)
Definition ingested (P : string) (client_list : json) (st : State.t)
        : State.t :=
      with_self (with_neighbourhood
        (with_clients_across_servers (λ d, dict_set d P client_list))) st.

    (** The state after [active_servers.pop(w)]. *)
Definition deactivated (w : websocket) (st : State.t) : State.t :=
      with_self (with_neighbourhood
        (with_active_servers (λ d, dict_pop d w))) st.

    (** Loop prevention as the specification words it: between [st] and
        [st'] nothing has been put on a link to a peer server. *)
Definition not_rebroadcast (st st' : State.t) : Prop :=
      ∀ w, w ∈ dict_keys (active st) →
           sends_to w (sent st') = sends_to w (sent st).


(** The elementary changes the handlers of the server make to its state:
    every handler is a sequence of them. The flag says whether the roster
    may be written. *)
Inductive step (ingest : bool) : State.t → State.t → Prop :=
| step_send w message st :
    step ingest st (record_send w message st)
| step_drop_client w st :
    step ingest st (with_self (with_clients (λ d, dict_pop d w)) st)
| step_deactivate w st :
    step ingest st (deactivated w st)
| step_register w key st :
    step ingest st (with_self (with_clients
                      (λ d, dict_set d w [("public_key", key)])) st)
| step_fingerprint w record fingerprint st :
    dict_get (local_clients st) w = Some record →
    step ingest st
      (with_self (with_clients
         (λ d, dict_set d w (dict_set record "fingerprint" fingerprint))) st)
| step_neighbour w url st :
    step ingest st (with_self (with_neighbour_websockets <[w := url]>) st)
| step_activate w url st :
    url ∉ dict_values (active st) →
    step ingest st (with_self (with_neighbourhood
                      (with_active_servers (λ d, dict_set d w url))) st)
| step_count st :
    step ingest st (with_self (with_counter (λ c, c + 1)%Z) st)
| step_forget_clients st :
    step ingest st (with_self (with_clients (λ _, [])) st)
| step_dial st :
    step ingest st (count_dial st)
| step_ingest w P client_list st :
    ingest = true →
    peer_of st w = Some P →
    step ingest st (ingested P client_list st).

(** The state a computation leaves is reached by such changes. *)
Definition moves {A} (ingest : bool) (m : M State.t A) (st : State.t) : Prop :=
  rtc (step ingest) st (m st).2.

(** Every record of [self.clients] has a [public_key]. *)
Definition clients_have_keys (st : State.t) : Prop :=
  Forall (λ record : list (string * json),
            is_Some (dict_get record "public_key"))
    (dict_values (local_clients st)).

(** No two active links stand for one URL. *)
Definition one_link_per_url (st : State.t) : Prop :=
  NoDup (dict_values (active st)).


(** A computation ends with an exception of [E] or returns. *)
Definition raises_only {A} (E : exn → Prop) (m : M State.t A)
    (st : State.t) : Prop :=
  ∀ e, (m st).1 = Raised e → E e.

(** What the server keeps from [st] to [st']: its identity, the links that
    have introduced themselves as neighbours and the URLs that have an
    entry in the roster; its counter has not gone back. *)
Definition keeps (st st' : State.t) : Prop :=
  url (self st') = url (self st)
  ∧ neighbour_servers (self st') = neighbour_servers (self st)
  ∧ private_key (self st') = private_key (self st)
  ∧ server_url (neighbourhood (self st')) = server_url (neighbourhood (self st))
  ∧ (counter (self st) ≤ counter (self st'))%Z
  ∧ (∀ w, is_Some (neighbour_websockets (self st) !! w) →
          is_Some (neighbour_websockets (self st') !! w))
  ∧ (∀ P, is_Some (dict_get (roster st) P) →
          is_Some (dict_get (roster st') P)).
End spec.

Section envelopes.
Context `{Provider} `{World}.

(** The envelope a client sends for the inner message [data]: the
    signature is made over the bytes of [json.dumps(data)] and nothing
    else. *)
Definition client_envelope (self : Client.Client) (salt : list byte)
    (data : json) : json :=
  JObj [("type", JStr "signed_data");
        ("data", data);
        ("counter", JInt (Client.counter self));
        ("signature",
         JStr (decode (Base64.b64encode
                         (pss_sign (Client.private_key self) salt
                            (encode (json_dumps data))))))].

(** The envelope of a [server_hello] with the given counter: the signature
    is the one of [sign_message], over [json.dumps(data) || counter]. *)
Definition server_hello_envelope (st : State.t) (counter : Z) : json :=
  let data := JObj [("type", JStr "server_hello");
                    ("sender", JStr (server_url (neighbourhood (self st))))] in
  JObj [("type", JStr "signed_data");
        ("data", JStr (json_dumps data));
        ("counter", JInt counter);
        ("signature",
         JStr (decode (Base64.b64encode
                         (pss_sign (private_key (self st)) (pss_salt counter)
                            (Crypto.message_bytes (json_dumps data) counter)))))].

(** The model keeps the URL of a neighbour as a string, where the source
    stores the sender of a [server_hello] as it comes. The two agree on the
    frames that name the sender of their [server_hello], if they hold one,
    by a string: the frames a server of this repository sends. *)
Definition names_url (frame : string) : bool :=
  match json_loads frame with
  | Some message =>
      match py_get message "data" ≫= Server.parse_data with
      | Returned data =>
          match py_get data "type", py_getitem data "sender" with
          | Returned message_type, Returned sender =>
              if is_str message_type "server_hello"
              then match sender with JStr _ => true | _ => false end
              else true
          | _, _ => true
          end
      | Raised _ => true
      end
  | None => true
  end.
End envelopes.
End Spec.
Import Spec.

(* ===================================================================== *)
(** ** A provider and worlds to run the code on                           *)
(* ===================================================================== *)

Module Fixture.

  (** A provider without any security: a key is a byte string, the
      signature of a message is the key followed by the message, and
      encryption is the identity. It satisfies the laws of [Provider] and a
      signature verifies for one message only. *)
Definition toy_sign (sk salt m : list byte) : list byte := (sk ++ m)%list.
Definition toy_verify (pk signature m : list byte) : bool :=
    bool_decide (signature = (pk ++ m)%list).

#[export] Instance toy : Provider := {|
    RSAPrivateKey := list byte;
    RSAPublicKey := list byte;
    public_of := λ sk, sk;
    pss_sign := toy_sign;
    pss_verify := toy_verify;
    pss_correct := λ sk salt m, bool_decide_eq_true_2 _ eq_refl;
    oaep_encrypt := λ pk seed m, Some m;
    oaep_decrypt := λ sk c, Some c;
    oaep_correct := λ sk seed m c (E : Some m = Some c),
      eq_sym (f_equal Some (Some_inj _ _ E)) ;
    gcm_encrypt := λ key iv p, p;
    gcm_decrypt := λ key iv c, c;
    gcm_tag := λ key iv c, take 16 key;
    gcm_correct := λ key iv p, eq_refl;
    public_bytes := λ pk, pk;
    sha256_hexdigest := λ b, decode b;
  |}.

  (** A provider that signs a digest of the message, as RSA-PSS signs its
      hash: the digest is the sum of the bytes modulo 256, and the signature
      is the key followed by the digest. It satisfies the laws of
      [Provider], and two messages with one digest share their
      signatures. *)
Definition checksum (m : list byte) : list byte :=
    [Base64.byte_of_N (foldr (λ b sum, Byte.to_N b + sum)%N 0%N m)].
Definition checksum_sign (sk salt m : list byte) : list byte :=
    (sk ++ checksum m)%list.
Definition checksum_verify (pk signature m : list byte) : bool :=
    bool_decide (signature = (pk ++ checksum m)%list).

Definition digesting : Provider := {|
    RSAPrivateKey := list byte;
    RSAPublicKey := list byte;
    public_of := λ sk, sk;
    pss_sign := checksum_sign;
    pss_verify := checksum_verify;
    pss_correct := λ sk salt m, bool_decide_eq_true_2 _ eq_refl;
    oaep_encrypt := λ pk seed m, Some m;
    oaep_decrypt := λ sk c, Some c;
    oaep_correct := λ sk seed m c (E : Some m = Some c),
      eq_sym (f_equal Some (Some_inj _ _ E)) ;
    gcm_encrypt := λ key iv p, p;
    gcm_decrypt := λ key iv c, c;
    gcm_tag := λ key iv c, take 16 key;
    gcm_correct := λ key iv p, eq_refl;
    public_bytes := λ pk, pk;
    sha256_hexdigest := λ b, decode b;
  |}.

Definition quote : string := String (Ascii.ascii_of_nat 34) EmptyString.

  (** A serialiser in the layout of [json.dumps] that does not escape
      strings; enough for the frames below. *)
Fixpoint dumps (v : json) : string :=
    match v with
    | JNull => "null"
    | JBool true => "true"
    | JBool false => "false"
    | JInt z => str_of_int z
    | JStr s => quote +:+ s +:+ quote
    | JList l => "[" +:+ String.concat ", " (map dumps l) +:+ "]"
    | JObj kvs =>
        "{" +:+ String.concat ", "
                  (map (λ kv, quote +:+ kv.1 +:+ quote +:+ ": " +:+ dumps kv.2) kvs)
        +:+ "}"
    end.

  (** A world in which the frames of [table] parse to the given values. *)
Definition world (table : list (string * json)) (alive : websocket → bool)
      (dial : string → option websocket) : World :=
    {| json_dumps := dumps;
       json_loads := dict_get table;
       json_loads_error := λ _, NotJSON;
       alive := alive;
       dial := λ _, dial;
       recv := λ _, None;
       pss_salt := λ _, [] |}.

Definition signed_data (data : json) (counter : Z) (signature : string)
      : json :=
    JObj [("type", JStr "signed_data"); ("data", data);
          ("counter", JInt counter); ("signature", JStr signature)].

Definition hello (pem : string) : json :=
    JObj [("type", JStr "hello"); ("public_key", JStr pem)].

Definition public_chat (sender message : string) : json :=
    JObj [("type", JStr "public_chat"); ("sender", JStr sender);
          ("message", JStr message)].

Definition server_hello (sender : string) : json :=
    JObj [("type", JStr "server_hello"); ("sender", JStr sender)].

  (** Frames are looked up by their text. *)
Definition frames (values : list json) : list (string * json) :=
    (λ v, (dumps v, v)) <$> values.

Definition start (url : string) : State.t :=
    {| self := Server.init url (encode "server-key"); sent := [];
       dials := 0 |}.

Definition everyone (w : websocket) : bool := true.
Definition nobody (url : string) : option websocket := None.

  (** The links and frames of the scenarios. *)
Definition c1 : websocket := ServerConnection 1.
Definition c2 : websocket := ServerConnection 2.
Definition n3 : websocket := ServerConnection 3.
Definition p9 : websocket := ClientProtocol 9.

Definition client_list_request : json :=
    JObj [("type", JStr "client_list_request")].
Definition hello_C : json := signed_data (hello "PEM-C") 3 "AAAA".
Definition hello_D : json := signed_data (hello "PEM-D") 1 "AAAA".
Definition chat_7 : json := signed_data (public_chat "fp-C" "hi") 7 "AAAA".
Definition chat_8 : json := signed_data (public_chat "fp-C" "hi") 8 "AAAA".
Definition chat_5 : json := signed_data (public_chat "fp-C" "hi") 5 "AAAA".
Definition peer_hello : json :=
    signed_data (server_hello "localhost:8081") 1 "AAAA".

Definition update_D : json :=
    JObj [("type", JStr "client_update"); ("clients", JList [JStr "PEM-D"])].

Definition table : list (string * json) :=
    frames [client_list_request; hello_C; hello_D; chat_7; chat_8; chat_5;
            peer_hello; update_D].

  (** Every link is up and no peer can be dialled. *)
Definition calm : World := world table everyone nobody.

  (** Every link is up and [localhost:8081] answers the dial with [p9]. *)
Definition federated : World :=
    world table everyone
      (λ url, if bool_decide (url = "localhost:8081") then Some p9 else None).

  (** As [federated], with the links [down] broken. *)
Definition broken (down : list websocket) : World :=
    world table (λ w, bool_decide (w ∉ down))
      (λ url, if bool_decide (url = "localhost:8081") then Some p9 else None).

  (** Run a sequence of frames, each on its link; the handler of a frame
      that raises ends there, the state it leaves is kept. *)
Fixpoint run `{World} (input : list (websocket * json)) (st : State.t)
      : State.t :=
    match input with
    | [] => st
    | (ws, v) :: rest => run rest (Server.handle_message ws (dumps v) st).2
    end.
End Fixture.

(* ===================================================================== *)
(** * Properties                                                          *)
(* ===================================================================== *)

Open Scope list_scope.

(** Unfolding of the monadic plumbing. *)
Ltac mexec :=
  repeat (unfold mbind, mret, M_bind, M_ret, outcome_bind, outcome_ret, lift,
            get_state, modify, raise, try_except in *; simpl in *).

(** ** Dictionaries *)

Section dict_facts.
Context {K V : Type} `{EqDecision K}.
Implicit Types (d : list (K * V)) (k : K) (v : V).

Lemma dict_get_set_eq d k v : dict_get (dict_set d k v) k = Some v.
Proof.
    induction d as [|[k' v'] d IH]; simpl.
    - by rewrite decide_True.
    - destruct (decide (k = k')) as [->|Hne]; simpl.
      + by rewrite decide_True.
      + by rewrite decide_False.
Qed.

Lemma dict_get_set_ne d k k' v :
    k' ≠ k → dict_get (dict_set d k v) k' = dict_get d k'.
Proof.
    intros Hne. induction d as [|[k0 v0] d IH]; simpl.
    - by rewrite decide_False.
    - destruct (decide (k = k0)) as [->|Hk]; simpl.
      + by rewrite !decide_False.
      + destruct (decide (k' = k0)); [done | apply IH].
Qed.

Lemma dict_set_idem d k v : dict_set (dict_set d k v) k v = dict_set d k v.
Proof.
    induction d as [|[k0 v0] d IH]; simpl.
    - by rewrite decide_True.
    - destruct (decide (k = k0)) as [->|Hk]; simpl.
      + by rewrite decide_True.
      + rewrite decide_False by done. by rewrite IH.
Qed.

Lemma dict_keys_set_present d k v :
    is_Some (dict_get d k) → dict_keys (dict_set d k v) = dict_keys d.
Proof.
    unfold dict_keys. induction d as [|[k0 v0] d IH]; simpl.
    - by intros [? ?].
    - destruct (decide (k = k0)) as [->|Hk]; csimpl; [done|].
      intros Hs. f_equal. by apply IH.
Qed.

Lemma dict_get_None_keys d k : dict_get d k = None ↔ k ∉ dict_keys d.
Proof.
    unfold dict_keys. induction d as [|[k0 v0] d IH]; simpl.
    - split; [intros _; apply not_elem_of_nil | done].
    - destruct (decide (k = k0)) as [->|Hk].
      + split; [done | intros Hn; exfalso; apply Hn; left].
      + rewrite IH, not_elem_of_cons. tauto.
Qed.

Lemma dict_get_pop_ne d k k' :
    k' ≠ k → dict_get (dict_pop d k) k' = dict_get d k'.
Proof.
    intros Hne. induction d as [|[k0 v0] d IH]; simpl; [done|].
    destruct (decide (k = k0)) as [->|Hk]; simpl.
    - by rewrite decide_False.
    - destruct (decide (k' = k0)); [done | apply IH].
Qed.
End dict_facts.

(** ** Roster ingest ([receive_client_update], [save_clients]) *)

Section roster_facts.
Context `{Provider} `{World}.

Lemma peer_of_ingested P client_list st ws :
    peer_of (ingested P client_list st) ws = peer_of st ws.
Proof. unfold peer_of. by destruct (is_ServerConnection ws). Qed.

Lemma ingested_idem P client_list st :
    ingested P client_list (ingested P client_list st)
    = ingested P client_list st.
Proof.
    destruct st as [[u ns nw [su r a] cl c sk] tr n].
    unfold ingested, with_self, with_neighbourhood,
      with_clients_across_servers; simpl.
    by rewrite dict_set_idem.
Qed.

Lemma receive_client_update_resolved st ws message client_list P :
    py_getitem message "clients" = Returned client_list →
    peer_of st ws = Some P →
    Server.receive_client_update ws message st
    = (Returned tt, ingested P client_list st).
Proof.
    intros Hm Hp. unfold Server.receive_client_update, peer_of in *.
    mexec. rewrite Hm.
    destruct (is_ServerConnection ws).
    - by rewrite Hp.
    - unfold dict_getitem, active in *. by rewrite Hp.
Qed.

Lemma receive_client_update_cases st ws message :
    (∃ P client_list,
        py_getitem message "clients" = Returned client_list
        ∧ peer_of st ws = Some P)
    ∨ (∃ e, Server.receive_client_update ws message st = (Raised e, st)).
Proof.
    destruct (py_getitem message "clients") as [client_list|e] eqn:Hm.
    - destruct (peer_of st ws) as [P|] eqn:Hp.
      + left. by exists P, client_list.
      + right. exists KeyError.
        unfold Server.receive_client_update, peer_of in *.
        mexec. rewrite Hm.
        destruct (is_ServerConnection ws).
        * by rewrite Hp.
        * unfold dict_getitem, active in *. by rewrite Hp.
    - right. exists e. unfold Server.receive_client_update. mexec.
      by rewrite Hm.
Qed.

  (** C6. Ingesting a [client_update] received on a link that stands for
      peer [P] returns normally and replaces the roster entry of [P] by the
      provided list, all the rest of the state being kept: the entry of
      every other peer reads as before. Ingesting the same update a second
      time leaves the state as the first ingest left it, whatever the link
      and the message. *)
Theorem client_update_replaces_entry_and_is_idempotent :
    (∀ (st : State.t) ws message client_list P,
        py_getitem message "clients" = Returned client_list →
        peer_of st ws = Some P →
        let result := Server.receive_client_update ws message st in
        result.1 = Returned tt
        ∧ result.2 = ingested P client_list st
        ∧ roster result.2 = dict_set (roster st) P client_list
        ∧ dict_get (roster result.2) P = Some client_list
        ∧ ∀ Q, Q ≠ P → dict_get (roster result.2) Q = dict_get (roster st) Q)
    ∧ (∀ (st : State.t) ws message,
        let once := (Server.receive_client_update ws message st).2 in
        (Server.receive_client_update ws message once).2 = once).
Proof.
    split.
    - intros st ws message client_list P Hm Hp result. subst result.
      rewrite (receive_client_update_resolved _ _ _ _ _ Hm Hp). simpl.
      repeat split.
      + apply dict_get_set_eq.
      + intros Q HQ. by apply dict_get_set_ne.
    - intros st ws message once. subst once.
      destruct (receive_client_update_cases st ws message)
        as [(P & client_list & Hm & Hp) | [e He]].
      + rewrite (receive_client_update_resolved _ _ _ _ _ Hm Hp). simpl.
        rewrite (receive_client_update_resolved _ _ _ client_list P Hm).
        * simpl. apply ingested_idem.
        * by rewrite peer_of_ingested.
      + rewrite He. simpl. by rewrite He.
Qed.
End roster_facts.

(** The witness of C6: a [client_update] from the link of peer
    [localhost:8081]. *)
Lemma client_update_replaces_entry_witness :
  let W := Fixture.calm in
  let st := Fixture.run [(Fixture.n3, Fixture.peer_hello)]
              (Fixture.start "localhost:8080") in
  let message := JObj [("type", JStr "client_update");
                       ("clients", JList [JStr "PEM-D"])] in
  py_getitem message "clients" = Returned (JList [JStr "PEM-D"])
  ∧ peer_of st Fixture.n3 = Some "localhost:8081"
  ∧ roster (Server.receive_client_update Fixture.n3 message st).2
    = [("localhost:8081", JList [JStr "PEM-D"])].
Proof.
  intros W st message.
  assert (Hm : py_getitem message "clients" = Returned (JList [JStr "PEM-D"]))
    by reflexivity.
  assert (Hp : peer_of st Fixture.n3 = Some "localhost:8081")
    by (vm_compute; reflexivity).
  split; [exact Hm|]. split; [exact Hp|].
  pose proof (proj1 client_update_replaces_entry_and_is_idempotent
                st Fixture.n3 message _ _ Hm Hp) as (_ & _ & Hr & _).
  rewrite Hr.
  vm_compute. reflexivity.
Defined.

(** ** Public chat ([receive_public_chat]) *)

Section public_chat_facts.
Context `{Provider} `{World}.

(** What [receive_public_chat] does get right on a link that is neither a
    registered local client nor a recorded neighbour link: the state after
    the call is the state before it, so nothing has been put on any link
    (no delivery to a client, no broadcast to a peer) and the clients map,
    the neighbour map and the roster are unchanged; and for an envelope
    whose [data] is an object the call returns normally. *)
Theorem public_chat_from_unknown_link_is_dropped
    (st : State.t) (ws : websocket) (request : json) :
  dict_get (local_clients st) ws = None →
  neighbour_websockets (self st) !! ws = None →
  let result := Server.receive_public_chat ws request st in
  result.2 = st
  ∧ sent result.2 = sent st
  ∧ local_clients result.2 = local_clients st
  ∧ neighbour_websockets (self result.2) = neighbour_websockets (self st)
  ∧ roster result.2 = roster st
  ∧ ∀ fields, py_getitem request "data" = Returned (JObj fields) →
              result.1 = Returned tt.
Proof.
  intros Hc Hn result.
  assert (Hst : result.2 = st
                ∧ ∀ fields, py_getitem request "data" = Returned (JObj fields) →
                            result.1 = Returned tt).
  { subst result. unfold Server.receive_public_chat, local_clients in *.
    mexec.
    destruct (py_getitem request "data") as [data|e]; [|by split].
    destruct (py_get data "sender") as [fingerprint|e] eqn:Hs.
    2:{ split; [done|]. intros fields [= ->]. discriminate Hs. }
    destruct (py_get data "message") as [message|e] eqn:Hg.
    2:{ split; [done|]. intros fields [= ->]. discriminate Hg. }
    destruct (is_none fingerprint || is_none message); [by split|].
    rewrite Hc, Hn. simpl. by split. }
  destruct Hst as [-> Hret]. by repeat split.
Qed.

End public_chat_facts.

(** An instance: a [public_chat] whose [data] is an object, on a link that
    has sent nothing before, on a server with a registered client. *)
Lemma public_chat_from_unknown_link_witness :
  let W := Fixture.calm in
  let st := Fixture.run [(Fixture.c1, Fixture.hello_C)]
              (Fixture.start "localhost:8080") in
  dict_get (local_clients st) Fixture.c2 = None
  ∧ neighbour_websockets (self st) !! Fixture.c2 = None
  ∧ Server.receive_public_chat Fixture.c2 Fixture.chat_7 st = (Returned tt, st).
Proof.
  intros W st.
  assert (Hc : dict_get (local_clients st) Fixture.c2 = None)
    by (vm_compute; reflexivity).
  assert (Hn : neighbour_websockets (self st) !! Fixture.c2 = None)
    by (vm_compute; reflexivity).
  split; [exact Hc|]. split; [exact Hn|].
  pose proof (public_chat_from_unknown_link_is_dropped st Fixture.c2
                Fixture.chat_7 Hc Hn) as (Hst & _ & _ & _ & _ & Hret).
  specialize (Hret _ eq_refl).
  destruct (Server.receive_public_chat Fixture.c2 Fixture.chat_7 st) as [o s].
  simpl in *. by subst.
Defined.

(** C10 on the code. [handle_message] parses the [data] of an envelope
    when it is a string of JSON and dispatches on the parsed object, but it
    hands [receive_public_chat] the envelope itself, whose [data] is still
    the string: [request["data"].get] raises [AttributeError]. So a
    [public_chat] with string data on a link that is neither a registered
    client nor a recorded neighbour is not dropped by a return: the call
    raises, the exception leaves [listen], and the [hello] that follows on
    the link is never handled. The same [public_chat] with its data as an
    object is dropped as the claim says. *)
Lemma public_chat_with_string_data_ends_the_listener :
  let inner := Fixture.public_chat "fp-C" "hi" in
  let envelope := Fixture.signed_data (JStr (Fixture.dumps inner)) 7 "AAAA" in
  let W := Fixture.world
             (Fixture.frames [envelope; inner; Fixture.chat_7; Fixture.hello_C])
             Fixture.everyone Fixture.nobody in
  let st := Fixture.start "localhost:8080" in
  dict_get (local_clients st) Fixture.c1 = None
  ∧ neighbour_websockets (self st) !! Fixture.c1 = None
  ∧ json_loads (Fixture.dumps inner) = Some inner
  ∧ Server.receive_public_chat Fixture.c1 envelope st
    = (Raised AttributeError, st)
  ∧ Server.handle_message Fixture.c1 (Fixture.dumps envelope) st
    = (Raised AttributeError, st)
  ∧ Server.listen Fixture.c1
      [Fixture.dumps envelope; Fixture.dumps Fixture.hello_C] st
    = (Raised AttributeError, st)
  ∧ Server.handle_message Fixture.c1 (Fixture.dumps Fixture.chat_7) st
    = (Returned tt, st).
Proof.
  intros inner envelope W st. repeat split; by vm_compute.
Qed.

(** ** Sends and traces *)

Section trace_facts.
Context `{Provider} `{World}.

Lemma sends_to_app w (t1 t2 : list (websocket * json)) :
  sends_to w (t1 ++ t2) = sends_to w t1 ++ sends_to w t2.
Proof. unfold sends_to. by rewrite filter_app, fmap_app. Qed.

Lemma sends_to_deliveries w (request : json) (delivered : list websocket) :
  NoDup delivered →
  sends_to w ((λ c, (c, request)) <$> delivered)
  = if bool_decide (w ∈ delivered) then [request] else [].
Proof.
  unfold sends_to. induction delivered as [|c l IH]; intros Hnd.
  - done.
  - apply NoDup_cons in Hnd as [Hc Hl]. csimpl.
    rewrite filter_cons. simpl.
    destruct (decide (c = w)) as [->|Hne].
    + rewrite bool_decide_eq_true_2 by left. csimpl. f_equal.
      rewrite (IH Hl). by rewrite bool_decide_eq_false_2.
    + rewrite (IH Hl).
      rewrite (bool_decide_ext (w ∈ l) (w ∈ c :: l)); [done|].
      rewrite elem_of_cons. intuition congruence.
Qed.

Lemma remove_active_server_sent url (st : State.t) :
  (Neighbourhood.remove_active_server url st).1 = Returned tt
  ∧ sent (Neighbourhood.remove_active_server url st).2 = sent st
  ∧ clients (self (Neighbourhood.remove_active_server url st).2)
    = clients (self st).
Proof.
  unfold Neighbourhood.remove_active_server. mexec.
  by destruct (Neighbourhood.find_active_server _ _).
Qed.

(** A send that succeeds is recorded and changes nothing else. *)
Lemma send_response_alive ws message (st : State.t) :
  alive ws = true →
  Server.send_response ws message st = (Returned tt, record_send ws message st).
Proof.
  intros Ha. unfold Server.send_response, ws_send. mexec. by rewrite Ha.
Qed.

(** Whatever the link, [send_response] returns, and it puts at most the
    message on the link. *)
Lemma send_response_sent ws message (st : State.t) :
  (Server.send_response ws message st).1 = Returned tt
  ∧ (sent (Server.send_response ws message st).2 = sent st ++ [(ws, message)]
     ∨ sent (Server.send_response ws message st).2 = sent st).
Proof.
  destruct (alive ws) eqn:Ha.
  - rewrite send_response_alive by done. split; [done | by left].
  - unfold Server.send_response, ws_send. mexec. rewrite Ha. simpl.
    destruct (dict_contains _ _); simpl; [by split; [|right]|].
    destruct (neighbour_websockets (self st) !! ws) as [url|];
      [|by split; [|right]].
    destruct (remove_active_server_sent url st) as (Ho & Hs & _).
    destruct (Neighbourhood.remove_active_server url st) as [o st'].
    simpl in *. subst. split; [done | by right].
Qed.

Lemma deliver_loop_sent remaining size ws request (st : State.t) :
  ∃ delivered,
    sublist delivered remaining
    ∧ sent (Server.deliver_loop remaining size ws request st).2
      = sent st ++ ((λ c, (c, request)) <$> delivered).
Proof.
  revert st. induction remaining as [|client rest IH]; intros st.
  - exists []. split; [done|]. simpl. mexec.
    destruct (bool_decide _); simpl; by rewrite app_nil_r.
  - simpl. mexec.
    destruct (bool_decide (length (clients (self st)) ≠ size)); simpl.
    { exists []. split; [apply sublist_nil_l | by rewrite app_nil_r]. }
    destruct (bool_decide (client = ws)).
    + destruct (IH st) as (delivered & Hsub & Hsent).
      exists delivered. split; [by apply sublist_cons | done].
    + destruct (send_response_sent client request st) as (Ho & Hs).
      destruct (Server.send_response client request st) as [o st1].
      simpl in *. subst o.
      destruct (IH st1) as (delivered & Hsub & Hsent).
      destruct Hs as [Hs|Hs]; rewrite Hs in Hsent.
      * exists (client :: delivered). split; [by apply sublist_skip|].
        rewrite Hsent. csimpl. by rewrite <- app_assoc.
      * exists delivered. split; [by apply sublist_cons | done].
Qed.

Lemma deliver_loop_alive remaining ws request (st : State.t) :
  ws ∉ remaining →
  (∀ c, c ∈ remaining → alive c = true) →
  Server.deliver_loop remaining (length (clients (self st))) ws request st
  = (Returned tt,
     {| self := self st;
        sent := sent st ++ ((λ c, (c, request)) <$> remaining);
        dials := dials st |}).
Proof.
  revert st. induction remaining as [|client rest IH]; intros st Hws Ha.
  - simpl. mexec. rewrite bool_decide_eq_false_2 by naive_solver.
    rewrite app_nil_r. by destruct st.
  - simpl. mexec. rewrite bool_decide_eq_false_2 by naive_solver.
    apply not_elem_of_cons in Hws as [Hne Hws].
    rewrite bool_decide_eq_false_2 by done.
    rewrite send_response_alive by (apply Ha; left). simpl.
    pose proof (IH (record_send client request st)) as IH'. simpl in IH'.
    rewrite IH'; [|done|intros c Hc; apply Ha; by right].
    csimpl. by rewrite <- app_assoc.
Qed.
End trace_facts.

Section relay_facts.
Context `{Provider} `{World}.

(** What [receive_public_chat] puts on the links when the sending link is
    not a registered client: deliveries of the envelope to local clients. *)
Lemma public_chat_unregistered_sent (st : State.t) ws request :
  dict_get (local_clients st) ws = None →
  ∃ delivered,
    sublist delivered (dict_keys (local_clients st))
    ∧ sent (Server.receive_public_chat ws request st).2
      = sent st ++ ((λ c, (c, request)) <$> delivered).
Proof.
  intros Hc. unfold local_clients in *.
  assert (Hnil : ∃ delivered,
             sublist delivered (dict_keys (clients (self st)))
             ∧ sent st = sent st ++ ((λ c, (c, request)) <$> delivered)).
  { exists []. split; [apply sublist_nil_l | by rewrite app_nil_r]. }
  unfold Server.receive_public_chat. mexec.
  destruct (py_getitem request "data") as [data|e]; [|done].
  destruct (py_get data "sender") as [fingerprint|e]; [|done].
  destruct (py_get data "message") as [message|e]; [|done].
  destruct (is_none fingerprint || is_none message); [done|].
  rewrite Hc.
  destruct (bool_decide (is_Some (neighbour_websockets (self st) !! ws)));
    simpl; [|done].
  destruct (deliver_loop_sent (dict_keys (clients (self st)))
              (length (clients (self st))) ws request st)
    as (delivered & Hsub & Hsent).
  exists delivered. split; [done|].
  destruct (Server.deliver_loop _ _ _ _ _) as [[[]|e] st1]; simpl in *; done.
Qed.

(** What the relay does get right. A [public_chat] envelope that arrives
    on a link which is not registered as a local client is put on links of
    local clients only, on each at most once: nothing goes to another link,
    so nothing is broadcast to a peer server. When the link is a recorded
    neighbour link, the envelope carries a sender and a message, and the
    sends to the local clients succeed, the handler returns, leaves the
    server state as it was, and puts the envelope on the link of every
    local client exactly once, in the order of [self.clients]. *)
Theorem public_chat_from_peer_is_delivered_and_not_rebroadcast
    (st : State.t) (ws : websocket) (request : json) :
  NoDup (dict_keys (local_clients st)) →
  dict_get (local_clients st) ws = None →
  let result := Server.receive_public_chat ws request st in
  (∀ w, w ∉ dict_keys (local_clients st) →
        sends_to w (sent result.2) = sends_to w (sent st))
  ∧ (∀ w, sends_to w (sent result.2) = sends_to w (sent st)
          ∨ sends_to w (sent result.2) = sends_to w (sent st) ++ [request])
  ∧ (∀ data fingerprint message,
       is_Some (neighbour_websockets (self st) !! ws) →
       py_getitem request "data" = Returned data →
       py_get data "sender" = Returned fingerprint →
       py_get data "message" = Returned message →
       is_none fingerprint = false → is_none message = false →
       (∀ c, c ∈ dict_keys (local_clients st) → alive c = true) →
       result.1 = Returned tt
       ∧ self result.2 = self st
       ∧ sent result.2
         = sent st ++ ((λ c, (c, request)) <$> dict_keys (local_clients st))
       ∧ ∀ w, sends_to w (sent result.2)
              = sends_to w (sent st)
                ++ (if bool_decide (w ∈ dict_keys (local_clients st))
                    then [request] else [])).
Proof.
  intros Hnd Hc result.
  destruct (public_chat_unregistered_sent st ws request Hc)
    as (delivered & Hsub & Hsent). fold result in Hsent.
  assert (Hnd' : NoDup delivered) by (by eapply sublist_NoDup).
  split; [|split].
  - intros w Hw. rewrite Hsent, sends_to_app, sends_to_deliveries by done.
    rewrite bool_decide_eq_false_2; [by rewrite app_nil_r|].
    intros Hin. apply Hw. by eapply elem_of_sublist.
  - intros w. rewrite Hsent, sends_to_app, sends_to_deliveries by done.
    destruct (bool_decide (w ∈ delivered)); [by right | left].
    by rewrite app_nil_r.
  - intros data fingerprint message Hn Hd Hs Hm Hf Hg Ha.
    assert (Hrun : result
              = (Returned tt,
                 {| self := self st;
                    sent := sent st ++ ((λ c, (c, request))
                                          <$> dict_keys (local_clients st));
                    dials := dials st |})).
    { subst result. unfold Server.receive_public_chat, local_clients in *.
      mexec. rewrite Hd. simpl. rewrite Hs. simpl. rewrite Hm. simpl.
      rewrite Hf, Hg. simpl. rewrite Hc.
      rewrite bool_decide_eq_true_2 by done. simpl.
      rewrite deliver_loop_alive; [done| |done].
      by apply dict_get_None_keys. }
    rewrite Hrun. simpl. repeat split.
    intros w. by rewrite sends_to_app, sends_to_deliveries.
Qed.
End relay_facts.

(** An instance: peer [localhost:8081] has said [server_hello] on link
    [n3], two clients are registered, and a [public_chat] arrives on
    [n3]. *)
Lemma public_chat_from_peer_witness :
  let W := Fixture.federated in
  let st := Fixture.run [(Fixture.c1, Fixture.hello_C);
                         (Fixture.c2, Fixture.hello_D);
                         (Fixture.n3, Fixture.peer_hello)]
              (Fixture.start "localhost:8080") in
  let result := Server.receive_public_chat Fixture.n3 Fixture.chat_7 st in
  NoDup (dict_keys (local_clients st))
  ∧ dict_get (local_clients st) Fixture.n3 = None
  ∧ is_Some (neighbour_websockets (self st) !! Fixture.n3)
  ∧ dict_keys (active st) = [Fixture.p9]
  ∧ sends_to Fixture.p9 (sent result.2) = sends_to Fixture.p9 (sent st)
  ∧ sent result.2
    = sent st ++ [(Fixture.c1, Fixture.chat_7); (Fixture.c2, Fixture.chat_7)].
Proof.
  intros W st result.
  assert (Hnd : NoDup (dict_keys (local_clients st))).
  { replace (dict_keys (local_clients st)) with [Fixture.c1; Fixture.c2]
      by (vm_compute; reflexivity).
    compute_done. }
  assert (Hc : dict_get (local_clients st) Fixture.n3 = None)
    by (vm_compute; reflexivity).
  assert (Hn : is_Some (neighbour_websockets (self st) !! Fixture.n3)).
  { exists "localhost:8081". vm_compute. reflexivity. }
  pose proof (public_chat_from_peer_is_delivered_and_not_rebroadcast
                st Fixture.n3 Fixture.chat_7 Hnd Hc) as (Hother & _ & Hall).
  fold result in Hother, Hall.
  split; [exact Hnd|]. split; [exact Hc|]. split; [exact Hn|].
  split; [vm_compute; reflexivity|]. split.
  - apply Hother. replace (dict_keys (local_clients st))
      with [Fixture.c1; Fixture.c2] by (vm_compute; reflexivity).
    compute_done.
  - destruct (Hall _ (JStr "fp-C") (JStr "hi") Hn eq_refl eq_refl eq_refl
                eq_refl eq_refl) as (_ & _ & Hsent & _); [done|].
    rewrite Hsent. f_equal.
Defined.

(** A link that has said both [hello] and [server_hello] is a registered
    client as well as a recorded neighbour link, and the relay treats it
    as a client: after [hello] and [server_hello] on link [n3] (the server
    then dials the announced peer and holds link [p9] to it), a
    [public_chat] that arrives on [n3] is put on [p9]. *)
Lemma public_chat_from_registered_neighbour_is_rebroadcast :
  let W := Fixture.federated in
  let st := Fixture.run [(Fixture.n3, Fixture.hello_C);
                         (Fixture.n3, Fixture.peer_hello)]
              (Fixture.start "localhost:8080") in
  let result := Server.receive_public_chat Fixture.n3 Fixture.chat_7 st in
  neighbour_websockets (self st) !! Fixture.n3 = Some "localhost:8081"
  ∧ active st = [(Fixture.p9, "localhost:8081")]
  ∧ sends_to Fixture.p9 (sent result.2)
    = sends_to Fixture.p9 (sent st) ++ [Fixture.chat_7]
  ∧ ¬ not_rebroadcast st result.2.
Proof.
  intros W st result.
  assert (Hs : sends_to Fixture.p9 (sent result.2)
               = sends_to Fixture.p9 (sent st) ++ [Fixture.chat_7])
    by (vm_compute; reflexivity).
  split; [vm_compute; reflexivity|]. split; [vm_compute; reflexivity|].
  split; [exact Hs|].
  intros Hclaim. specialize (Hclaim Fixture.p9).
  rewrite Hs in Hclaim.
  assert (Hin : Fixture.p9 ∈ dict_keys (active st)).
  { replace (dict_keys (active st)) with [Fixture.p9]
      by (vm_compute; reflexivity). by left. }
  specialize (Hclaim Hin).
  apply (f_equal length) in Hclaim. rewrite length_app in Hclaim.
  simpl in Hclaim. lia.
Qed.

(** C7 on the code. A [public_chat] from a peer does not reach every local
    client when one of them has gone. Clients [c1] and [c2] are registered
    and the peer [localhost:8081] has said [server_hello] on link [n3];
    the link of [c1] is closed, which nothing removes from [self.clients]
    until a send to it fails. A [public_chat] arrives on [n3]:
    [send_response] pops [c1] inside the loop over [self.clients], the
    next step of the loop raises [RuntimeError], and the envelope is never
    put on the link of [c2], which is up. With every link up the same
    envelope is put on the links of [c1] and [c2], once each, and on no
    link of a peer. *)
Lemma public_chat_from_peer_misses_clients_after_a_broken_link :
  let st := @Fixture.run Fixture.federated
              [(Fixture.c1, Fixture.hello_C); (Fixture.c2, Fixture.hello_D);
               (Fixture.n3, Fixture.peer_hello)]
              (Fixture.start "localhost:8080") in
  let frame := Fixture.dumps Fixture.chat_7 in
  let whole := @Server.handle_message Fixture.toy Fixture.federated
                 Fixture.n3 frame st in
  let W := Fixture.broken [Fixture.c1] in
  let result := Server.handle_message Fixture.n3 frame st in
  dict_keys (local_clients st) = [Fixture.c1; Fixture.c2]
  ∧ neighbour_websockets (self st) !! Fixture.n3 = Some "localhost:8081"
  ∧ dict_keys (active st) = [Fixture.p9]
  ∧ whole.1 = Returned tt
  ∧ sent whole.2
    = sent st ++ [(Fixture.c1, Fixture.chat_7); (Fixture.c2, Fixture.chat_7)]
  ∧ alive Fixture.c1 = false
  ∧ alive Fixture.c2 = true
  ∧ result.1 = Raised RuntimeError
  ∧ dict_keys (local_clients result.2) = [Fixture.c2]
  ∧ sent result.2 = sent st
  ∧ sends_to Fixture.c2 (sent result.2) = sends_to Fixture.c2 (sent st).
Proof.
  intros st frame whole W result. repeat split; by vm_compute.
Qed.

(** ** Failed sends ([send_response], [send_request]) *)

Section teardown_facts.
Context `{Provider} `{World}.

Lemma dict_get_elem_of {K V} `{EqDecision K} (d : list (K * V)) k v :
  NoDup (dict_keys d) → (k, v) ∈ d → dict_get d k = Some v.
Proof.
  unfold dict_keys. induction d as [|[k0 v0] d IH]; csimpl; intros Hnd Hin.
  - by apply elem_of_nil in Hin.
  - apply NoDup_cons in Hnd as [Hk Hnd].
    apply elem_of_cons in Hin as [[= -> ->]|Hin].
    + by rewrite decide_True.
    + rewrite decide_False; [by apply IH|].
      intros ->. apply Hk. apply list_elem_of_fmap. by exists (k0, v).
Qed.

Lemma find_active_server_Some (n : State.Neighbourhood) url w :
  Neighbourhood.find_active_server n url = Some w →
  (w, url) ∈ active_servers n.
Proof.
  unfold Neighbourhood.find_active_server. intros Hf.
  destruct (list_find _ _) as [[i [w' url']]|] eqn:Hl; simplify_eq/=.
  apply list_find_Some in Hl as (Hi & Hu & _). simpl in Hu. subst.
  by eapply list_elem_of_lookup_2.
Qed.

Lemma find_active_server_None (n : State.Neighbourhood) url :
  Neighbourhood.find_active_server n url = None →
  url ∉ dict_values (active_servers n).
Proof.
  unfold Neighbourhood.find_active_server, dict_values. intros Hf.
  destruct (list_find _ _) as [[i [w' url']]|] eqn:Hl; simplify_eq/=.
  apply list_find_None in Hl. intros Hin.
  apply list_elem_of_fmap in Hin as ([w u] & -> & Hin).
  rewrite Forall_forall in Hl. by apply (Hl _ Hin).
Qed.



End teardown_facts.



(** ** The client list ([send_client_list]) *)

Section client_list_facts.
Context `{Provider} `{World}.

(** The reply to a [client_list_request] lists the pairs of the roster, in
    its order, and nothing else. *)
Lemma send_client_list_lists_roster (st : State.t) ws :
  alive ws = true →
  Server.send_client_list ws st
  = (Returned tt,
     record_send ws
       (JObj [("type", JStr "client_list");
              ("servers",
               JList ((λ item, JObj [("address", JStr item.1);
                                     ("clients", item.2)]) <$> roster st))])
       st).
Proof.
  intros Ha. unfold Server.send_client_list. mexec.
  by rewrite send_response_alive.
Qed.

Lemma send_request_self (st : State.t) w message wait :
  self (Neighbourhood.send_request w message wait st).2 = self st.
Proof.
  unfold Neighbourhood.send_request, ws_send. mexec.
  destruct (alive w); simpl; [|done].
  destruct wait; simpl; [|done].
  destruct (recv w) as [response|]; simpl; [|done].
  destruct (json_loads response); [done|].
  by destruct (json_loads_error response).
Qed.

(** A broadcast changes nothing in the server: it only puts the message on
    links. *)
Lemma broadcast_loop_self links message wait acc (st : State.t) :
  self (Neighbourhood.broadcast_loop links message wait acc st).2 = self st.
Proof.
  revert acc st. induction links as [|w links IH]; intros acc st; [done|].
  simpl. mexec.
  pose proof (send_request_self st w message wait) as Hs.
  destruct (Neighbourhood.send_request w message wait st) as [[r|e] st1];
    simpl in *; [|done].
  by rewrite IH.
Qed.

(** [receive_hello] registers the client and leaves the roster alone. *)
Lemma receive_hello_keeps_roster (st : State.t) ws message :
  roster (Server.receive_hello ws message st).2 = roster st.
Proof.
  unfold Server.receive_hello, Server.send_client_update, roster. mexec.
  destruct (py_getitem message "public_key") as [key|e]; [|done]. simpl.
  destruct (Server.public_keys_of _) as [keys|e]; [|done]. simpl.
  unfold Neighbourhood.broadcast_request. mexec.
  match goal with
  | |- context [Neighbourhood.broadcast_loop ?l ?m ?w ?a ?s] =>
      pose proof (broadcast_loop_self l m w a s) as Hb;
      destruct (Neighbourhood.broadcast_loop l m w a s) as [[r|e] st1]
  end; simpl in *; by rewrite Hb.
Qed.
End client_list_facts.

(** C8 on the code. A client registers on a fresh server at
    [localhost:8080] with its key and asks for the client list: the server
    holds the client in [self.clients], its roster is empty, and the reply
    lists no server at all, so the client's key is in no entry of the
    reply. *)
Lemma client_list_omits_local_clients :
  let W := Fixture.calm in
  let st := Fixture.run [(Fixture.c1, Fixture.hello_C);
                         (Fixture.c1, Fixture.client_list_request)]
              (Fixture.start "localhost:8080") in
  url (self st) = "localhost:8080"
  ∧ local_clients st = [(Fixture.c1, [("public_key", JStr "PEM-C")])]
  ∧ roster st = []
  ∧ dict_get (roster st) "localhost:8080" = None
  ∧ sent st = [(Fixture.c1, JObj [("type", JStr "client_list");
                                  ("servers", JList [])])].
Proof.
  intros W st. repeat split; vm_compute; reflexivity.
Qed.

(** ** Base64 *)

Section base64_facts.
Import Base64.
Open Scope N_scope.

Lemma N_forall_below (bound : nat) (P : N → bool) :
  forallb P (N.of_nat <$> seq 0 bound) = true →
  ∀ n, n < N.of_nat bound → P n = true.
Proof.
  intros Hall n Hn. rewrite forallb_forall in Hall. apply Hall.
  apply list_elem_of_In, list_elem_of_fmap. exists (N.to_nat n).
  split; [by rewrite N2Nat.id|]. apply elem_of_seq. lia.
Qed.

Lemma N_forall2_below (bound : nat) (P : N → N → bool) :
  forallb (λ a, forallb (P a) (N.of_nat <$> seq 0 bound))
    (N.of_nat <$> seq 0 bound) = true →
  ∀ a b, a < N.of_nat bound → b < N.of_nat bound → P a b = true.
Proof.
  intros Hall a b Ha Hb.
  apply (N_forall_below bound (P a)); [|done].
  by apply (N_forall_below bound
              (λ a, forallb (P a) (N.of_nat <$> seq 0 bound))).
Qed.

Lemma to_N_lt (a : byte) : Byte.to_N a < 256.
Proof. pose proof (Byte.to_N_bounded a). lia. Qed.

Lemma byte_of_to_N (a : byte) : byte_of_N (Byte.to_N a) = a.
Proof.
  unfold byte_of_N. rewrite N.mod_small by apply to_N_lt.
  by rewrite Byte.of_to_N.
Qed.

(** The characters of the alphabet are ASCII, differ from the pad, and are
    read back as the value they stand for. *)
Lemma b2a_spec n :
  n < 64 → b2a n ≠ BASE64_PAD ∧ a2b (b2a n) = Some n.
Proof.
  intros Hn.
  pose proof (N_forall_below 64
                (λ n, negb (Byte.eqb (b2a n) BASE64_PAD)
                      && match a2b (b2a n) with
                         | Some m => m =? n
                         | None => false
                         end)
                ltac:(by vm_compute) n Hn) as Hb.
  apply andb_prop in Hb as [Hpad Hval]. split.
  - intros Heq. rewrite Heq in Hpad. by vm_compute in Hpad.
  - destruct (a2b (b2a n)) as [m|]; [|done].
    by apply N.eqb_eq in Hval as ->.
Qed.

Lemma b2a_ascii n : is_ascii (b2a n) = true.
Proof.
  destruct (decide (n < 64)) as [Hn|Hn].
  - by apply (N_forall_below 64 (λ n, is_ascii (b2a n))); [vm_compute|].
  - unfold b2a. rewrite nth_overflow; [done|].
    change (length alphabet) with 64%nat. lia.
Qed.

(** The arithmetic of the six-bit groups. *)
Lemma sextets_lt a b :
  a < 256 → b < 256 →
  N.shiftr a 2 < 64
  ∧ N.shiftl (N.land a 3) 4 < 64
  ∧ N.lor (N.shiftl (N.land a 3) 4) (N.shiftr b 4) < 64
  ∧ N.shiftl (N.land b 15) 2 < 64
  ∧ N.lor (N.shiftl (N.land a 15) 2) (N.shiftr b 6) < 64
  ∧ N.land b 63 < 64.
Proof.
  intros Ha Hb.
  pose proof (N_forall2_below 256 (λ a b,
       (N.shiftr a 2 <? 64)
       && (N.shiftl (N.land a 3) 4 <? 64)
       && (N.lor (N.shiftl (N.land a 3) 4) (N.shiftr b 4) <? 64)
       && (N.shiftl (N.land b 15) 2 <? 64)
       && (N.lor (N.shiftl (N.land a 15) 2) (N.shiftr b 6) <? 64)
       && (N.land b 63 <? 64)) ltac:(by vm_compute) a b Ha Hb) as Hall.
  repeat (apply andb_prop in Hall as [Hall ?%N.ltb_lt]).
  apply N.ltb_lt in Hall. done.
Qed.

Lemma sextets_join a b :
  a < 256 → b < 256 →
  N.lor (N.shiftl (N.shiftr a 2) 2)
    (N.shiftr (N.lor (N.shiftl (N.land a 3) 4) (N.shiftr b 4)) 4) = a
  ∧ N.lor (N.shiftl (N.shiftr a 2) 2) (N.shiftr (N.shiftl (N.land a 3) 4) 4) = a
  ∧ N.land (N.lor (N.shiftl (N.land a 3) 4) (N.shiftr b 4)) 15 = N.shiftr b 4
  ∧ N.shiftr (N.lor (N.shiftl (N.land a 15) 2) (N.shiftr b 6)) 2 = N.land a 15
  ∧ N.shiftr (N.shiftl (N.land a 15) 2) 2 = N.land a 15
  ∧ N.land (N.lor (N.shiftl (N.land a 15) 2) (N.shiftr b 6)) 3 = N.shiftr b 6
  ∧ N.lor (N.shiftl (N.shiftr a 4) 4) (N.land a 15) = a
  ∧ N.lor (N.shiftl (N.shiftr a 6) 6) (N.land a 63) = a.
Proof.
  intros Ha Hb.
  pose proof (N_forall2_below 256 (λ a b,
       (N.lor (N.shiftl (N.shiftr a 2) 2)
          (N.shiftr (N.lor (N.shiftl (N.land a 3) 4) (N.shiftr b 4)) 4) =? a)
       && (N.lor (N.shiftl (N.shiftr a 2) 2)
             (N.shiftr (N.shiftl (N.land a 3) 4) 4) =? a)
       && (N.land (N.lor (N.shiftl (N.land a 3) 4) (N.shiftr b 4)) 15
           =? N.shiftr b 4)
       && (N.shiftr (N.lor (N.shiftl (N.land a 15) 2) (N.shiftr b 6)) 2
           =? N.land a 15)
       && (N.shiftr (N.shiftl (N.land a 15) 2) 2 =? N.land a 15)
       && (N.land (N.lor (N.shiftl (N.land a 15) 2) (N.shiftr b 6)) 3
           =? N.shiftr b 6)
       && (N.lor (N.shiftl (N.shiftr a 4) 4) (N.land a 15) =? a)
       && (N.lor (N.shiftl (N.shiftr a 6) 6) (N.land a 63) =? a))
    ltac:(by vm_compute) a b Ha Hb) as Hall.
  repeat (apply andb_prop in Hall as [Hall ?%N.eqb_eq]).
  apply N.eqb_eq in Hall. done.
Qed.
Lemma a2b_loop_alphabet n rest quad_pos leftchar pads out :
  n < 64 →
  a2b_loop (b2a n :: rest) quad_pos leftchar pads out
  = match quad_pos with
    | 0 => a2b_loop rest 1 n 0 out
    | 1 =>
        a2b_loop rest 2 (N.land n 15) 0
          (out ++ [byte_of_N (N.lor (N.shiftl leftchar 2) (N.shiftr n 4))])
    | 2 =>
        a2b_loop rest 3 (N.land n 3) 0
          (out ++ [byte_of_N (N.lor (N.shiftl leftchar 4) (N.shiftr n 2))])
    | _ =>
        a2b_loop rest 0 0 0
          (out ++ [byte_of_N (N.lor (N.shiftl leftchar 6) n)])
    end.
Proof.
  intros Hn. destruct (b2a_spec n Hn) as [Hp Hv].
  cbn [a2b_loop]. rewrite decide_False by done. by rewrite Hv.
Qed.

Lemma a2b_loop_pad rest quad_pos leftchar pads out :
  a2b_loop (BASE64_PAD :: rest) quad_pos leftchar pads out
  = if 2 <=? quad_pos then
      if 4 <=? quad_pos + (pads + 1) then Returned out
      else a2b_loop rest quad_pos leftchar (pads + 1) out
    else a2b_loop rest quad_pos leftchar pads out.
Proof. cbn [a2b_loop]. by rewrite decide_True. Qed.

(** Decoding what [b2a_base64] produced gives the bytes back, after the
    output written before. *)
Lemma a2b_loop_b2a_base64 (s out : list byte) :
  a2b_loop (b2a_base64 s) 0 0 0 out = Returned (out ++ s).
Proof.
  remember (length s) as len eqn:Hlen. revert s out Hlen.
  induction len as [len IH] using lt_wf_ind. intros s out Hlen.
  destruct s as [|a [|b [|c rest]]].
  - cbn. by rewrite app_nil_r.
  - cbn [b2a_base64].
    pose proof (to_N_lt a) as Ha.
    destruct (sextets_lt _ _ Ha Ha) as (H1 & H2 & _).
    destruct (sextets_join _ _ Ha Ha) as (_ & J2 & _).
    rewrite (a2b_loop_alphabet _ _ _ _ _ _ H1).
    rewrite (a2b_loop_alphabet _ _ _ _ _ _ H2).
    rewrite J2, byte_of_to_N.
    rewrite a2b_loop_pad. cbn [N.leb N.compare Pos.compare Pos.compare_cont].
    change (2 <=? 2) with true. change (4 <=? 2 + (0 + 1)) with false.
    cbv iota. rewrite a2b_loop_pad. done.
  - cbn [b2a_base64].
    pose proof (to_N_lt a) as Ha. pose proof (to_N_lt b) as Hb.
    destruct (sextets_lt _ _ Ha Hb) as (H1 & _ & H2 & H3 & _).
    destruct (sextets_join _ _ Ha Hb) as (J1 & _ & J3 & _).
    destruct (sextets_join _ _ Hb Hb) as (_ & _ & _ & _ & J5 & _ & J7 & _).
    rewrite (a2b_loop_alphabet _ _ _ _ _ _ H1).
    rewrite (a2b_loop_alphabet _ _ _ _ _ _ H2).
    rewrite (a2b_loop_alphabet _ _ _ _ _ _ H3).
    rewrite J1, J3, J5, J7, !byte_of_to_N.
    rewrite a2b_loop_pad. rewrite <- app_assoc. done.
  - cbn [b2a_base64].
    pose proof (to_N_lt a) as Ha. pose proof (to_N_lt b) as Hb.
    pose proof (to_N_lt c) as Hc.
    destruct (sextets_lt _ _ Ha Hb) as (H1 & _ & H2 & _).
    destruct (sextets_lt _ _ Hb Hc) as (_ & _ & _ & _ & H3 & H4).
    destruct (sextets_join _ _ Ha Hb) as (J1 & _ & J3 & _).
    destruct (sextets_join _ _ Hb Hc) as (_ & _ & _ & J4 & _ & J6 & J7 & _).
    destruct (sextets_join _ _ Hc Hc) as (_ & _ & _ & _ & _ & _ & _ & J8).
    rewrite (a2b_loop_alphabet _ _ _ _ _ _ H1).
    rewrite (a2b_loop_alphabet _ _ _ _ _ _ H2).
    rewrite (a2b_loop_alphabet _ _ _ _ _ _ H3).
    rewrite (a2b_loop_alphabet _ _ _ _ _ _ H4).
    rewrite J1, J3, J4, J6, J7, J8, !byte_of_to_N.
    rewrite (IH (length rest)); [|simpl in Hlen; lia|done].
    by rewrite <- !app_assoc.
Qed.

Lemma b2a_base64_ascii (s : list byte) :
  forallb is_ascii (b2a_base64 s) = true.
Proof.
  remember (length s) as len eqn:Hlen. revert s Hlen.
  induction len as [len IH] using lt_wf_ind. intros s Hlen.
  destruct s as [|a [|b [|c rest]]]; cbn [b2a_base64 forallb];
    rewrite ?b2a_ascii; try done.
  cbn [andb]. apply (IH (length rest)); [simpl in Hlen; lia | done].
Qed.

(** [b64decode(b64encode(s).decode()) == s]. *)
Lemma b64decode_b64encode (s : list byte) :
  b64decode (decode (b64encode s)) = Returned s.
Proof.
  unfold b64decode, decode, b64encode, a2b_base64.
  rewrite String.list_byte_of_string_of_list_byte.
  by rewrite b2a_base64_ascii, a2b_loop_b2a_base64.
Qed.

(** A character outside the alphabet is skipped wherever it stands; at the
    end of the input this is a line feed after the signature, say. *)
Lemma a2b_loop_skip (ch : byte) (s : list byte) quad_pos leftchar pads out :
  ch ≠ BASE64_PAD → a2b ch = None →
  a2b_loop (s ++ [ch]) quad_pos leftchar pads out
  = a2b_loop s quad_pos leftchar pads out.
Proof.
  intros Hp Hn. revert quad_pos leftchar pads out.
  induction s as [|x s IH]; intros quad_pos leftchar pads out.
  - cbn [app a2b_loop]. rewrite decide_False by done. by rewrite Hn.
  - cbn [app a2b_loop]. repeat case_match; rewrite ?IH; done.
Qed.

Lemma string_app_bytes (s t : string) :
  String.list_byte_of_string (s +:+ t)
  = String.list_byte_of_string s ++ String.list_byte_of_string t.
Proof.
  unfold String.list_byte_of_string.
  induction s as [|ch s IH]; [done|]. cbn. by rewrite <- IH.
Qed.

(** A signature string followed by a line feed decodes like the string. *)
Lemma b64decode_line_feed (s : string) :
  b64decode (s +:+ String (Ascii.ascii_of_nat 10) EmptyString) = b64decode s.
Proof.
  unfold b64decode. rewrite string_app_bytes, forallb_app.
  change (forallb is_ascii
            (String.list_byte_of_string
               (String (Ascii.ascii_of_nat 10) EmptyString))) with true.
  rewrite andb_true_r.
  destruct (forallb is_ascii (String.list_byte_of_string s)); [|done].
  unfold a2b_base64. by apply a2b_loop_skip.
Qed.
End base64_facts.

(** ** Signatures ([sign_message], [verify_signature]) *)

Section signature_facts.
Context `{Provider}.

Lemma encode_inj (s t : string) : encode s = encode t → s = t.
Proof.
  unfold encode. intros Heq.
  by rewrite <- (String.string_of_list_byte_of_string s),
    <- (String.string_of_list_byte_of_string t), Heq.
Qed.

Lemma pretty_N_go_length (x : N) (s : string) :
  (String.length s ≤ String.length (pretty_N_go x s))%nat.
Proof.
  revert s. induction (N.lt_wf_0 x) as [x _ IH]; intros s.
  assert (x = 0 ∨ 0 < x)%N as [->|Hx] by lia; [by rewrite pretty_N_go_0|].
  rewrite pretty_N_go_step by done.
  etrans; [|by eapply IH, N.div_lt]. simpl. lia.
Qed.

(** [str(n)] is never empty. *)
Lemma str_of_int_nonempty (n : Z) : str_of_int n ≠ "".
Proof.
  assert (Hpos : ∀ p, pretty (N.pos p) ≠ "").
  { intros p Heq. unfold pretty, pretty_N in Heq.
    rewrite decide_False in Heq by done.
    rewrite pretty_N_go_step in Heq by lia.
    pose proof (pretty_N_go_length (N.pos p `div` 10)
                  (String (pretty_N_char (N.pos p `mod` 10)) "")) as Hlen.
    rewrite Heq in Hlen. simpl in Hlen. lia. }
  unfold str_of_int, pretty, pretty_Z. destruct n as [|p|p]; [done| |done].
  apply Hpos.
Qed.

(** The bytes [data || counter] determine the data for a given counter and
    the counter for given data. *)
Lemma message_bytes_data_inj message message' counter :
  Crypto.message_bytes message counter = Crypto.message_bytes message' counter →
  message = message'.
Proof.
  unfold Crypto.message_bytes. intros Heq%app_inv_tail. by apply encode_inj.
Qed.

Lemma message_bytes_counter_inj message counter counter' :
  Crypto.message_bytes message counter = Crypto.message_bytes message counter' →
  counter = counter'.
Proof.
  unfold Crypto.message_bytes, str_of_int.
  intros Heq%app_inv_head%encode_inj. by apply (inj pretty).
Qed.

(** The bytes of the data alone are never the bytes [data || counter]. *)
Lemma data_bytes_ne_message_bytes message counter :
  encode message ≠ Crypto.message_bytes message counter.
Proof.
  unfold Crypto.message_bytes. intros Heq.
  apply (f_equal length) in Heq. rewrite length_app in Heq.
  assert (Hlen : length (encode (str_of_int counter)) = 0%nat) by lia.
  apply nil_length_inv in Hlen.
  apply (str_of_int_nonempty counter), encode_inj. by rewrite Hlen.
Qed.

(** The verdict is the one RSA-PSS gives on the decoded signature and the
    bytes [data || counter]. *)
Lemma verify_signature_decoded pk signature raw message counter :
  Base64.b64decode signature = Returned raw →
  Crypto.verify_signature pk signature message counter
  = Returned (pss_verify pk raw (Crypto.message_bytes message counter)).
Proof.
  intros Hd. unfold Crypto.verify_signature. mexec. rewrite Hd.
  by destruct (pss_verify _ _ _).
Qed.

Lemma verify_signature_signed sk salt message counter message' counter' :
  Crypto.verify_signature (public_of sk)
    (Crypto.sign_message salt message counter sk) message' counter'
  = Returned (pss_verify (public_of sk)
                (pss_sign sk salt (Crypto.message_bytes message counter))
                (Crypto.message_bytes message' counter')).
Proof.
  apply verify_signature_decoded. unfold Crypto.sign_message.
  apply b64decode_b64encode.
Qed.

(** C3, amended. For every data string, counter and key pair,
    [verify_signature] returns [True] for the signature that [sign_message]
    makes. Presented with other data or another counter, it returns,
    without raising, the verdict of RSA-PSS on that signature and the bytes
    [data || counter] of its arguments. Changing the data alone or the
    counter alone always changes these bytes, so such a change is accepted
    only if RSA-PSS accepts the signature for a byte string other than the
    signed one. A changed signature string is judged by the bytes it
    decodes to: the result is the verdict of RSA-PSS on these bytes, the
    error of [b64decode] is raised when it does not decode, and the
    signature followed by a line feed, a different string with the same
    bytes, still verifies. *)
Theorem sign_verify_round_trip_and_mutations
    (sk : RSAPrivateKey) (salt : list byte) (data : string) (counter : Z) :
  let pk := public_of sk in
  let signature := Crypto.sign_message salt data counter sk in
  let signed := Crypto.message_bytes data counter in
  Crypto.verify_signature pk signature data counter = Returned true
  ∧ (∀ data' counter',
       Crypto.verify_signature pk signature data' counter'
       = Returned (pss_verify pk (pss_sign sk salt signed)
                     (Crypto.message_bytes data' counter')))
  ∧ (∀ data', data' ≠ data → Crypto.message_bytes data' counter ≠ signed)
  ∧ (∀ counter', counter' ≠ counter →
       Crypto.message_bytes data counter' ≠ signed)
  ∧ (∀ data' counter',
       (data' ≠ data ∧ counter' = counter)
       ∨ (data' = data ∧ counter' ≠ counter) →
       Crypto.verify_signature pk signature data' counter' = Returned true →
       ∃ other, other ≠ signed
                ∧ pss_verify pk (pss_sign sk salt signed) other = true)
  ∧ (∀ signature' raw, Base64.b64decode signature' = Returned raw →
       Crypto.verify_signature pk signature' data counter
       = Returned (pss_verify pk raw (Crypto.message_bytes data counter)))
  ∧ (∀ signature' e, Base64.b64decode signature' = Raised e →
       Crypto.verify_signature pk signature' data counter = Raised e)
  ∧ Crypto.verify_signature pk
      (signature +:+ String (Ascii.ascii_of_nat 10) EmptyString) data counter
    = Returned true.
Proof.
  intros pk signature signed. subst pk signature signed.
  assert (Hok : Crypto.verify_signature (public_of sk)
                  (Crypto.sign_message salt data counter sk) data counter
                = Returned true).
  { by rewrite verify_signature_signed, pss_correct. }
  assert (Hdata : ∀ data', data' ≠ data →
            Crypto.message_bytes data' counter
            ≠ Crypto.message_bytes data counter).
  { intros data' Hne Heq. by apply Hne, (message_bytes_data_inj _ _ counter). }
  assert (Hcounter : ∀ counter', counter' ≠ counter →
            Crypto.message_bytes data counter'
            ≠ Crypto.message_bytes data counter).
  { intros counter' Hne Heq.
    by apply Hne, (message_bytes_counter_inj data). }
  split; [exact Hok|]. split; [|split; [|split; [|split; [|split; [|split]]]]].
  - intros data' counter'. apply verify_signature_signed.
  - exact Hdata.
  - exact Hcounter.
  - intros data' counter' Hchanged Hv.
    rewrite verify_signature_signed in Hv. injection Hv as Hv.
    exists (Crypto.message_bytes data' counter'). split; [|exact Hv].
    destruct Hchanged as [[Hne ->]|[-> Hne]]; [by apply Hdata|by apply Hcounter].
  - intros signature' raw. apply verify_signature_decoded.
  - intros signature' e Hd. unfold Crypto.verify_signature. mexec.
    by rewrite Hd.
  - unfold Crypto.verify_signature in *. by rewrite b64decode_line_feed.
Qed.
End signature_facts.

(** The witness of C3: the key [key], the data [hi] and the counter 5. The
    provider of the fixture accepts a signature for the signed bytes
    only, and the changed data and the changed counter are rejected. *)
Lemma sign_verify_witness :
  let sk : RSAPrivateKey (Provider := Fixture.toy) := encode "key" in
  let signature := Crypto.sign_message [] "hi" 5 sk in
  Crypto.verify_signature (public_of sk) signature "hi" 5 = Returned true
  ∧ Crypto.verify_signature (public_of sk) signature "ho" 5 = Returned false
  ∧ Crypto.verify_signature (public_of sk) signature "hi" 6 = Returned false
  ∧ Crypto.message_bytes "ho" 5 ≠ Crypto.message_bytes "hi" 5
  ∧ Crypto.message_bytes "hi" 6 ≠ Crypto.message_bytes "hi" 5.
Proof.
  intros sk signature.
  destruct (sign_verify_round_trip_and_mutations sk [] "hi" 5)
    as (Hok & Hverdict & Hdata & Hcounter & _).
  split; [exact Hok|]. split; [exact (Hverdict "ho" 5%Z)|].
  split; [exact (Hverdict "hi" 6%Z)|]. split.
  - apply Hdata. by intros [=].
  - apply Hcounter. by intros [=].
Defined.

(** C3 as stated does not hold. For the signature: here are a signature
    string and two changed strings, one that still verifies (a line feed
    appended) and one on which [verify_signature] raises the error of
    [b64decode] and returns nothing. For the data and the counter: a
    provider that signs a digest of the message, as RSA-PSS does, accepts
    the signature for changed data and for a changed counter whose bytes
    have the digest of the signed ones. *)
Lemma changed_input_is_not_always_rejected :
  let sk : RSAPrivateKey (Provider := Fixture.toy) := encode "key" in
  let signature := Crypto.sign_message [] "hi" 5 sk in
  let longer := signature +:+ String (Ascii.ascii_of_nat 10) EmptyString in
  let shorter := "a" in
  let sk' : RSAPrivateKey (Provider := Fixture.digesting) := encode "key" in
  let signature' :=
    Crypto.sign_message (H := Fixture.digesting) [] "ab" 14 sk' in
  signature = "a2V5aGk1"
  ∧ longer ≠ signature
  ∧ Crypto.verify_signature (public_of sk) longer "hi" 5 = Returned true
  ∧ shorter ≠ signature
  ∧ Crypto.verify_signature (public_of sk) shorter "hi" 5 = Raised BinasciiError
  ∧ ¬ (∀ signature', signature' ≠ signature →
         Crypto.verify_signature (public_of sk) signature' "hi" 5
         = Returned false)
  ∧ Crypto.verify_signature (H := Fixture.digesting) (public_of sk')
      signature' "ba" 14 = Returned true
  ∧ Crypto.verify_signature (H := Fixture.digesting) (public_of sk')
      signature' "ab" 23 = Returned true
  ∧ ¬ (∀ data', data' ≠ "ab" →
         Crypto.verify_signature (H := Fixture.digesting) (public_of sk')
           signature' data' 14 = Returned false)
  ∧ ¬ (∀ counter', counter' ≠ 14%Z →
         Crypto.verify_signature (H := Fixture.digesting) (public_of sk')
           signature' "ab" counter' = Returned false).
Proof.
  intros sk signature longer shorter sk' signature'.
  assert (Hne : longer ≠ signature) by (by vm_compute).
  assert (Hv : Crypto.verify_signature (public_of sk) longer "hi" 5
               = Returned true) by (by vm_compute).
  assert (Hd : Crypto.verify_signature (H := Fixture.digesting) (public_of sk')
                 signature' "ba" 14 = Returned true) by (by vm_compute).
  assert (Hc : Crypto.verify_signature (H := Fixture.digesting) (public_of sk')
                 signature' "ab" 23 = Returned true) by (by vm_compute).
  split; [by vm_compute|]. split; [exact Hne|]. split; [exact Hv|].
  split; [by vm_compute|]. split; [by vm_compute|].
  split; [intros Hclaim; specialize (Hclaim longer Hne); congruence|].
  split; [exact Hd|]. split; [exact Hc|]. split.
  - intros Hclaim. specialize (Hclaim "ba" ltac:(by intros [=])). congruence.
  - intros Hclaim. specialize (Hclaim 23%Z ltac:(by intros [=])). congruence.
Qed.

(** ** What the senders sign ([Client.send_message], [send_server_hello]) *)

Section sender_facts.
Context `{Provider} `{World}.

(** C4 on the code. The envelope a client sends for [hello] and for
    [public_chat] carries a signature over the bytes of the serialised data
    alone; these bytes are never the concatenation of the serialised data
    and the decimal counter. The [server_hello] of a server acting as a
    client is signed over that concatenation. *)
Theorem client_signature_leaves_out_the_counter :
  (∀ (self : Client.Client) salt content,
      let data := JObj [("type", JStr "hello");
                        ("public_key",
                         JStr (decode (Client.export_public_key self)))] in
      (Client.send_message salt content "hello" self).1
      = Returned (Some (client_envelope self salt data)))
  ∧ (∀ (self : Client.Client) salt content,
      let data := JObj [("type", JStr "public_chat");
                        ("sender", JStr (Client.fingerprint self));
                        ("message", JStr content)] in
      (Client.send_message salt content "public_chat" self).1
      = Returned (Some (client_envelope self salt data)))
  ∧ (∀ (data : json) counter,
      encode (json_dumps data)
      ≠ Crypto.message_bytes (json_dumps data) counter)
  ∧ (∀ (st : State.t) ws,
      let st1 := with_self (with_counter (λ c, c + 1)%Z) st in
      Neighbourhood.send_server_hello ws st
      = (Returned tt,
         if alive ws
         then record_send ws
                (server_hello_envelope st (counter (self st) + 1)) st1
         else st1)).
Proof.
  split; [|split; [|split]].
  - intros self salt content data. reflexivity.
  - intros self salt content data. reflexivity.
  - intros data counter. apply data_bytes_ne_message_bytes.
  - intros st ws st1. unfold Neighbourhood.send_server_hello,
      Neighbourhood.send_request, ws_send. mexec.
    by destruct (alive ws).
Qed.
End sender_facts.

(** The envelope of a client's [hello] does not verify with
    [verify_signature] over its data and counter; the [server_hello] of a
    server does. *)
Lemma client_hello_does_not_verify :
  let W := Fixture.calm in
  let client := Client.init (H := Fixture.toy) "localhost:8080" (encode "key-C") in
  let data := Fixture.hello "key-C" in
  let envelope := client_envelope client [] data in
  let st := Fixture.start "localhost:8080" in
  (Client.send_message [] "" "hello" client).1 = Returned (Some envelope)
  ∧ py_get envelope "signature" = Returned (JStr "a2V5LUN7InR5cGUiOiAiaGVsbG8iLCAicHVibGljX2tleSI6ICJrZXktQyJ9")
  ∧ Crypto.verify_signature (Client.public_key client)
      "a2V5LUN7InR5cGUiOiAiaGVsbG8iLCAicHVibGljX2tleSI6ICJrZXktQyJ9"
      (json_dumps data) (Client.counter client) = Returned false
  ∧ py_get (server_hello_envelope st 1) "signature"
    = Returned (JStr (Crypto.sign_message []
                        (json_dumps (Fixture.server_hello "localhost:8080")) 1
                        (private_key (self st))))
  ∧ Crypto.verify_signature (public_of (private_key (self st)))
      (Crypto.sign_message []
         (json_dumps (Fixture.server_hello "localhost:8080")) 1
         (private_key (self st)))
      (json_dumps (Fixture.server_hello "localhost:8080")) 1 = Returned true.
Proof.
  intros W client data envelope st. repeat split; by vm_compute.
Qed.

(** ** Hybrid encryption ([message.py]) *)

Section message_facts.
Context `{Provider} `{World}.

(** What [encrypt_chat_message] stores is the ciphertext alone: the tag of
    the encryptor is not part of it. *)
Lemma encrypt_chat_message_stores_ciphertext
    (m : Message.Message) urandom16 urandom32 receivers :
  length urandom16 = 16%nat → length urandom32 = 32%nat →
  let chat_data :=
    JObj [("participants", JList (JStr <$> Message.participants m));
          ("message", JStr (Message.content m))] in
  let m' := (Message.encrypt_chat_message urandom16 urandom32 receivers m).2 in
  Message.iv m' = Message.PBytes urandom16
  ∧ Message.encrypted_content m'
    = Message.PBytes (gcm_encrypt urandom32 urandom16
                        (encode (json_dumps chat_data))).
Proof.
  intros H16 H32 chat_data m'. subst m' chat_data.
  unfold Message.encrypt_chat_message, Message.AES, Message.GCM. mexec.
  rewrite H16, H32. simpl. rewrite app_nil_r.
  set (m1 := Message.set_encrypted_content _ _).
  assert (Hkeep : ∀ m0,
            Message.iv (Message.wrap_for receivers urandom32 m0).2
            = Message.iv m0
            ∧ Message.encrypted_content
                (Message.wrap_for receivers urandom32 m0).2
              = Message.encrypted_content m0).
  { clear. induction receivers as [|[pk seed] rest IH]; intros m0; [done|].
    simpl. mexec. destruct (Message.encrypt_key pk seed urandom32); [|done].
    simpl. specialize (IH (Message.append_symm_key a m0)).
    destruct (Message.wrap_for rest urandom32 _) as [o m2]. done. }
  destruct (Hkeep m1) as [Hiv Hct]. done.
Qed.

(** C5 on the code. [decrypt_chat_message] returns on no message and no
    key: it raises on the key, on the initialisation vector, on [encode]
    (the stored ciphertext is a bytes object), or it raises [ValueError] at
    [finalize] for want of a tag. [decrypt_key] raises [AttributeError] on
    a message made by the constructor, which has no [private_key], and
    returns on no string, which is what [encrypt_key] produces. *)
Theorem hybrid_decryption_never_returns :
  (∀ (m : Message.Message) key,
      ∃ e, (Message.decrypt_chat_message key m).1 = Raised e)
  ∧ (∀ (m : Message.Message) key ciphertext,
      Message.encrypted_content m = Message.PBytes ciphertext →
      length key = 32%nat → (∃ iv, Message.iv m = Message.PBytes iv
                                   ∧ length iv = 16%nat) →
      (Message.decrypt_chat_message key m).1 = Raised AttributeError)
  ∧ (∀ content aesKey,
      Message.decrypt_key aesKey (Message.init content)
      = (Raised AttributeError, Message.init content))
  ∧ (∀ (m : Message.Message) wrapped,
      ∃ e, (Message.decrypt_key (Message.PStr wrapped) m).1 = Raised e).
Proof.
  split; [|split; [|split]].
  - intros m key. unfold Message.decrypt_chat_message. mexec.
    destruct (Message.AES key) as [k|e]; [|by eexists]. simpl.
    destruct (Message.GCM (Message.iv m)) as [nonce|e]; [|by eexists]. simpl.
    destruct (Message.py_encode (Message.encrypted_content m)) as [data|e];
      by eexists.
  - intros m key ciphertext Hct Hkey (iv & Hiv & Hlen).
    unfold Message.decrypt_chat_message, Message.AES, Message.GCM. mexec.
    by rewrite Hkey, Hiv, Hlen, Hct.
  - done.
  - intros m wrapped. unfold Message.decrypt_key. mexec.
    destruct (Message.private_key m); by eexists.
Qed.
End message_facts.

(** The witness of C5: a message is encrypted for one receiver and then
    decrypted with the key it was encrypted with. *)
Lemma hybrid_decryption_witness :
  let W := Fixture.calm in
  let key := encode "0123456789abcdef0123456789abcdef" in
  let iv := encode "0123456789abcdef" in
  let receiver : RSAPublicKey (Provider := Fixture.toy) := encode "key-D" in
  let m := (Message.encrypt_chat_message iv key [(receiver, [])]
              (Message.init "hi")).2 in
  Message.encrypted_content m
  = Message.PBytes (encode (json_dumps
      (JObj [("participants", JList []); ("message", JStr "hi")])))
  ∧ length key = 32%nat
  ∧ (∃ iv, Message.iv m = Message.PBytes iv ∧ length iv = 16%nat)
  ∧ (Message.decrypt_chat_message key m).1 = Raised AttributeError
  ∧ (∃ wrapped, Message.symm_keys m = [wrapped]
       ∧ (Message.decrypt_key (Message.PStr wrapped) m).1
         = Raised AttributeError).
Proof.
  intros W key iv receiver m.
  assert (Hct : Message.encrypted_content m
                = Message.PBytes (encode (json_dumps
                    (JObj [("participants", JList []);
                           ("message", JStr "hi")])))) by (by vm_compute).
  assert (Hkey : length key = 32%nat) by reflexivity.
  assert (Hiv : ∃ iv, Message.iv m = Message.PBytes iv ∧ length iv = 16%nat).
  { exists iv. split; by vm_compute. }
  split; [exact Hct|]. split; [exact Hkey|]. split; [exact Hiv|]. split.
  - exact (proj1 (proj2 hybrid_decryption_never_returns) m key _ Hct Hkey Hiv).
  - eexists. split; by vm_compute.
Defined.

(** ** The server does not check envelopes ([handle_message]) *)

(** C1 on the code. A client registers with its key, a second client
    registers, and an envelope arrives on the link of the first client with
    a signature that [verify_signature] rejects under the registered key:
    [handle_message] returns and the envelope has been delivered to the
    second client. *)
Lemma envelope_with_bad_signature_is_dispatched :
  let W := Fixture.calm in
  let st := Fixture.run [(Fixture.c1, Fixture.hello_C);
                         (Fixture.c2, Fixture.hello_D)]
              (Fixture.start "localhost:8080") in
  let result :=
    Server.handle_message Fixture.c1 (Fixture.dumps Fixture.chat_7) st in
  dict_get (local_clients st) Fixture.c1 = Some [("public_key", JStr "PEM-C")]
  ∧ Crypto.verify_signature (H := Fixture.toy) (encode "PEM-C") "AAAA"
      (json_dumps (Fixture.public_chat "fp-C" "hi")) 7 = Returned false
  ∧ result.1 = Returned tt
  ∧ sent result.2 = sent st ++ [(Fixture.c2, Fixture.chat_7)].
Proof.
  intros W st result. repeat split; by vm_compute.
Qed.

(** C2 on the code. After a [hello] with counter 3 and a [public_chat]
    with counter 7 on the same link, the envelope with counter 7 is handled
    again, and so is one with counter 5: both are delivered to the other
    client like the first, and the server holds no counter for the
    client. *)
Lemma envelope_with_old_counter_is_dispatched :
  let W := Fixture.calm in
  let st := Fixture.run [(Fixture.c2, Fixture.hello_D);
                         (Fixture.c1, Fixture.hello_C);
                         (Fixture.c1, Fixture.chat_7)]
              (Fixture.start "localhost:8080") in
  let again :=
    Server.handle_message Fixture.c1 (Fixture.dumps Fixture.chat_7) st in
  let lower :=
    Server.handle_message Fixture.c1 (Fixture.dumps Fixture.chat_5) again.2 in
  py_get Fixture.hello_C "counter" = Returned (JInt 3)
  ∧ py_get Fixture.chat_7 "counter" = Returned (JInt 7)
  ∧ py_get Fixture.chat_5 "counter" = Returned (JInt 5)
  ∧ sends_to Fixture.c2 (sent st) = [Fixture.chat_7]
  ∧ again.1 = Returned tt
  ∧ sends_to Fixture.c2 (sent again.2) = [Fixture.chat_7; Fixture.chat_7]
  ∧ lower.1 = Returned tt
  ∧ sends_to Fixture.c2 (sent lower.2)
    = [Fixture.chat_7; Fixture.chat_7; Fixture.chat_5]
  ∧ dict_get (local_clients lower.2) Fixture.c1
    = Some [("public_key", JStr "PEM-C"); ("fingerprint", JStr "fp-C")].
Proof.
  intros W st again lower. repeat split; by vm_compute.
Qed.

(** * Further properties of the code *)

(** ** The list of neighbour URLs ([add_neighbour_servers]) *)

Section neighbour_list_facts.
Context `{Provider}.

Lemma add_urls_elem_of urls current (u : string) :
  u ∈ Server.add_urls urls current ↔ u ∈ current ∨ u ∈ urls.
Proof.
  revert current. induction urls as [|url rest IH]; intros current; simpl.
  - rewrite elem_of_nil. tauto.
  - rewrite IH, elem_of_cons. case_bool_decide as Hin.
    + split; [tauto|]. intros [?|[->|?]]; tauto.
    + rewrite elem_of_app, list_elem_of_singleton. tauto.
Qed.

Lemma add_urls_prefix urls (current : list string) :
  current `prefix_of` Server.add_urls urls current.
Proof.
  revert current. induction urls as [|url rest IH]; intros current; simpl.
  - done.
  - case_bool_decide; [apply IH|].
    etrans; [|apply IH]. by apply prefix_app_r.
Qed.

Lemma add_urls_NoDup urls (current : list string) :
  NoDup current → NoDup (Server.add_urls urls current).
Proof.
  revert current. induction urls as [|url rest IH]; intros current Hnd; simpl.
  - done.
  - apply IH. case_bool_decide as Hin; [done|].
    apply NoDup_app. repeat split; [done| |apply NoDup_singleton].
    intros x Hx ->%list_elem_of_singleton. done.
Qed.

Lemma add_urls_absorb urls (current : list string) :
  (∀ u, u ∈ urls → u ∈ current) → Server.add_urls urls current = current.
Proof.
  revert current. induction urls as [|url rest IH]; intros current Hall; simpl.
  - done.
  - rewrite bool_decide_eq_true_2 by (apply Hall; left).
    apply IH. intros u Hu. apply Hall. by right.
Qed.

(** X1. [add_neighbour_servers] keeps the URLs it has, in their places,
    and appends those of its argument that are new, each once: a list
    without duplicates stays so, and adding the same URLs again changes
    nothing. *)
Theorem add_neighbour_servers_appends_new_urls_once
    (st : State.t) (server_urls : list string) :
  let st' := (Server.add_neighbour_servers server_urls st).2 in
  (∀ u, u ∈ neighbour_servers (self st')
        ↔ u ∈ neighbour_servers (self st) ∨ u ∈ server_urls)
  ∧ neighbour_servers (self st) `prefix_of` neighbour_servers (self st')
  ∧ (NoDup (neighbour_servers (self st)) →
     NoDup (neighbour_servers (self st')))
  ∧ (Server.add_neighbour_servers server_urls st').2 = st'.
Proof.
  intros st'. subst st'. unfold Server.add_neighbour_servers. mexec.
  split; [|split; [|split]].
  - intros u. apply add_urls_elem_of.
  - apply add_urls_prefix.
  - apply add_urls_NoDup.
  - destruct st as [[u ns nw nb cl c sk] tr n].
    unfold with_self, with_neighbour_servers; simpl. do 2 f_equal.
    apply add_urls_absorb. intros x Hx. apply add_urls_elem_of. by right.
Qed.
End neighbour_list_facts.

(** The witness of X1: one URL is known, and the list of the command line
    names it again beside a new one, twice. *)
Lemma add_neighbour_servers_witness :
  let st := (Server.add_neighbour_servers ["localhost:8081"]
               (Fixture.start "localhost:8080")).2 in
  let st' := (Server.add_neighbour_servers
                ["localhost:8082"; "localhost:8081"; "localhost:8082"] st).2 in
  NoDup (neighbour_servers (self st))
  ∧ NoDup (neighbour_servers (self st'))
  ∧ neighbour_servers (self st') = ["localhost:8081"; "localhost:8082"].
Proof.
  intros st st'.
  assert (Hnd : NoDup (neighbour_servers (self st))) by compute_done.
  split; [exact Hnd|]. split; [|reflexivity].
  exact (proj1 (proj2 (proj2 (add_neighbour_servers_appends_new_urls_once st
           ["localhost:8082"; "localhost:8081"; "localhost:8082"]))) Hnd).
Defined.

(** ** The client's view of the roster ([Client.handle_client_list]) *)

Section inbox_facts.
Context `{Provider} `{World}.

Lemma dict_set_fresh {K V} `{EqDecision K} (d : list (K * V)) k v :
  k ∉ dict_keys d → dict_set d k v = d ++ [(k, v)].
Proof.
  unfold dict_keys. induction d as [|[k0 v0] d IH]; csimpl; intros Hk.
  - done.
  - apply not_elem_of_cons in Hk as [Hne Hk].
    rewrite decide_False by done. by rewrite IH.
Qed.

(** Storing the entries of a reply one after the other. *)
Lemma store_servers_entries (entries : list (string * json))
    (online_users : list (string * json)) :
  Forall (λ entry, Client.py_len entry.2 = Returned tt) entries →
  Client.store_servers
    ((λ item, JObj [("address", JStr item.1); ("clients", item.2)]) <$> entries)
    online_users
  = (Returned tt,
     foldl (λ d entry, dict_set d entry.1 entry.2) online_users entries).
Proof.
  revert online_users.
  induction entries as [|[address clients] rest IH]; intros online_users Hlen.
  - done.
  - apply Forall_cons in Hlen as [Hc Hrest]. simpl in Hc.
    csimpl. mexec. rewrite Hc. simpl. by apply IH.
Qed.

Lemma foldl_dict_set_fresh (entries pre : list (string * json)) :
  NoDup (dict_keys (pre ++ entries)) →
  foldl (λ d entry, dict_set d entry.1 entry.2) pre entries = pre ++ entries.
Proof.
  revert pre. induction entries as [|[k v] rest IH]; intros pre Hnd; simpl.
  - by rewrite app_nil_r.
  - assert (Hk : k ∉ dict_keys pre).
    { unfold dict_keys in *. rewrite fmap_app in Hnd.
      apply NoDup_app in Hnd as (_ & Hdisj & _).
      intros Hin. apply (Hdisj _ Hin). csimpl. left. }
    rewrite dict_set_fresh by done.
    rewrite IH; [by rewrite <- app_assoc|].
    by rewrite <- app_assoc.
Qed.

(** X2. What the server lists is what the client stores. When the reply
    to a [client_list_request] goes out, and every client list of the
    roster is a list, an object or a string (something with a length), a
    client that had no online users and handles the reply returns with
    [online_users] equal to the roster of the server, entry for entry and
    in the same order. *)
Theorem client_stores_the_roster_the_server_lists
    (st : State.t) (ws : websocket) :
  alive ws = true →
  NoDup (dict_keys (roster st)) →
  Forall (λ entry, Client.py_len entry.2 = Returned tt) (roster st) →
  ∃ reply,
    Server.send_client_list ws st = (Returned tt, record_send ws reply st)
    ∧ Client.handle_message reply [] = (Returned tt, roster st).
Proof.
  intros Ha Hnd Hlen. eexists. split.
  - by apply send_client_list_lists_roster.
  - unfold Client.handle_message, Client.handle_client_list. mexec.
    rewrite store_servers_entries by done.
    by rewrite foldl_dict_set_fresh.
Qed.

Lemma foldl_dict_set_other (entries online_users : list (string * json))
    (address : string) :
  address ∉ dict_keys entries →
  dict_get (foldl (λ d entry, dict_set d entry.1 entry.2) online_users entries)
    address
  = dict_get online_users address.
Proof.
  revert online_users.
  induction entries as [|[k v] rest IH]; intros online_users Hk; [done|].
  unfold dict_keys in Hk. csimpl in Hk.
  apply not_elem_of_cons in Hk as [Hne Hk]. simpl.
  rewrite IH by done. by apply dict_get_set_ne.
Qed.

(** X3. [handle_client_list] on a message without [servers] (or with
    [servers] null) returns and leaves [online_users] as it is; on a list
    of well-formed entries it returns after assigning every entry, in the
    order of the list, to [online_users]: the state it leaves is the one
    of these assignments. So the users of an address the message does not
    name stay, and for every address it names the clients of the last
    entry with that address are kept. *)
Theorem handle_client_list_assigns_in_order
    (online_users : list (string * json)) :
  (∀ data fields, data = JObj fields → dict_get fields "servers" = None →
     Client.handle_client_list data online_users = (Returned tt, online_users))
  ∧ (∀ type entries,
       Forall (λ entry, Client.py_len entry.2 = Returned tt) entries →
       let data :=
         JObj [("type", type);
               ("servers",
                JList ((λ item, JObj [("address", JStr item.1);
                                      ("clients", item.2)]) <$> entries))] in
       let result := Client.handle_client_list data online_users in
       result
       = (Returned tt,
          foldl (λ users entry, dict_set users entry.1 entry.2)
            online_users entries)
       ∧ (∀ address, address ∉ dict_keys entries →
            dict_get result.2 address = dict_get online_users address)
       ∧ (∀ before address clients after,
            entries = before ++ (address, clients) :: after →
            address ∉ dict_keys after →
            dict_get result.2 address = Some clients)).
Proof.
  split.
  - intros data fields -> Hf. unfold Client.handle_client_list. mexec.
    by rewrite Hf.
  - intros type entries Hlen data result. subst data result.
    unfold Client.handle_client_list. mexec.
    rewrite store_servers_entries by done. simpl.
    split; [done|]. split.
    + intros address Hk. by apply foldl_dict_set_other.
    + intros before address clients after -> Hafter.
      rewrite foldl_app. simpl. rewrite foldl_dict_set_other by done.
      apply dict_get_set_eq.
Qed.
End inbox_facts.

(** The witness of X2: a server that holds the list of one peer. *)
Lemma client_stores_the_roster_witness :
  let st := @Fixture.run Fixture.federated
              [(Fixture.n3, Fixture.peer_hello); (Fixture.n3, Fixture.update_D);
               (Fixture.c1, Fixture.hello_C)]
              (Fixture.start "localhost:8080") in
  let W := Fixture.calm in
  alive Fixture.c1 = true
  ∧ NoDup (dict_keys (roster st))
  ∧ Forall (λ entry, Client.py_len entry.2 = Returned tt) (roster st)
  ∧ ∃ reply,
      Server.send_client_list Fixture.c1 st
      = (Returned tt, record_send Fixture.c1 reply st)
      ∧ Client.handle_message reply []
        = (Returned tt, [("localhost:8081", JList [JStr "PEM-D"])]).
Proof.
  intros st W.
  assert (Ha : alive Fixture.c1 = true) by reflexivity.
  assert (Hr : roster st = [("localhost:8081", JList [JStr "PEM-D"])])
    by (by vm_compute).
  assert (Hnd : NoDup (dict_keys (roster st))).
  { rewrite Hr. compute_done. }
  assert (Hlen : Forall (λ entry, Client.py_len entry.2 = Returned tt)
                   (roster st)).
  { rewrite Hr. by repeat constructor. }
  split; [exact Ha|]. split; [exact Hnd|]. split; [exact Hlen|].
  destruct (client_stores_the_roster_the_server_lists st Fixture.c1 Ha Hnd Hlen)
    as (reply & Hsend & Hstore).
  exists reply. split; [exact Hsend|]. by rewrite Hstore, Hr.
Defined.

(** The witness of X3: two entries for one address, followed by an entry
    for another. *)
Lemma handle_client_list_witness :
  let entries := [("localhost:8081", JList [JStr "PEM-D"]);
                  ("localhost:8081", JList []);
                  ("localhost:8083", JList [JStr "PEM-F"])] in
  let data :=
    JObj [("type", JStr "client_list");
          ("servers",
           JList ((λ item, JObj [("address", JStr item.1);
                                 ("clients", item.2)]) <$> entries))] in
  let result :=
    Client.handle_client_list data [("localhost:8082", JList [JStr "PEM-E"])] in
  Forall (λ entry, Client.py_len entry.2 = Returned tt) entries
  ∧ result.2 = [("localhost:8082", JList [JStr "PEM-E"]);
                ("localhost:8081", JList []);
                ("localhost:8083", JList [JStr "PEM-F"])]
  ∧ dict_get result.2 "localhost:8081" = Some (JList []).
Proof.
  intros entries data result.
  assert (Hlen : Forall (λ entry, Client.py_len entry.2 = Returned tt) entries)
    by (by repeat constructor).
  destruct (proj2 (handle_client_list_assigns_in_order
                     [("localhost:8082", JList [JStr "PEM-E"])])
              (JStr "client_list") entries Hlen) as (Hall & _ & Hlast).
  split; [exact Hlen|]. split.
  - exact (f_equal snd Hall).
  - apply (Hlast [("localhost:8081", JList [JStr "PEM-D"])] _ _
             [("localhost:8083", JList [JStr "PEM-F"])] eq_refl).
    compute_done.
Defined.

(** ** The handlers as sequences of elementary changes *)

Section moves_facts.
Context `{Provider} `{World} (ingest : bool).

Lemma moves_ret {A} (a : A) (st : State.t) : moves ingest (mret a) st.
Proof. apply rtc_refl. Qed.

Lemma moves_raise {A} (e : exn) (st : State.t) : moves ingest (raise (A := A) e) st.
Proof. apply rtc_refl. Qed.

Lemma moves_lift {A} (o : outcome A) (st : State.t) : moves ingest (lift o) st.
Proof. apply rtc_refl. Qed.

Lemma moves_bind {A B} (m : M State.t A) (f : A → M State.t B) (st : State.t) :
  moves ingest m st →
  (∀ a, (m st).1 = Returned a → moves ingest (f a) (m st).2) →
  moves ingest (m ≫= f) st.
Proof.
  unfold moves. mexec. intros Hm Hf.
  destruct (m st) as [[a|e] st1]; simpl in *; [|done].
  etrans; [exact Hm|]. by apply Hf.
Qed.

Lemma moves_get {B} (f : State.t → M State.t B) (st : State.t) :
  moves ingest (f st) st → moves ingest (get_state ≫= f) st.
Proof. intros Hf. apply moves_bind; [apply rtc_refl|]. by intros a [= <-]. Qed.

Lemma moves_modify (f : State.t → State.t) (st : State.t) :
  step ingest st (f st) → moves ingest (modify f) st.
Proof. intros Hs. by apply rtc_once. Qed.

Lemma moves_try {A} (body : M State.t A) caught (handler : exn → M State.t A)
    (st : State.t) :
  moves ingest body st →
  (∀ e, (body st).1 = Raised e → moves ingest (handler e) (body st).2) →
  moves ingest (try_except body caught handler) st.
Proof.
  unfold moves, try_except. intros Hb Hh.
  destruct (body st) as [[a|e] st1]; simpl in *; [done|].
  destruct (caught e); simpl; [|done].
  etrans; [exact Hb|]. by apply Hh.
Qed.

Lemma ws_send_moves w message (st : State.t) : moves ingest (ws_send w message) st.
Proof.
  unfold moves, ws_send. destruct (alive w); simpl;
    [apply rtc_once, step_send | apply rtc_refl].
Qed.

Lemma send_request_moves w message wait (st : State.t) :
  moves ingest (Neighbourhood.send_request w message wait) st.
Proof.
  unfold Neighbourhood.send_request. apply moves_try.
  - apply moves_bind; [apply ws_send_moves|]. intros _ _.
    destruct wait; [|apply moves_ret].
    destruct (recv w) as [response|]; [|apply moves_raise].
    destruct (json_loads response); [apply moves_ret | apply moves_raise].
  - intros e _. apply moves_ret.
Qed.

Lemma broadcast_loop_moves links message wait acc (st : State.t) :
  moves ingest (Neighbourhood.broadcast_loop links message wait acc) st.
Proof.
  revert acc st. induction links as [|w links IH]; intros acc st; simpl.
  - apply moves_ret.
  - apply moves_bind; [apply send_request_moves|]. intros response _. apply IH.
Qed.

Lemma broadcast_request_moves message wait (st : State.t) :
  moves ingest (Neighbourhood.broadcast_request message wait) st.
Proof.
  unfold Neighbourhood.broadcast_request. apply moves_get.
  apply broadcast_loop_moves.
Qed.

Lemma send_server_hello_moves w (st : State.t) :
  moves ingest (Neighbourhood.send_server_hello w) st.
Proof.
  unfold Neighbourhood.send_server_hello. apply moves_get.
  apply moves_bind; [apply moves_modify, step_count|]. intros _ _.
  apply moves_get.
  apply moves_bind; [apply send_request_moves|]. intros _ _. apply moves_ret.
Qed.

Lemma remove_active_server_moves url (st : State.t) :
  moves ingest (Neighbourhood.remove_active_server url) st.
Proof.
  unfold Neighbourhood.remove_active_server. apply moves_get.
  destruct (Neighbourhood.find_active_server _ _) as [w|]; [|apply moves_ret].
  apply moves_modify, step_deactivate.
Qed.

Lemma connect_to_neighbour_moves url (st : State.t) :
  moves ingest (Server.connect_to_neighbour url) st.
Proof.
  unfold Server.connect_to_neighbour, Server.already_active.
  apply moves_get.
  case_bool_decide as Hin; [apply moves_ret|].
  apply moves_bind; [apply moves_modify, step_dial|]. intros _ _.
  unfold Server.connect_after_dial.
  apply moves_try; [|intros e _; apply moves_ret].
  destruct (dial (dials st) url) as [w|]; [|apply moves_raise].
  unfold Neighbourhood.add_active_server.
  apply moves_bind; [by apply moves_modify, step_activate|]. intros _ _.
  apply send_server_hello_moves.
Qed.

Lemma send_response_moves w message (st : State.t) :
  moves ingest (Server.send_response w message) st.
Proof.
  unfold Server.send_response. apply moves_try; [apply ws_send_moves|].
  intros e _. apply moves_get.
  destruct (dict_contains _ _); [apply moves_modify, step_drop_client|].
  destruct (neighbour_websockets _ !! w) as [url|]; [|apply moves_ret].
  apply remove_active_server_moves.
Qed.

Lemma receive_server_hello_moves w data (st : State.t) :
  moves ingest (Server.receive_server_hello w data) st.
Proof.
  unfold Server.receive_server_hello.
  apply moves_bind; [apply moves_lift|]. intros sender _.
  apply moves_bind; [apply moves_lift|]. intros url _.
  apply moves_bind; [apply moves_modify, step_neighbour|]. intros _ _.
  apply connect_to_neighbour_moves.
Qed.

Lemma send_client_update_moves target (st : State.t) :
  moves ingest (Server.send_client_update target) st.
Proof.
  unfold Server.send_client_update. apply moves_get.
  apply moves_bind; [apply moves_lift|]. intros keys _.
  destruct target as [w|].
  - destruct (neighbour_websockets _ !! w); [|apply moves_raise].
    apply send_response_moves.
  - apply moves_bind; [apply broadcast_request_moves|]. intros _ _.
    apply moves_ret.
Qed.

Lemma receive_hello_moves w message (st : State.t) :
  moves ingest (Server.receive_hello w message) st.
Proof.
  unfold Server.receive_hello.
  apply moves_bind; [apply moves_lift|]. intros key _.
  apply moves_bind; [apply moves_modify, step_register|]. intros _ _.
  apply send_client_update_moves.
Qed.

Lemma deliver_loop_moves remaining size w request (st : State.t) :
  moves ingest (Server.deliver_loop remaining size w request) st.
Proof.
  revert st. induction remaining as [|client rest IH]; intros st; simpl.
  - apply moves_get. case_bool_decide; [apply moves_raise | apply moves_ret].
  - apply moves_get. case_bool_decide; [apply moves_raise|].
    apply moves_bind; [|intros _ _; apply IH].
    case_bool_decide; [apply moves_ret | apply send_response_moves].
Qed.

Lemma receive_public_chat_moves w request (st : State.t) :
  moves ingest (Server.receive_public_chat w request) st.
Proof.
  unfold Server.receive_public_chat.
  apply moves_bind; [apply moves_lift|]. intros data _.
  apply moves_bind; [apply moves_lift|]. intros fingerprint _.
  apply moves_bind; [apply moves_lift|]. intros message _.
  destruct (is_none fingerprint || is_none message); [apply moves_ret|].
  apply moves_get. cbv zeta.
  match goal with
  | |- context [@bool_decide ?P ?d] => destruct (@bool_decide P d)
  end;
    match goal with
    | |- context [@dict_get ?K ?V ?E ?d w] =>
        destruct (@dict_get K V E d w) as [record|] eqn:Hrec
    end;
    simpl; try apply moves_ret.
  - apply moves_bind; [apply moves_ret|]. intros _ _. apply moves_get.
    apply moves_bind; [apply deliver_loop_moves|]. intros _ _.
    destruct record; simpl; [apply moves_ret|].
    apply moves_bind; [apply broadcast_request_moves|]. intros _ _.
    apply moves_ret.
  - apply moves_bind; [apply moves_ret|]. intros _ _. apply moves_get.
    apply moves_bind; [apply deliver_loop_moves|]. intros _ _.
    apply moves_ret.
  - apply moves_bind; [by apply moves_modify, step_fingerprint|]. intros _ _.
    apply moves_get.
    apply moves_bind; [apply deliver_loop_moves|]. intros _ _.
    destruct (dict_set record "fingerprint" fingerprint); simpl;
      [apply moves_ret|].
    apply moves_bind; [apply broadcast_request_moves|]. intros _ _.
    apply moves_ret.
Qed.

Lemma send_client_list_moves w (st : State.t) :
  moves ingest (Server.send_client_list w) st.
Proof.
  unfold Server.send_client_list. apply moves_get. apply send_response_moves.
Qed.

(** The dispatch of [handle_message], given the changes of
    [receive_client_update] where the frame is a [client_update]. *)
Lemma handle_message_moves_with w frame (st : State.t) :
  (∀ message message_type,
      json_loads frame = Some message →
      py_get message "type" = Returned message_type →
      is_str message_type "client_list_request" = false →
      is_str message_type "client_update_request" = false →
      is_str message_type "client_update" = true →
      moves ingest (Server.receive_client_update w message) st) →
  moves ingest (Server.handle_message w frame) st.
Proof.
  intros Hupd. unfold Server.handle_message.
  destruct (json_loads frame) as [message|] eqn:Hj; [|apply moves_raise].
  apply moves_bind; [apply moves_lift|]. intros message_type Ht.
  simpl in Ht.
  destruct (is_str message_type "client_list_request") eqn:H1;
    [apply send_client_list_moves|].
  destruct (is_str message_type "client_update_request") eqn:H2;
    [apply send_client_update_moves|].
  destruct (is_str message_type "client_update") eqn:H3;
    [by eapply Hupd|].
  destruct (is_str message_type "signed_data"); [|apply moves_ret].
  apply moves_bind; [apply moves_lift|]. intros counter _.
  apply moves_bind; [apply moves_lift|]. intros signature _.
  apply moves_bind; [apply moves_lift|]. intros data _.
  destruct (is_none data); [apply moves_ret|].
  apply moves_bind; [apply moves_lift|]. intros parsed _.
  apply moves_bind; [apply moves_lift|]. intros inner_type _.
  destruct (is_str inner_type "chat"); [apply moves_ret|].
  destruct (is_str inner_type "hello"); [apply receive_hello_moves|].
  destruct (is_str inner_type "public_chat"); [apply receive_public_chat_moves|].
  destruct (is_str inner_type "server_hello");
    [apply receive_server_hello_moves | apply moves_ret].
Qed.

End moves_facts.

Section moves_with_ingest_facts.
Context `{Provider} `{World}.

Lemma receive_client_update_moves w message (st : State.t) :
  moves true (Server.receive_client_update w message) st.
Proof.
  destruct (receive_client_update_cases st w message)
    as [(P & client_list & Hm & Hp) | [e He]]; unfold moves.
  - rewrite (receive_client_update_resolved _ _ _ _ _ Hm Hp). simpl.
    by eapply rtc_once, step_ingest.
  - rewrite He. apply rtc_refl.
Qed.

Lemma ingest_responses_moves responses (st : State.t) :
  moves true (Server.ingest_responses responses) st.
Proof.
  revert st. induction responses as [|[w message] rest IH]; intros st; simpl.
  - apply moves_ret.
  - apply moves_bind; [apply receive_client_update_moves|]. intros _ _.
    apply IH.
Qed.

Lemma request_client_update_moves (st : State.t) :
  moves true Server.request_client_update st.
Proof.
  unfold Server.request_client_update.
  apply moves_bind; [apply broadcast_request_moves|]. intros responses _.
  apply ingest_responses_moves.
Qed.

Lemma handle_message_moves w frame (st : State.t) :
  moves true (Server.handle_message w frame) st.
Proof.
  apply handle_message_moves_with. intros. apply receive_client_update_moves.
Qed.

Lemma listen_moves w frames (st : State.t) :
  moves true (Server.listen w frames) st.
Proof.
  revert st. induction frames as [|frame rest IH]; intros st; simpl.
  - apply moves_ret.
  - apply moves_bind.
    + apply moves_try; [|intros e _; apply moves_ret].
      apply moves_bind; [apply handle_message_moves|]. intros _ _.
      apply moves_ret.
    + intros [] _; [apply IH | apply moves_ret].
Qed.

Lemma connect_each_moves urls (st : State.t) :
  moves true (Server.connect_each urls) st.
Proof.
  revert st. induction urls as [|url rest IH]; intros st; simpl.
  - apply moves_ret.
  - apply moves_bind; [apply connect_to_neighbour_moves|]. intros _ _.
    apply IH.
Qed.

Lemma start_moves (st : State.t) : moves true Server.start st.
Proof.
  unfold Server.start, Server.connect_to_neighbourhood.
  apply moves_bind; [|intros _ _; apply request_client_update_moves].
  apply moves_get. apply connect_each_moves.
Qed.

Lemma stop_moves (st : State.t) : moves true Server.stop st.
Proof.
  unfold Server.stop.
  apply moves_bind; [apply moves_modify, step_forget_clients|]. intros _ _.
  apply request_client_update_moves.
Qed.
End moves_with_ingest_facts.

(** ** Invariants of the server state *)

Section invariant_facts.
Context `{Provider} `{World}.

Lemma steps_invariant ingest (I : State.t → Prop) :
  (∀ st st', step ingest st st' → I st → I st') →
  ∀ st st', rtc (step ingest) st st' → I st → I st'.
Proof. intros Hstep st st' Hrtc. induction Hrtc; eauto. Qed.

Lemma dict_values_pop_sublist {K V} `{EqDecision K} (d : list (K * V)) k :
  dict_values (dict_pop d k) `sublist_of` dict_values d.
Proof.
  unfold dict_values. induction d as [|[k0 v0] d IH]; csimpl; [done|].
  destruct (decide (k = k0)); csimpl.
  - by apply sublist_cons.
  - by apply sublist_skip.
Qed.

Lemma elem_of_dict_values_set {K V} `{EqDecision K} (d : list (K * V)) k v x :
  x ∈ dict_values (dict_set d k v) → x = v ∨ x ∈ dict_values d.
Proof.
  unfold dict_values. induction d as [|[k0 v0] d IH]; csimpl.
  - intros ->%list_elem_of_singleton. by left.
  - destruct (decide (k = k0)); csimpl; rewrite !elem_of_cons;
      intuition congruence.
Qed.

Lemma dict_values_set_elem_of {K V} `{EqDecision K} (d : list (K * V)) k v :
  v ∈ dict_values (dict_set d k v).
Proof.
  unfold dict_values. induction d as [|[k0 v0] d IH]; csimpl.
  - left.
  - destruct (decide (k = k0)); csimpl; [left | by right].
Qed.

Lemma dict_values_set_NoDup {K V} `{EqDecision K} (d : list (K * V)) k v :
  v ∉ dict_values d → NoDup (dict_values d) →
  NoDup (dict_values (dict_set d k v)).
Proof.
  induction d as [|[k0 v0] d IH]; intros Hv Hnd.
  - apply NoDup_singleton.
  - unfold dict_values in Hv, Hnd. csimpl in *.
    apply not_elem_of_cons in Hv as [Hne Hv].
    apply NoDup_cons in Hnd as [Hv0 Hnd]. simpl.
    destruct (decide (k = k0)); unfold dict_values; csimpl.
    + by apply NoDup_cons.
    + apply NoDup_cons. split; [|by apply IH].
      intros [->|Hin]%elem_of_dict_values_set; done.
Qed.

Lemma step_one_link_per_url ingest (st st' : State.t) :
  step ingest st st' → one_link_per_url st → one_link_per_url st'.
Proof.
  unfold one_link_per_url, active.
  destruct 1; simpl; intros Hnd; try done.
  - eapply sublist_NoDup; [done | apply dict_values_pop_sublist].
  - by apply dict_values_set_NoDup.
Qed.

Lemma dict_pop_sublist {K V} `{EqDecision K} (d : list (K * V)) k :
  dict_pop d k `sublist_of` d.
Proof.
  induction d as [|[k0 v0] d IH]; simpl; [done|].
  destruct (decide (k = k0)); [by apply sublist_cons | by apply sublist_skip].
Qed.

Lemma dict_set_values_Forall {K V} `{EqDecision K} (P : V → Prop)
    (d : list (K * V)) k v :
  P v → Forall P (dict_values d) → Forall P (dict_values (dict_set d k v)).
Proof.
  intros Hv Hd. apply Forall_forall. intros x Hx.
  apply elem_of_dict_values_set in Hx as [->|Hx]; [done|].
  rewrite Forall_forall in Hd. by apply Hd.
Qed.

Lemma dict_get_values {K V} `{EqDecision K} (d : list (K * V)) k v :
  dict_get d k = Some v → v ∈ dict_values d.
Proof.
  unfold dict_values. induction d as [|[k0 v0] d IH]; csimpl; [done|].
  destruct (decide (k = k0)); [intros [= ->]; left | right; by apply IH].
Qed.

Lemma step_clients_have_keys ingest (st st' : State.t) :
  step ingest st st' → clients_have_keys st → clients_have_keys st'.
Proof.
  unfold clients_have_keys, local_clients.
  destruct 1; simpl; intros Hkeys; try done.
  - rewrite Forall_forall in Hkeys. apply Forall_forall. intros x Hx.
    apply Hkeys.
    eapply elem_of_sublist; [exact Hx | apply dict_values_pop_sublist].
  - apply dict_set_values_Forall; [|done]. simpl. by eexists.
  - apply dict_set_values_Forall; [|done].
    unfold local_clients in *.
    assert (Hrec : is_Some (dict_get record "public_key")).
    { rewrite Forall_forall in Hkeys. apply Hkeys.
      by eapply dict_get_values. }
    rewrite dict_get_set_ne; done.
Qed.

Lemma two_keys_one_value {K V} `{EqDecision K} (d : list (K * V)) k1 k2 v :
  k1 ≠ k2 → dict_get d k1 = Some v → dict_get d k2 = Some v →
  ¬ NoDup (dict_values d).
Proof.
  intros Hne. unfold dict_values.
  induction d as [|[k0 v0] d IH]; csimpl; [done|].
  intros H1 H2 [Hv0 Hnd]%NoDup_cons.
  destruct (decide (k1 = k0)) as [->|Hk1], (decide (k2 = k0)) as [->|Hk2];
    simplify_eq.
  - apply Hv0. by eapply dict_get_values.
  - apply Hv0. by eapply dict_get_values.
  - by apply IH.
Qed.

(** X4. The guard of [connect_to_neighbour] keeps one active link per URL
    as long as no other task runs between the guard and the insertion: when
    no two active links stand for one URL, none do after a frame that names
    URLs by strings has been handled, after such frames of a listener,
    after [start], after [stop] or after [connect_to_neighbour], each run
    undivided. The [await] of
    [websockets.connect] stands between the guard and the insertion,
    though: when two calls for one URL have both passed the guard before
    either records its link, both links are recorded for the URL. *)
Theorem one_active_link_per_url_needs_undivided_dials (st : State.t) :
  one_link_per_url st →
  (∀ w frame, names_url frame = true →
              one_link_per_url (Server.handle_message w frame st).2)
  ∧ (∀ w frames, forallb names_url frames = true →
                 one_link_per_url (Server.listen w frames st).2)
  ∧ one_link_per_url (Server.start st).2
  ∧ one_link_per_url (Server.stop st).2
  ∧ (∀ url, one_link_per_url (Server.connect_to_neighbour url st).2)
  ∧ (∀ url w1 w2,
       Server.already_active url st = false → w1 ≠ w2 →
       let st1 := (Server.connect_after_dial url (Some w1) st).2 in
       let st2 := (Server.connect_after_dial url (Some w2) st1).2 in
       dict_get (active st2) w1 = Some url
       ∧ dict_get (active st2) w2 = Some url
       ∧ ¬ one_link_per_url st2).
Proof.
  intros Hinv.
  pose proof (steps_invariant true _ (step_one_link_per_url true)) as Hkeep.
  split; [|split; [|split; [|split; [|split]]]];
    try (intros; (eapply Hkeep; [|exact Hinv])).
  - apply handle_message_moves.
  - apply listen_moves.
  - apply start_moves.
  - apply stop_moves.
  - apply connect_to_neighbour_moves.
  - intros url w1 w2 _ Hne st1 st2.
    assert (Hactive : active st2
                      = dict_set (dict_set (active st) w1 url) w2 url).
    { subst st1 st2. unfold Server.connect_after_dial,
        Neighbourhood.add_active_server, Neighbourhood.send_server_hello,
        Neighbourhood.send_request, ws_send, active. mexec.
      destruct (alive w1); simpl; by destruct (alive w2). }
    assert (H1 : dict_get (active st2) w1 = Some url).
    { rewrite Hactive, dict_get_set_ne by done. apply dict_get_set_eq. }
    assert (H2 : dict_get (active st2) w2 = Some url).
    { rewrite Hactive. apply dict_get_set_eq. }
    split; [exact H1|]. split; [exact H2|].
    unfold one_link_per_url. by eapply two_keys_one_value.
Qed.

(** A broadcast that does not wait for responses returns. *)
Lemma broadcast_loop_returns links message acc (st : State.t) :
  ∃ responses,
    (Neighbourhood.broadcast_loop links message false acc st).1
    = Returned responses.
Proof.
  revert acc st. induction links as [|w links IH]; intros acc st; simpl;
    [by eexists|].
  mexec. unfold Neighbourhood.send_request, ws_send. mexec.
  destruct (alive w); simpl; apply IH.
Qed.

(** [send_client_update()] returns when every client record has its key. *)
Lemma send_client_update_returns (st : State.t) :
  clients_have_keys st →
  (Server.send_client_update None st).1 = Returned tt.
Proof.
  intros Hkeys. unfold Server.send_client_update. mexec.
  assert (Hpk : ∃ keys, Server.public_keys_of (dict_values (clients (self st)))
                        = Returned keys).
  { unfold clients_have_keys, local_clients in Hkeys.
    induction Hkeys as [|record rest [key Hkey] _ [keys IH]]; [by eexists|].
    exists (key :: keys). simpl. unfold dict_getitem. rewrite Hkey. mexec.
    by rewrite IH. }
  destruct Hpk as [keys ->]. simpl.
  unfold Neighbourhood.broadcast_request. mexec.
  match goal with
  | |- context [Neighbourhood.broadcast_loop ?l ?m false ?a ?s] =>
      destruct (broadcast_loop_returns l m a s) as [r Hb];
      destruct (Neighbourhood.broadcast_loop l m false a s) as [o s']
  end.
  simpl in *. by subst.
Qed.

(** X5. Every record of [self.clients] keeps its [public_key]: the
    handlers preserve this, a server starts with it, and under it a
    [hello] that names a key is always accepted, so that the list
    comprehension of [send_client_update] never raises [KeyError]. *)
Theorem client_records_keep_their_public_key (st : State.t) :
  clients_have_keys st →
  (∀ w frame, clients_have_keys (Server.handle_message w frame st).2)
  ∧ (∀ w frames, clients_have_keys (Server.listen w frames st).2)
  ∧ clients_have_keys (Server.stop st).2
  ∧ (Server.send_client_update None st).1 = Returned tt
  ∧ ∀ w message key,
      py_getitem message "public_key" = Returned key →
      (Server.receive_hello w message st).1 = Returned tt.
Proof.
  intros Hinv.
  pose proof (steps_invariant true _ (step_clients_have_keys true)) as Hkeep.
  split; [|split; [|split; [|split]]].
  - intros. eapply Hkeep; [apply handle_message_moves | done].
  - intros. eapply Hkeep; [apply listen_moves | done].
  - eapply Hkeep; [apply stop_moves | done].
  - by apply send_client_update_returns.
  - intros w message key Hkey. unfold Server.receive_hello. mexec.
    rewrite Hkey. simpl.
    match goal with
    | |- context [Server.send_client_update None ?s] =>
        pose proof (send_client_update_returns s) as Hret;
        destruct (Server.send_client_update None s) as [o s']
    end.
    simpl in *. apply Hret.
    eapply (step_clients_have_keys true); [apply (step_register true w key)|done].
Qed.
End invariant_facts.

(** The witness of X4: a server without an active link on which two calls
    for [localhost:8081] pass the guard and are answered with the links
    [p9] and [ClientProtocol 10]. *)
Lemma one_active_link_per_url_witness :
  let W := Fixture.federated in
  let st := Fixture.start "localhost:8080" in
  let other := ClientProtocol 10 in
  let st1 := (Server.connect_after_dial "localhost:8081" (Some Fixture.p9) st).2 in
  let st2 := (Server.connect_after_dial "localhost:8081" (Some other) st1).2 in
  let frame := Fixture.dumps Fixture.peer_hello in
  one_link_per_url st
  ∧ names_url frame = true
  ∧ active (Server.handle_message Fixture.n3 frame st).2
    = [(Fixture.p9, "localhost:8081")]
  ∧ one_link_per_url (Server.handle_message Fixture.n3 frame st).2
  ∧ Server.already_active "localhost:8081" st = false
  ∧ one_link_per_url (Server.connect_to_neighbour "localhost:8081" st).2
  ∧ active st2 = [(Fixture.p9, "localhost:8081"); (other, "localhost:8081")]
  ∧ ¬ one_link_per_url st2.
Proof.
  intros W st other st1 st2 frame.
  assert (Hst : one_link_per_url st) by apply NoDup_nil_2.
  assert (Hurl : names_url frame = true) by reflexivity.
  destruct (one_active_link_per_url_needs_undivided_dials st Hst)
    as (Hhandle & _ & _ & _ & Hconnect & Hrace).
  split; [exact Hst|]. split; [exact Hurl|]. split; [reflexivity|].
  split; [by apply Hhandle|].
  split; [reflexivity|]. split; [apply Hconnect|].
  split; [reflexivity|].
  exact (proj2 (proj2 (Hrace "localhost:8081" Fixture.p9 other eq_refl
                         ltac:(done)))).
Defined.

(** The witness of X5: a server with one registered client accepts the
    [hello] of a second one. *)
Lemma client_records_keep_their_public_key_witness :
  let W := Fixture.calm in
  let st := Fixture.run [(Fixture.c1, Fixture.hello_C)]
              (Fixture.start "localhost:8080") in
  clients_have_keys st
  ∧ dict_keys (local_clients st) = [Fixture.c1]
  ∧ clients_have_keys
      (Server.handle_message Fixture.c2 (Fixture.dumps Fixture.hello_D) st).2
  ∧ (Server.receive_hello Fixture.c2 (Fixture.hello "PEM-D") st).1 = Returned tt.
Proof.
  intros W st.
  assert (Hst : clients_have_keys st).
  { unfold clients_have_keys. vm_compute. repeat constructor. by eexists. }
  destruct (client_records_keep_their_public_key st Hst)
    as (Hhandle & _ & _ & _ & Hhello).
  split; [exact Hst|]. split; [reflexivity|]. split; [apply Hhandle|].
  by apply (Hhello _ _ (JStr "PEM-D")).
Defined.

(** ** What no handler undoes *)

Section keeps_facts.
Context `{Provider} `{World}.

Lemma keeps_refl (st : State.t) : keeps st st.
Proof. unfold keeps. repeat split; try done. Qed.

Lemma keeps_trans (st1 st2 st3 : State.t) :
  keeps st1 st2 → keeps st2 st3 → keeps st1 st3.
Proof.
  unfold keeps. intros (?&?&?&?&?&Hn1&Hr1) (?&?&?&?&?&Hn2&Hr2).
  repeat split; try congruence; [lia|naive_solver..].
Qed.

Lemma dict_get_set_is_Some {K V} `{EqDecision K} (d : list (K * V)) k v k' :
  is_Some (dict_get d k') → is_Some (dict_get (dict_set d k v) k').
Proof.
  induction d as [|[k0 v0] d IH]; simpl; [by intros [? ?]|].
  destruct (decide (k = k0)) as [->|]; simpl; destruct (decide (k' = k0));
    eauto.
Qed.

Lemma step_keeps ingest (st st' : State.t) : step ingest st st' → keeps st st'.
Proof.
  destruct 1; unfold keeps, roster; simpl; repeat split; try done; try lia.
  - intros w'. destruct (decide (w' = w)) as [->|];
      [by rewrite lookup_insert_eq | by rewrite lookup_insert_ne].
  - intros Q. apply dict_get_set_is_Some.
Qed.

Lemma moves_keeps {A} ingest (m : M State.t A) (st : State.t) :
  moves ingest m st → keeps st (m st).2.
Proof.
  unfold moves. induction 1 as [|st1 st2 st3 Hs _ IH]; [apply keeps_refl|].
  eapply keeps_trans; [by eapply step_keeps | done].
Qed.

(** X6. On frames that name URLs by strings, no handler, listener,
    [start] or [stop] takes a link out of [neighbour_websockets] or a URL
    out of the roster, changes the URL, the key or the list of neighbours
    of the server, or lowers its counter. *)
Theorem handlers_never_forget_neighbours_or_roster_entries (st : State.t) :
  (∀ w frame, names_url frame = true →
              keeps st (Server.handle_message w frame st).2)
  ∧ (∀ w frames, forallb names_url frames = true →
                 keeps st (Server.listen w frames st).2)
  ∧ keeps st (Server.start st).2
  ∧ keeps st (Server.stop st).2.
Proof.
  split; [|split; [|split]]; intros; apply (moves_keeps true).
  - apply handle_message_moves.
  - apply listen_moves.
  - apply start_moves.
  - apply stop_moves.
Qed.
End keeps_facts.

(** The witness of X6: the peer [localhost:8081] has said [server_hello] on
    the link [n3] and sent its clients; a [hello] of a client and a
    [public_chat] follow on another link. *)
Lemma handlers_never_forget_witness :
  let W := Fixture.calm in
  let st := Fixture.run [(Fixture.n3, Fixture.peer_hello);
                         (Fixture.n3, Fixture.update_D)]
              (Fixture.start "localhost:8080") in
  let frames := [Fixture.dumps Fixture.hello_C; Fixture.dumps Fixture.chat_7] in
  let st' := (Server.listen Fixture.c1 frames st).2 in
  forallb names_url frames = true
  ∧ names_url (Fixture.dumps Fixture.peer_hello) = true
  ∧ neighbour_websockets (self st) !! Fixture.n3 = Some "localhost:8081"
  ∧ is_Some (neighbour_websockets (self st') !! Fixture.n3)
  ∧ is_Some (dict_get (roster st') "localhost:8081").
Proof.
  intros W st frames st'.
  assert (Hframes : forallb names_url frames = true) by reflexivity.
  destruct (proj1 (proj2 (handlers_never_forget_neighbours_or_roster_entries st))
              Fixture.c1 frames Hframes) as (_ & _ & _ & _ & _ & Hn & Hr).
  split; [exact Hframes|]. split; [reflexivity|]. split; [reflexivity|].
  split; [apply Hn | apply Hr]; by eexists.
Defined.

(** ** Who writes the roster *)

Section roster_writer_facts.
Context `{Provider} `{World}.

Lemma bind_lift_eq {A B} (o : outcome A) (f : A → M State.t B) (st : State.t) :
  (lift o ≫= f) st
  = match o with Returned a => f a st | Raised e => (Raised e, st) end.
Proof. by destruct o. Qed.

(** Without [save_clients] the roster stays as it is. *)
Lemma quiet_steps_keep_roster (st st' : State.t) :
  rtc (step false) st st' → roster st' = roster st.
Proof.
  induction 1 as [|st1 st2 st3 Hs _ IH]; [done|].
  rewrite IH. by destruct Hs.
Qed.

Lemma handle_message_quiet_or_ingests w frame (st : State.t) :
  moves false (Server.handle_message w frame) st
  ∨ ∃ P client_list,
      peer_of st w = Some P
      ∧ (Server.handle_message w frame st).2 = ingested P client_list st.
Proof.
  destruct (json_loads frame) as [message|] eqn:Hj;
    [|left; apply handle_message_moves_with; intros; congruence].
  destruct (receive_client_update_cases st w message)
    as [(P & client_list & Hm & Hp) | [e He]].
  - destruct (py_get message "type") as [message_type|e] eqn:Ht;
      [|left; apply handle_message_moves_with; intros; congruence].
    destruct (is_str message_type "client_list_request") eqn:H1;
      [left; apply handle_message_moves_with; intros; congruence|].
    destruct (is_str message_type "client_update_request") eqn:H2;
      [left; apply handle_message_moves_with; intros; congruence|].
    destruct (is_str message_type "client_update") eqn:H3;
      [|left; apply handle_message_moves_with; intros; congruence].
    right. exists P, client_list. split; [done|].
    unfold Server.handle_message. rewrite Hj, bind_lift_eq, Ht, H1, H2, H3.
    by rewrite (receive_client_update_resolved _ _ _ _ _ Hm Hp).
  - left. apply handle_message_moves_with.
    intros message' message_type Hj' _ _ _ _.
    assert (message' = message) as -> by congruence.
    unfold moves. rewrite He. apply rtc_refl.
Qed.

(** X7. A frame that names URLs by strings changes the roster in one way
    only: a [client_update] received on a link that stands for a peer
    replaces the entry of that peer. On a link that stands for no peer the
    roster stays as it is, and the entries of the other peers are never
    touched. *)
Theorem roster_is_written_only_for_the_peer_of_the_link
    (st : State.t) w frame :
  names_url frame = true →
  let st' := (Server.handle_message w frame st).2 in
  (roster st' = roster st
   ∨ ∃ P client_list, peer_of st w = Some P ∧ st' = ingested P client_list st)
  ∧ (peer_of st w = None → roster st' = roster st)
  ∧ (∀ Q, peer_of st w ≠ Some Q →
          dict_get (roster st') Q = dict_get (roster st) Q).
Proof.
  intros _ st'. subst st'.
  destruct (handle_message_quiet_or_ingests w frame st)
    as [Hq | (P & client_list & Hp & ->)].
  - apply quiet_steps_keep_roster in Hq.
    split; [by left|]. split; [done|]. intros Q _. by rewrite Hq.
  - split; [right; by exists P, client_list|]. split; [congruence|].
    intros Q HQ. unfold ingested, roster. simpl.
    apply dict_get_set_ne. congruence.
Qed.
End roster_writer_facts.

(** The witness of X7: on the link of a registered client, which stands for
    no peer, a [client_update] leaves the roster as the peer's own update
    has made it. *)
Lemma roster_is_written_only_for_the_peer_witness :
  let W := Fixture.calm in
  let st := Fixture.run [(Fixture.n3, Fixture.peer_hello);
                         (Fixture.n3, Fixture.update_D);
                         (Fixture.c1, Fixture.hello_C)]
              (Fixture.start "localhost:8080") in
  let st' := (Server.handle_message Fixture.c1
                (Fixture.dumps Fixture.update_D) st).2 in
  names_url (Fixture.dumps Fixture.update_D) = true
  ∧ peer_of st Fixture.c1 = None
  ∧ roster st = [("localhost:8081", JList [JStr "PEM-D"])]
  ∧ roster st' = roster st.
Proof.
  intros W st st'.
  assert (Hurl : names_url (Fixture.dumps Fixture.update_D) = true)
    by reflexivity.
  split; [exact Hurl|].
  assert (Hp : peer_of st Fixture.c1 = None) by reflexivity.
  split; [exact Hp|]. split; [reflexivity|].
  exact (proj1 (proj2 (roster_is_written_only_for_the_peer_of_the_link
                         st Fixture.c1 (Fixture.dumps Fixture.update_D)
                         Hurl)) Hp).
Defined.

(** ** The exceptions of the handlers *)

Section exception_facts.
Context `{Provider} `{World}.


Lemma raises_only_ret {A} E (a : A) (st : State.t) : raises_only E (mret a) st.
Proof. by intros e. Qed.



Lemma raises_only_bind {A B} E (m : M State.t A) (f : A → M State.t B)
    (st : State.t) :
  raises_only E m st →
  (∀ a, (m st).1 = Returned a → raises_only E (f a) (m st).2) →
  raises_only E (m ≫= f) st.
Proof.
  unfold raises_only. mexec. intros Hm Hf e.
  destruct (m st) as [[a|e'] st1]; simpl in *; [by apply Hf|].
  intros [= <-]. by apply Hm.
Qed.









Lemma ws_send_raises w message (st : State.t) :
  raises_only (λ e, e = ConnectionClosed) (ws_send w message) st.
Proof. intros e. unfold ws_send. destruct (alive w); simpl; congruence. Qed.


(** One that waits lets the error of [json.loads] through. *)
Lemma send_request_wait_raises w message (st : State.t) :
  raises_only (λ e, e ∈ [JSONDecodeError; UnicodeDecodeError; RecursionError])
    (Neighbourhood.send_request w message true) st.
Proof.
  intros e. unfold Neighbourhood.send_request, ws_send. mexec.
  destruct (alive w); simpl; [|done].
  destruct (recv w) as [response|]; simpl; [|done].
  destruct (json_loads response); simpl; [done|].
  destruct (json_loads_error response); simpl; intros [= <-];
    rewrite !elem_of_cons; auto.
Qed.


Lemma broadcast_loop_wait_raises links message acc (st : State.t) :
  raises_only (λ e, e ∈ [JSONDecodeError; UnicodeDecodeError; RecursionError])
    (Neighbourhood.broadcast_loop links message true acc) st.
Proof.
  revert acc st. induction links as [|w links IH]; intros acc st; simpl.
  - apply raises_only_ret.
  - apply raises_only_bind; [apply send_request_wait_raises|].
    intros r _. apply IH.
Qed.














End exception_facts.


(** ** A peer whose link is closed ([request_client_update]) *)

Section closed_peer_facts.
Context `{Provider} `{World}.







(** The state [add_active_server] leaves: the link is recorded and the
    counter has advanced before the [server_hello] is put on the link, and
    they stay so when the send fails. *)
Lemma add_active_server_eq url w (st : State.t) :
  Neighbourhood.add_active_server url w st
  = (Returned tt,
     let st1 :=
       with_self (with_counter (λ c, c + 1)%Z)
         (with_self (with_neighbourhood
                       (with_active_servers (λ d, dict_set d w url))) st) in
     if alive w
     then record_send w (server_hello_envelope st (counter (self st) + 1)) st1
     else st1).
Proof.
  unfold Neighbourhood.add_active_server, Neighbourhood.send_server_hello,
    Neighbourhood.send_request, ws_send. mexec.
  by destruct (alive w).
Qed.

Lemma connect_to_neighbour_eq url (st : State.t) :
  Server.connect_to_neighbour url st
  = (Returned tt,
     if Server.already_active url st then st
     else match dial (dials st) url with
          | None => count_dial st
          | Some w => (Neighbourhood.add_active_server url w (count_dial st)).2
          end).
Proof.
  unfold Server.connect_to_neighbour, Server.connect_after_dial. mexec.
  destruct (Server.already_active url st); [done|].
  destruct (dial (dials st) url) as [w|]; simpl; [|done].
  by rewrite add_active_server_eq.
Qed.

Lemma connect_to_neighbour_active url (st : State.t) :
  active (Server.connect_to_neighbour url st).2
  = if Server.already_active url st then active st
    else match dial (dials st) url with
         | None => active st
         | Some w => dict_set (active st) w url
         end.
Proof.
  rewrite connect_to_neighbour_eq. simpl.
  destruct (Server.already_active url st); [done|].
  destruct (dial (dials st) url) as [w|]; [|done].
  rewrite add_active_server_eq. simpl. by destruct (alive w).
Qed.





End closed_peer_facts.


(** ** What a signature covers ([sign_message], [verify_signature]) *)

Section signed_bytes_facts.
Context `{Provider}.

Lemma string_app_assoc (s t u : string) : (s +:+ t) +:+ u = s +:+ (t +:+ u).
Proof.
  induction s as [|ch s IH]; [done|].
  change (String ch ((s +:+ t) +:+ u) = String ch (s +:+ (t +:+ u))).
  by rewrite IH.
Qed.

Lemma pretty_N_go_app (x : N) (s : string) :
  pretty_N_go x s = pretty_N_go x "" +:+ s.
Proof.
  revert s. induction (N.lt_wf_0 x) as [x _ IH]; intros s.
  assert (x = 0 ∨ 0 < x)%N as [->|Hx] by lia; [by rewrite !pretty_N_go_0|].
  assert (Hlt : (x `div` 10 < x)%N) by (by apply N.div_lt).
  rewrite (pretty_N_go_step x s), (pretty_N_go_step x "") by done.
  rewrite (IH _ Hlt (String (pretty_N_char (x `mod` 10)) s)).
  rewrite (IH _ Hlt (String (pretty_N_char (x `mod` 10)) "")).
  by rewrite string_app_assoc.
Qed.

Lemma pretty_N_digit (d : N) :
  (d < 10)%N → pretty d = String (pretty_N_char d) "".
Proof.
  intros Hd. unfold pretty, pretty_N.
  destruct (decide (d = 0%N)) as [->|Hne]; [done|].
  rewrite pretty_N_go_step by lia.
  rewrite N.div_small, N.mod_small by done. by rewrite pretty_N_go_0.
Qed.

(** [str(10 * c + d)] is [str(c)] followed by the digit [d]. *)
Lemma str_of_int_digits (c d : Z) :
  (0 < c)%Z → (0 ≤ d < 10)%Z →
  str_of_int (10 * c + d) = str_of_int c +:+ str_of_int d.
Proof.
  intros Hc Hd.
  assert (Hnat : ∀ z, (0 ≤ z)%Z → str_of_int z = pretty (Z.to_N z)).
  { intros z Hz. unfold str_of_int, pretty at 1, pretty_Z.
    destruct z as [|p|p]; [done|done|lia]. }
  rewrite !Hnat by lia.
  replace (Z.to_N (10 * c + d)) with (10 * Z.to_N c + Z.to_N d)%N by lia.
  set (n := Z.to_N c). set (k := Z.to_N d).
  assert (Hn : (0 < n)%N) by lia. assert (Hk : (k < 10)%N) by lia.
  clearbody n k. rewrite (pretty_N_digit k Hk).
  unfold pretty at 1 2, pretty_N.
  rewrite !decide_False by lia.
  rewrite pretty_N_go_step by lia.
  replace ((10 * n + k) `div` 10)%N with n
    by (symmetry; rewrite N.mul_comm, N.div_add_l by lia;
        rewrite (N.div_small k) by done; lia).
  replace ((10 * n + k) `mod` 10)%N with k
    by (symmetry; rewrite N.add_comm, N.mul_comm, N.Div0.mod_add;
        by apply N.mod_small).
  apply pretty_N_go_app.
Qed.

(** X10. The signed bytes are the data followed by the decimal counter,
    with nothing in between: the signature made for [data] with the
    counter [10 * c + d] is accepted by [verify_signature] for the data
    [data + str(c)] with the counter [d]. *)
Theorem signature_does_not_separate_data_from_counter
    sk salt (data : string) (c d : Z) :
  (0 < c)%Z → (0 ≤ d < 10)%Z →
  Crypto.message_bytes (data +:+ str_of_int c) d
  = Crypto.message_bytes data (10 * c + d)
  ∧ Crypto.verify_signature (public_of sk)
      (Crypto.sign_message salt data (10 * c + d) sk)
      (data +:+ str_of_int c) d
    = Returned true.
Proof.
  intros Hc Hd.
  assert (Hbytes : Crypto.message_bytes (data +:+ str_of_int c) d
                   = Crypto.message_bytes data (10 * c + d)).
  { unfold Crypto.message_bytes, encode.
    rewrite str_of_int_digits by done.
    rewrite !string_app_bytes. by rewrite app_assoc. }
  split; [exact Hbytes|].
  rewrite verify_signature_signed, Hbytes. by rewrite pss_correct.
Qed.
End signed_bytes_facts.

(** The witness of X10: the signature of ["hi"] with the counter 12 is
    accepted for ["hi1"] with the counter 2. *)
Lemma signature_does_not_separate_witness :
  let sk : RSAPrivateKey (Provider := Fixture.toy) := encode "client-key" in
  Crypto.verify_signature (H := Fixture.toy) (public_of sk)
    (Crypto.sign_message [] "hi" 12 sk) "hi1" 2
  = Returned true.
Proof.
  intros sk.
  exact (proj2 (signature_does_not_separate_data_from_counter
                  (H := Fixture.toy) sk [] "hi" 1 2
                  ltac:(lia) ltac:(lia))).
Defined.

(** ** What [encrypt_chat_message] leaves for the receivers *)

Section wrapped_key_facts.
Context `{Provider} `{World}.

(** The loop over the receivers appends one wrapped key per receiver and
    touches nothing else. *)
Lemma wrap_for_appends (receivers : list (RSAPrivateKey * list byte))
    (aes_key : list byte) (m : Message.Message) :
  Forall (λ r, is_Some (oaep_encrypt (public_of r.1) r.2 aes_key)) receivers →
  ∃ wrapped,
    Message.wrap_for ((λ r, (public_of r.1, r.2)) <$> receivers) aes_key m
    = (Returned tt,
       {| Message.content := Message.content m;
          Message.encrypted_content := Message.encrypted_content m;
          Message.participants := Message.participants m;
          Message.iv := Message.iv m;
          Message.symm_keys := Message.symm_keys m ++ wrapped;
          Message.counter := Message.counter m;
          Message.message_type := Message.message_type m;
          Message.private_key := Message.private_key m |})
    ∧ Forall2 (λ r k, ∃ c, Base64.b64decode k = Returned c
                           ∧ oaep_decrypt r.1 c = Some aes_key)
        receivers wrapped.
Proof.
  intros Hok. revert m.
  induction Hok as [|[sk seed] rest [c Hc] _ IH]; intros m.
  - exists []. rewrite app_nil_r. by destruct m.
  - simpl in Hc. csimpl. unfold Message.encrypt_key. mexec. rewrite Hc. simpl.
    destruct (IH (Message.append_symm_key
                    (decode (Base64.b64encode c)) m)) as (wrapped & -> & Hall).
    exists (decode (Base64.b64encode c) :: wrapped). simpl. split.
    + by rewrite <- app_assoc.
    + constructor; [|done]. exists c. split; [apply b64decode_b64encode|].
      by eapply oaep_correct.
Qed.

(** X11. When every receiver's key can wrap the AES key,
    [encrypt_chat_message] returns, and what it leaves in the message is
    enough for each receiver: the entries it appends to [symm_keys], one
    per receiver and in their order, base64-decode to a ciphertext that
    the receiver's private key opens to the AES key, and the stored
    ciphertext decrypts under that key and the stored [iv] to the
    serialised participants and content. The keys of an earlier call stay
    in front of the new ones. *)
Theorem every_receiver_can_unwrap_the_key
    (m : Message.Message) urandom16 urandom32
    (receivers : list (RSAPrivateKey * list byte)) :
  length urandom16 = 16%nat → length urandom32 = 32%nat →
  Forall (λ r, is_Some (oaep_encrypt (public_of r.1) r.2 urandom32)) receivers →
  let chat_data :=
    JObj [("participants", JList (JStr <$> Message.participants m));
          ("message", JStr (Message.content m))] in
  let result :=
    Message.encrypt_chat_message urandom16 urandom32
      ((λ r, (public_of r.1, r.2)) <$> receivers) m in
  result.1 = Returned tt
  ∧ Message.iv result.2 = Message.PBytes urandom16
  ∧ (∃ ciphertext,
        Message.encrypted_content result.2 = Message.PBytes ciphertext
        ∧ gcm_decrypt urandom32 urandom16 ciphertext
          = encode (json_dumps chat_data))
  ∧ ∃ wrapped,
      Message.symm_keys result.2 = Message.symm_keys m ++ wrapped
      ∧ Forall2 (λ r k, ∃ c, Base64.b64decode k = Returned c
                             ∧ oaep_decrypt r.1 c = Some urandom32)
          receivers wrapped.
Proof.
  intros H16 H32 Hok chat_data result. subst result chat_data.
  unfold Message.encrypt_chat_message, Message.AES, Message.GCM. mexec.
  rewrite H16, H32. simpl. rewrite app_nil_r.
  match goal with
  | |- context [Message.wrap_for _ _ ?m1] =>
      destruct (wrap_for_appends receivers urandom32 m1 Hok)
        as (wrapped & -> & Hall)
  end.
  simpl. split; [done|]. split; [done|]. split.
  - eexists. split; [done|]. apply gcm_correct.
  - by exists wrapped.
Qed.
End wrapped_key_facts.

(** The witness of X11: a message for two receivers. *)
Lemma every_receiver_can_unwrap_the_key_witness :
  let W := Fixture.calm in
  let key := encode "0123456789abcdef0123456789abcdef" in
  let iv := encode "0123456789abcdef" in
  let receivers : list (RSAPrivateKey (Provider := Fixture.toy) * list byte) :=
    [(encode "key-C", []); (encode "key-D", [])] in
  let m := (Message.encrypt_chat_message iv key
              ((λ r, (public_of r.1, r.2)) <$> receivers)
              (Message.init "hi")).2 in
  length (Message.symm_keys m) = 2%nat
  ∧ ∃ wrapped,
      Message.symm_keys m = [] ++ wrapped
      ∧ Forall2 (λ r k, ∃ c, Base64.b64decode k = Returned c
                             ∧ oaep_decrypt r.1 c = Some key)
          receivers wrapped.
Proof.
  intros W key iv receivers m.
  split; [reflexivity|].
  exact (proj2 (proj2 (proj2
    (every_receiver_can_unwrap_the_key (Message.init "hi") iv key receivers
       eq_refl eq_refl
       ltac:(repeat constructor; by eexists))))).
Defined.

(** ** Dialling a neighbour ([connect_to_neighbour]) *)

Section dial_facts.
Context `{Provider} `{World}.

(** X12. [connect_to_neighbour] never raises. Once the URL is among the
    active servers a call does nothing: no dial, no second link, no second
    [server_hello] and no further step of the counter. The URL is active
    afterwards exactly when it was before or the dial succeeded, also when
    the [server_hello] could not be sent; a successful dial records the
    link and advances the counter by one. After a dial that failed nothing
    but the number of dials has changed, and the next call dials anew: when
    that dial succeeds the link is recorded then. *)
Theorem connect_to_neighbour_dials_until_the_url_is_active
    (st : State.t) url :
  let result := Server.connect_to_neighbour url st in
  result.1 = Returned tt
  ∧ (url ∈ dict_values (active result.2) →
     Server.connect_to_neighbour url result.2 = (Returned tt, result.2))
  ∧ (url ∈ dict_values (active result.2)
     ↔ url ∈ dict_values (active st) ∨ is_Some (dial (dials st) url))
  ∧ (url ∈ dict_values (active st) → result.2 = st)
  ∧ (url ∉ dict_values (active st) → dial (dials st) url = None →
     result.2 = count_dial st)
  ∧ (∀ w, url ∉ dict_values (active st) → dial (dials st) url = Some w →
          active result.2 = dict_set (active st) w url
          ∧ counter (self result.2) = (counter (self st) + 1)%Z)
  ∧ (∀ w, url ∉ dict_values (active st) → dial (dials st) url = None →
          dial (S (dials st)) url = Some w →
          active (Server.connect_to_neighbour url result.2).2
          = dict_set (active st) w url).
Proof.
  intros result. subst result.
  assert (Hguard : ∀ st1, url ∈ dict_values (active st1) →
            Server.connect_to_neighbour url st1 = (Returned tt, st1)).
  { intros st1 Hin. rewrite connect_to_neighbour_eq.
    unfold Server.already_active. fold (active st1).
    by rewrite bool_decide_eq_true_2. }
  split; [by rewrite connect_to_neighbour_eq|].
  split; [apply Hguard|].
  pose proof (connect_to_neighbour_active url st) as Hactive.
  pose proof (connect_to_neighbour_eq url st) as Heq.
  unfold Server.already_active in Hactive, Heq. fold (active st) in Hactive, Heq.
  destruct (decide (url ∈ dict_values (active st))) as [Hin|Hout].
  - rewrite (bool_decide_eq_true_2 _ Hin) in Hactive, Heq.
    rewrite Heq. simpl.
    split; [by split; [left|]|]. split; [done|].
    split; [done|]. split; intros w Hout; done.
  - rewrite (bool_decide_eq_false_2 _ Hout) in Hactive, Heq.
    destruct (dial (dials st) url) as [w|] eqn:Hd.
    + split.
      { rewrite Hactive. split; [by right|]. intros _.
        apply dict_values_set_elem_of. }
      split; [done|]. split; [done|]. split; [|done].
      intros w' _ [= <-]. split; [exact Hactive|].
      rewrite Heq, add_active_server_eq. simpl. by destruct (alive w).
    + split.
      { rewrite Hactive. split; [done|]. by intros [?|[? ?]]. }
      split; [done|]. split; [by rewrite Heq|]. split; [done|].
      intros w _ _ Hnext. rewrite Heq. simpl.
      rewrite connect_to_neighbour_active.
      unfold Server.already_active. simpl. fold (active st).
      rewrite (bool_decide_eq_false_2 _ Hout). by rewrite Hnext.
Qed.
End dial_facts.

(** The witness of X12: the first dial of [localhost:8081] fails and the
    second is answered with the link [p9]; the third call does nothing. *)
Lemma connect_to_neighbour_dials_witness :
  let W : World :=
    {| json_dumps := Fixture.dumps;
       json_loads := dict_get Fixture.table;
       json_loads_error := λ _, NotJSON;
       alive := Fixture.everyone;
       dial := λ n url, if bool_decide (n = 0%nat) then None
                        else Some Fixture.p9;
       recv := λ _, None;
       pss_salt := λ _, [] |} in
  let st := Fixture.start "localhost:8080" in
  let st1 := (Server.connect_to_neighbour "localhost:8081" st).2 in
  let st2 := (Server.connect_to_neighbour "localhost:8081" st1).2 in
  ("localhost:8081" ∉ dict_values (active st))
  ∧ dial (dials st) "localhost:8081" = None
  ∧ st1 = count_dial st
  ∧ active st2 = [(Fixture.p9, "localhost:8081")]
  ∧ Server.connect_to_neighbour "localhost:8081" st2 = (Returned tt, st2).
Proof.
  intros W st st1 st2.
  assert (Hout : "localhost:8081" ∉ dict_values (active st))
    by apply not_elem_of_nil.
  assert (Hd : dial (dials st) "localhost:8081" = None) by reflexivity.
  destruct (connect_to_neighbour_dials_until_the_url_is_active
              st "localhost:8081") as (_ & _ & _ & _ & Hfail & _ & Hretry).
  destruct (connect_to_neighbour_dials_until_the_url_is_active
              st1 "localhost:8081") as (_ & Hagain & _).
  split; [exact Hout|]. split; [exact Hd|]. split; [exact (Hfail Hout Hd)|].
  split; [exact (Hretry Fixture.p9 Hout Hd eq_refl)|].
  apply Hagain. apply list_elem_of_here.
Defined.

(** ** The counter of a client ([Client.send_message]) *)

Section client_sender_facts.
Context `{Provider} `{World}.

(** X13. [send_message] never advances [self.counter]: whatever is sent,
    the client keeps its counter, key and fingerprint, and an envelope
    that is sent carries the counter the client had before, so that all
    the envelopes of a client carry the same counter. Only [hello] and
    [public_chat] produce an envelope: [chat] and [group_chat] raise
    [TypeError] at the call of [prepare_chat_message] and leave the client
    as it is, and any other type returns without sending. *)
Theorem client_counter_never_advances
    (self : Client.Client) salt content chat_type :
  let result := Client.send_message salt content chat_type self in
  Client.counter result.2 = Client.counter self
  ∧ Client.private_key result.2 = Client.private_key self
  ∧ Client.fingerprint result.2 = Client.fingerprint self
  ∧ (∀ envelope,
        result.1 = Returned (Some envelope) →
        py_get envelope "counter" = Returned (JInt (Client.counter self))
        ∧ chat_type ∈ ["hello"; "public_chat"])
  ∧ (chat_type ∈ ["chat"; "group_chat"] → result = (Raised TypeError, self))
  ∧ (chat_type ∉ ["hello"; "chat"; "group_chat"; "public_chat"] →
     result = (Returned None, self)).
Proof.
  intros result. subst result.
  unfold Client.send_message, Client.sign_message. mexec.
  rewrite !not_elem_of_cons.
  repeat setoid_rewrite elem_of_cons. repeat setoid_rewrite elem_of_nil.
  destruct (bool_decide (chat_type = "hello")) eqn:Hh; simpl;
    [apply bool_decide_eq_true_1 in Hh | apply bool_decide_eq_false_1 in Hh].
  { split; [done|]. split; [done|]. split; [done|].
    split; [intros envelope [= <-]; by split; [|left]|].
    split; [intros [?|[?|[]]]; congruence | intros (? & _); done]. }
  destruct (bool_decide (chat_type = "chat")) eqn:Hc; simpl;
    [apply bool_decide_eq_true_1 in Hc | apply bool_decide_eq_false_1 in Hc].
  { split; [done|]. split; [done|]. split; [done|].
    split; [by intros envelope|].
    split; [done | intros (_ & ? & _); done]. }
  destruct (bool_decide (chat_type = "group_chat")) eqn:Hg; simpl;
    [apply bool_decide_eq_true_1 in Hg | apply bool_decide_eq_false_1 in Hg].
  { split; [done|]. split; [done|]. split; [done|].
    split; [by intros envelope|].
    split; [done | intros (_ & _ & ? & _); done]. }
  destruct (bool_decide (chat_type = "public_chat")) eqn:Hp; simpl;
    [apply bool_decide_eq_true_1 in Hp | apply bool_decide_eq_false_1 in Hp].
  { split; [done|]. split; [done|]. split; [done|].
    split; [intros envelope [= <-]; by split; [|right; left]|].
    split; [intros [?|[?|[]]]; congruence | intros (_ & _ & _ & ? & _); done]. }
  split; [done|]. split; [done|]. split; [done|].
  split; [by intros envelope|].
  split; [intros [?|[?|[]]]; done | done].
Qed.
End client_sender_facts.

(** The witness of X13: the [public_chat] a client sends after its [hello]
    carries the counter 0 of the [hello]. *)
Lemma client_counter_never_advances_witness :
  let W := Fixture.calm in
  let client := Client.init (H := Fixture.toy) "localhost:8080" (encode "key-C") in
  let after_hello := (Client.send_message [] "" "hello" client).2 in
  let result := Client.send_message [] "hi" "public_chat" after_hello in
  ∃ envelope,
    result.1 = Returned (Some envelope)
    ∧ py_get envelope "counter" = Returned (JInt 0).
Proof.
  intros W client after_hello result. eexists. split; [reflexivity|].
  exact (proj1 (proj1 (proj2 (proj2 (proj2
    (client_counter_never_advances after_hello [] "hi" "public_chat"))))
    _ eq_refl)).
Defined.

(** ** The listener of a client ([Client.listen]) *)

Section client_listener_facts.
Context `{World}.

(** X14. The listener of a client logs every exception and returns: it
    never raises. A frame that is no JSON, or is JSON but no object, ends
    it there, and the frames that follow, a [client_list] among them, are
    not handled. *)
Theorem client_listener_stops_at_the_first_bad_frame
    (before after : list string) (bad : string)
    (online_users : list (string * json)) :
  json_loads bad = None
  ∨ (∃ data, json_loads bad = Some data
             ∧ py_get data "type" = Raised AttributeError) →
  Client.listen (before ++ bad :: after) online_users
  = Client.listen before online_users
  ∧ (Client.listen before online_users).1 = Returned tt.
Proof.
  intros Hbad. revert online_users.
  induction before as [|frame before IH]; intros online_users.
  - split; [|done]. simpl. mexec.
    destruct Hbad as [->|(data & -> & Hdata)]; [done|].
    unfold Client.handle_message. mexec. by rewrite Hdata.
  - simpl. mexec.
    destruct (json_loads frame) as [data|]; [|done].
    destruct (Client.handle_message data online_users) as [[[]|e] users1];
      simpl; [apply IH | done].
Qed.
End client_listener_facts.

(** The witness of X14: after a frame that is no JSON the [client_list]
    that follows is not stored. *)
Lemma client_listener_stops_witness :
  let client_list :=
    JObj [("type", JStr "client_list");
          ("servers",
           JList [JObj [("address", JStr "localhost:8081");
                        ("clients", JList [JStr "PEM-D"])]])] in
  let W := Fixture.world (Fixture.frames [client_list])
             Fixture.everyone Fixture.nobody in
  json_loads "{" = None
  ∧ (Client.listen [Fixture.dumps client_list] []).2
    = [("localhost:8081", JList [JStr "PEM-D"])]
  ∧ Client.listen ["{"; Fixture.dumps client_list] [] = (Returned tt, []).
Proof.
  intros client_list W.
  assert (Hbad : json_loads "{" = None) by reflexivity.
  split; [exact Hbad|]. split; [reflexivity|].
  exact (proj1 (client_listener_stops_at_the_first_bad_frame
                  [] [Fixture.dumps client_list] "{" [] (or_introl Hbad))).
Defined.

(** ** Shutting down ([stop]) *)

Section stop_facts.
Context `{Provider} `{World}.

Lemma send_request_sent w message wait (st : State.t) :
  sent (Neighbourhood.send_request w message wait st).2
  = sent st ++ (if alive w then [(w, message)] else []).
Proof.
  unfold Neighbourhood.send_request, ws_send. mexec.
  destruct (alive w); simpl; [|by rewrite app_nil_r].
  destruct wait; simpl; [|done].
  destruct (recv w) as [response|]; simpl; [|done].
  destruct (json_loads response); [done|].
  by destruct (json_loads_error response).
Qed.

Lemma broadcast_loop_sent links message wait acc (st : State.t) :
  ∃ extra,
    sent (Neighbourhood.broadcast_loop links message wait acc st).2
    = sent st ++ extra
    ∧ Forall (λ entry, entry.1 ∈ links ∧ entry.2 = message) extra.
Proof.
  revert acc st. induction links as [|w links IH]; intros acc st; simpl.
  - exists []. by rewrite app_nil_r.
  - mexec. pose proof (send_request_sent w message wait st) as Hs.
    destruct (Neighbourhood.send_request w message wait st)
      as [[response|e] st1]; simpl in *.
    + destruct (IH (dict_set acc w response) st1) as (extra & -> & Hall).
      rewrite Hs, <- app_assoc. eexists. split; [done|].
      apply Forall_app. split.
      * destruct (alive w); repeat constructor.
      * eapply Forall_impl; [exact Hall|]. intros entry [? ?].
        split; [by right | done].
    + rewrite Hs. eexists. split; [done|].
      destruct (alive w); repeat constructor.
Qed.

(** The loop over the responses writes the roster and nothing else. *)
Lemma ingest_responses_keeps responses (st : State.t) :
  let st' := (Server.ingest_responses responses st).2 in
  sent st' = sent st ∧ local_clients st' = local_clients st
  ∧ active st' = active st.
Proof.
  revert st. induction responses as [|[w message] rest IH]; intros st;
    simpl; [done|].
  mexec.
  destruct (receive_client_update_cases st w message)
    as [(P & client_list & Hm & Hp) | [e ->]]; [|done].
  rewrite (receive_client_update_resolved _ _ _ _ _ Hm Hp).
  destruct (IH (ingested P client_list st)) as (-> & -> & ->). done.
Qed.

(** X15. [stop] empties [self.clients] and asks the peers for their
    clients: whether it returns or raises, the server has no client
    afterwards, its active links are as before, and all it has put on a
    link is a [client_update_request] to an active link. No
    [client_update] goes out, so no peer learns that the clients are
    gone. *)
Theorem stop_forgets_the_clients_and_tells_no_peer (st : State.t) :
  let st' := (Server.stop st).2 in
  local_clients st' = []
  ∧ active st' = active st
  ∧ ∃ extra,
      sent st' = sent st ++ extra
      ∧ Forall (λ entry,
                  entry.1 ∈ dict_keys (active st)
                  ∧ entry.2 = JObj [("type", JStr "client_update_request")])
          extra.
Proof.
  intros st'. subst st'.
  unfold Server.stop, Server.request_client_update,
    Neighbourhood.broadcast_request. mexec.
  set (st0 := with_self (with_clients (λ _, [])) st).
  set (request := JObj [("type", JStr "client_update_request")]).
  pose proof (broadcast_loop_self
                (dict_keys (active_servers (neighbourhood (self st))))
                request true [] st0) as Hself.
  destruct (broadcast_loop_sent
              (dict_keys (active_servers (neighbourhood (self st))))
              request true [] st0) as (extra & Hsent & Hall).
  destruct (Neighbourhood.broadcast_loop _ request true [] st0)
    as [[responses|e] st1]; simpl in *.
  - destruct (ingest_responses_keeps responses st1) as (Hs & Hc & Ha).
    destruct (Server.ingest_responses responses st1) as [o st2].
    simpl in *. unfold local_clients, active in *.
    rewrite Hc, Ha, Hs, Hself, Hsent. split; [done|]. split; [done|].
    by exists extra.
  - unfold local_clients, active. rewrite Hself, Hsent.
    split; [done|]. split; [done|]. by exists extra.
Qed.
End stop_facts.

(** ** A broken client link during a public chat ([receive_public_chat]) *)

Section broken_client_facts.
Context `{Provider} `{World}.

Lemma dict_pop_length {K V} `{EqDecision K} (d : list (K * V)) k :
  k ∈ dict_keys d → S (length (dict_pop d k)) = length d.
Proof.
  unfold dict_keys. induction d as [|[k0 v0] d IH]; csimpl.
  - by intros ?%elem_of_nil.
  - destruct (decide (k = k0)) as [->|Hne]; [done|].
    intros [?|Hin]%elem_of_cons; [done|]. simpl. by rewrite IH.
Qed.

Lemma dict_keys_pop {K V} `{EqDecision K} (d : list (K * V)) k before after :
  dict_keys d = before ++ k :: after → k ∉ before →
  dict_keys (dict_pop d k) = before ++ after.
Proof.
  unfold dict_keys. revert d.
  induction before as [|k1 before IH]; intros [|[k0 v0] d]; csimpl;
    try done.
  - intros [= -> Hd] _. by rewrite decide_True.
  - intros [= -> Hd] [Hne Hout]%not_elem_of_cons.
    rewrite decide_False by done. csimpl. f_equal. by apply IH.
Qed.

Lemma dict_set_length {K V} `{EqDecision K} (d : list (K * V)) k v :
  is_Some (dict_get d k) → length (dict_set d k v) = length d.
Proof.
  induction d as [|[k0 v0] d IH]; simpl; [by intros [? ?]|].
  destruct (decide (k = k0)); simpl; [done|]. intros Hs. by rewrite IH.
Qed.

(** The loop over the clients meets a broken link: the record of the link
    is popped and the iterator raises when it is advanced. *)
Lemma deliver_loop_broken before dead after w request (st : State.t) :
  dead ∈ dict_keys (clients (self st)) →
  dead ≠ w → alive dead = false →
  (∀ c, c ∈ before → alive c = true) →
  Server.deliver_loop (before ++ dead :: after) (length (clients (self st)))
    w request st
  = (Raised RuntimeError,
     {| self := with_clients (λ d, dict_pop d dead) (self st);
        sent := sent st
                ++ ((λ c, (c, request)) <$> filter (λ c, c ≠ w) before);
        dials := dials st |}).
Proof.
  intros Hin Hne Hdead. revert st Hin.
  induction before as [|c before IH]; intros st Hin Halive.
  - cbn [app]. cbn [Server.deliver_loop]. mexec.
    rewrite bool_decide_eq_false_2 by (by intros ?).
    rewrite bool_decide_eq_false_2 by done.
    unfold Server.send_response, ws_send. mexec. rewrite Hdead. simpl.
    unfold dict_contains. rewrite bool_decide_eq_true_2
      by (by apply not_eq_None_Some; rewrite dict_get_None_keys; intros ?).
    simpl. rewrite app_nil_r.
    pose proof (dict_pop_length (clients (self st)) dead Hin) as Hlen.
    destruct after; simpl; mexec;
      rewrite bool_decide_eq_true_2 by lia; by destruct st.
  - cbn [app]. cbn [Server.deliver_loop]. mexec.
    rewrite bool_decide_eq_false_2 by (by intros ?).
    destruct (decide (c = w)) as [->|Hc].
    + rewrite bool_decide_eq_true_2 by done. simpl.
      rewrite IH; [|done|intros c' Hc'; apply Halive; by right].
      rewrite filter_cons_False by (by intros ?). done.
    + rewrite bool_decide_eq_false_2 by done.
      rewrite send_response_alive by (apply Halive; left). simpl.
      pose proof (IH (record_send c request st)) as IH'. simpl in IH'.
      rewrite IH'; [|done|intros c' Hc'; apply Halive; by right].
      rewrite filter_cons_True by done. csimpl. by rewrite <- app_assoc.
Qed.

(** X16. One broken client link ends a public chat. When a [public_chat]
    with a sender and a message arrives on the link of a registered client
    or of a neighbour, and the link of a client other than the sender is
    down, [receive_public_chat] raises [RuntimeError]: the record of that
    client is popped inside the loop over [self.clients], the clients
    after it in the dictionary get nothing, and nothing is broadcast to
    the peers. *)
Theorem broken_client_link_ends_the_public_chat
    (st : State.t) w request data fingerprint message before dead after :
  py_getitem request "data" = Returned data →
  py_get data "sender" = Returned fingerprint →
  py_get data "message" = Returned message →
  is_none fingerprint = false → is_none message = false →
  is_Some (dict_get (local_clients st) w)
  ∨ is_Some (neighbour_websockets (self st) !! w) →
  dict_keys (local_clients st) = before ++ dead :: after →
  dead ∉ before → dead ≠ w → alive dead = false →
  (∀ c, c ∈ before → alive c = true) →
  let result := Server.receive_public_chat w request st in
  result.1 = Raised RuntimeError
  ∧ dict_keys (local_clients result.2) = before ++ after
  ∧ sent result.2
    = sent st ++ ((λ c, (c, request)) <$> filter (λ c, c ≠ w) before).
Proof.
  intros Hdata Hfp Hmsg Hnf Hnm Hlink Hkeys Hout Hne Hdead Halive result.
  subst result. unfold local_clients in *.
  assert (Hin : dead ∈ dict_keys (clients (self st))).
  { rewrite Hkeys, elem_of_app, elem_of_cons. right. by left. }
  unfold Server.receive_public_chat.
  rewrite bind_lift_eq, Hdata, bind_lift_eq, Hfp, bind_lift_eq, Hmsg.
  rewrite Hnf, Hnm. cbn [orb]. mexec.
  destruct (decide (is_Some (neighbour_websockets (self st) !! w)))
    as [Hn|Hn].
  - rewrite (bool_decide_eq_true_2 _ Hn).
    assert (Hloop := deliver_loop_broken before dead after w request st
                       Hin Hne Hdead Halive).
    rewrite <- Hkeys in Hloop.
    destruct (dict_get (clients (self st)) w) as [record|]; simpl;
      rewrite Hloop; simpl;
      (split; [done|]); (split; [by apply dict_keys_pop | done]).
  - rewrite (bool_decide_eq_false_2 _ Hn).
    destruct Hlink as [Hc|Hc]; [|done].
    destruct Hc as [record Hrec]. rewrite Hrec. simpl.
    set (record' := dict_set record "fingerprint" fingerprint).
    set (st1 := with_self (with_clients (λ d, dict_set d w record')) st).
    assert (Hkeys1 : dict_keys (clients (self st1))
                     = before ++ dead :: after).
    { simpl. rewrite dict_keys_set_present; [done | by eexists]. }
    assert (Hin1 : dead ∈ dict_keys (clients (self st1))).
    { rewrite Hkeys1, elem_of_app, elem_of_cons. right. by left. }
    assert (Hloop := deliver_loop_broken before dead after w request st1
                       Hin1 Hne Hdead Halive).
    rewrite <- Hkeys1 in Hloop. simpl in Hloop.
    unfold st1 in *. simpl in *. rewrite Hloop. simpl.
    split; [done|]. split; [|done].
    apply dict_keys_pop; [|done]. exact Hkeys1.
Qed.
End broken_client_facts.

(** The witness of X16: the clients [c1] and [c2] are registered, the link
    of [c1] is down, and a [public_chat] arrives from the peer on [n3]. *)
Lemma broken_client_link_witness :
  let st := @Fixture.run Fixture.federated
              [(Fixture.c1, Fixture.hello_C); (Fixture.c2, Fixture.hello_D);
               (Fixture.n3, Fixture.peer_hello)]
              (Fixture.start "localhost:8080") in
  let W := Fixture.broken [Fixture.c1] in
  let result := Server.receive_public_chat Fixture.n3 Fixture.chat_7 st in
  dict_keys (local_clients st) = [] ++ Fixture.c1 :: [Fixture.c2]
  ∧ alive Fixture.c1 = false
  ∧ result.1 = Raised RuntimeError
  ∧ sent result.2 = sent st.
Proof.
  intros st W result.
  assert (Hkeys : dict_keys (local_clients st) = [] ++ Fixture.c1 :: [Fixture.c2])
    by reflexivity.
  assert (Hdead : alive Fixture.c1 = false) by reflexivity.
  destruct (broken_client_link_ends_the_public_chat st Fixture.n3
              Fixture.chat_7 (Fixture.public_chat "fp-C" "hi")
              (JStr "fp-C") (JStr "hi") [] Fixture.c1 [Fixture.c2]
              eq_refl eq_refl eq_refl eq_refl eq_refl
              (or_intror (mk_is_Some _ _ eq_refl)) Hkeys
              (not_elem_of_nil _) ltac:(done) Hdead
              ltac:(by intros c ?%elem_of_nil))
    as (Hraise & _ & Hsent).
  split; [exact Hkeys|]. split; [exact Hdead|]. split; [exact Hraise|].
  exact (eq_trans Hsent (app_nil_r _)).
Defined.

(** ** Envelopes the server does not act on ([handle_message], [receive_chat]) *)

Section dropped_envelope_facts.
Context `{Provider} `{World}.

(** X17. A [signed_data] envelope whose inner type is none of [hello],
    [public_chat] and [server_hello] has no effect: [handle_message]
    returns, the state of the server is as before and nothing is put on a
    link. This is the fate of every private [chat], whether the data come
    as an object or as a string of JSON: [receive_chat] forwards
    nothing. *)
Theorem private_chat_is_not_forwarded
    (st : State.t) w frame message data inner inner_type :
  json_loads frame = Some message →
  py_get message "type" = Returned (JStr "signed_data") →
  py_get message "data" = Returned data →
  ((∃ fields, data = JObj fields ∧ inner = data)
   ∨ (∃ text, data = JStr text ∧ json_loads text = Some inner)) →
  py_get inner "type" = Returned inner_type →
  is_str inner_type "hello" = false →
  is_str inner_type "public_chat" = false →
  is_str inner_type "server_hello" = false →
  Server.handle_message w frame st = (Returned tt, st).
Proof.
  intros Hj Ht Hd Hinner Hit Hh Hp Hs. unfold Server.handle_message.
  rewrite Hj. cbv beta iota. rewrite bind_lift_eq, Ht. cbn [is_str].
  rewrite !bool_decide_eq_false_2 by done.
  rewrite bool_decide_eq_true_2 by done.
  destruct message as [| | | | |kvs]; try done.
  cbn [py_get] in Hd. injection Hd as Hd.
  rewrite bind_lift_eq. cbn [py_get]. rewrite bind_lift_eq. cbn [py_get].
  rewrite bind_lift_eq. cbn [py_get]. rewrite Hd.
  destruct Hinner as [(fields & -> & ->)|(text & -> & Htext)].
  - cbn [is_none]. rewrite bind_lift_eq. cbn [Server.parse_data].
    rewrite bind_lift_eq, Hit.
    destruct (is_str inner_type "chat"); [done|]. by rewrite Hh, Hp, Hs.
  - cbn [is_none]. rewrite bind_lift_eq. cbn [Server.parse_data].
    rewrite Htext. rewrite bind_lift_eq, Hit.
    destruct (is_str inner_type "chat"); [done|]. by rewrite Hh, Hp, Hs.
Qed.
End dropped_envelope_facts.

(** The witness of X17: a private [chat] from one registered client to
    another changes nothing and reaches nobody. *)
Lemma private_chat_is_not_forwarded_witness :
  let chat :=
    Fixture.signed_data
      (JObj [("type", JStr "chat"); ("destination_servers", JList []);
             ("iv", JStr "aXY="); ("symm_keys", JList [JStr "a2V5"]);
             ("chat", JStr "Y2hhdA==")]) 4 "AAAA" in
  let W := Fixture.world
             (Fixture.frames [Fixture.hello_C; Fixture.hello_D; chat])
             Fixture.everyone Fixture.nobody in
  let st := Fixture.run [(Fixture.c1, Fixture.hello_C);
                         (Fixture.c2, Fixture.hello_D)]
              (Fixture.start "localhost:8080") in
  dict_keys (local_clients st) = [Fixture.c1; Fixture.c2]
  ∧ Server.handle_message Fixture.c1 (Fixture.dumps chat) st
    = (Returned tt, st).
Proof.
  intros chat W st. split; [reflexivity|].
  apply (private_chat_is_not_forwarded st Fixture.c1 (Fixture.dumps chat)
           chat
           (JObj [("type", JStr "chat"); ("destination_servers", JList []);
                  ("iv", JStr "aXY="); ("symm_keys", JList [JStr "a2V5"]);
                  ("chat", JStr "Y2hhdA==")])
           (JObj [("type", JStr "chat"); ("destination_servers", JList []);
                  ("iv", JStr "aXY="); ("symm_keys", JList [JStr "a2V5"]);
                  ("chat", JStr "Y2hhdA==")])
           (JStr "chat"));
    try reflexivity.
  left. eexists. split; reflexivity.
Defined.

(** ** Dropping an active link ([remove_active_server]) *)

Section drop_link_facts.
Context `{Provider} `{World}.

Lemma dict_pop_values_fresh {K V} `{EqDecision K} (d : list (K * V)) k v :
  NoDup (dict_keys d) → NoDup (dict_values d) → (k, v) ∈ d →
  v ∉ dict_values (dict_pop d k).
Proof.
  unfold dict_keys, dict_values.
  induction d as [|[k0 v0] d IH]; csimpl; intros Hk Hv Hin.
  - by apply elem_of_nil in Hin.
  - apply NoDup_cons in Hk as [Hk0 Hk]. apply NoDup_cons in Hv as [Hv0 Hv].
    apply elem_of_cons in Hin as [[= -> ->]|Hin].
    + by rewrite decide_True.
    + destruct (decide (k = k0)) as [->|Hne].
      * exfalso. apply Hk0. apply list_elem_of_fmap. by exists (k0, v).
      * csimpl. apply not_elem_of_cons. split; [|by apply IH].
        intros ->. apply Hv0. apply list_elem_of_fmap. by exists (k, v0).
Qed.

(** X18. With one active link per URL, [remove_active_server] leaves no
    active link for the URL, so that the guard of [connect_to_neighbour]
    lets the next call dial the peer again; the links of the other URLs
    stay. It never raises, and without an active link for the URL it
    changes nothing. *)
Theorem remove_active_server_leaves_no_link_for_the_url
    (st : State.t) url :
  NoDup (dict_keys (active st)) →
  one_link_per_url st →
  let result := Neighbourhood.remove_active_server url st in
  result.1 = Returned tt
  ∧ (url ∉ dict_values (active result.2))
  ∧ (∀ w other, other ≠ url → dict_get (active st) w = Some other →
                dict_get (active result.2) w = Some other)
  ∧ (url ∉ dict_values (active st) → result.2 = st)
  ∧ roster result.2 = roster st
  ∧ neighbour_websockets (self result.2) = neighbour_websockets (self st).
Proof.
  intros Hkeys Hvalues result. subst result.
  unfold one_link_per_url, active in *.
  unfold Neighbourhood.remove_active_server. mexec.
  destruct (Neighbourhood.find_active_server _ url) as [w|] eqn:Hf; simpl.
  - apply find_active_server_Some in Hf.
    split; [done|]. split; [by apply dict_pop_values_fresh|].
    split; [|split; [|done]].
    + intros w' other Hother Hw'. rewrite dict_get_pop_ne; [done|].
      intros ->. pose proof (dict_get_elem_of _ _ _ Hkeys Hf). congruence.
    + intros Hout. exfalso. apply Hout. unfold dict_values.
      apply list_elem_of_fmap. by exists (w, url).
  - apply find_active_server_None in Hf. done.
Qed.
End drop_link_facts.

(** The witness of X18: the link [p9] dialled to [localhost:8081] is
    dropped, and the peer can be dialled again. *)
Lemma remove_active_server_witness :
  let W := Fixture.federated in
  let st := (Server.connect_to_neighbour "localhost:8081"
               (Fixture.start "localhost:8080")).2 in
  let st' := (Neighbourhood.remove_active_server "localhost:8081" st).2 in
  active st = [(Fixture.p9, "localhost:8081")]
  ∧ ("localhost:8081" ∉ dict_values (active st')).
Proof.
  intros W st st'. split; [reflexivity|].
  assert (Hkeys : NoDup (dict_keys (active st))) by apply NoDup_singleton.
  assert (Hvalues : one_link_per_url st) by apply NoDup_singleton.
  exact (proj1 (proj2 (remove_active_server_leaves_no_link_for_the_url
                         st "localhost:8081" Hkeys Hvalues))).
Defined.
